(** * Object/document mapping and live buffer of [ParseDataService]

    A shallow embedding of [app/services/data.service.ts]: the graph
    transcoder ([mappings], [mapParseAttributesToEntityObject],
    [mapParseArrayOfAttributesToEntityObject]), the reference-array diff
    inside [mappings], the live-buffer event handlers of [startupBuffer]
    and the facade operations [save], [destroy], [getFullObjectById] and
    [fetchObjectByIdIfNeeded].

    JavaScript values are one dynamically typed universe [Val].  Documents
    of the backend ([Parse.Object], [Parse.User], [Parse.Role]) are mutable
    and shared, so they live in a heap and values hold references to them;
    objects built on the TypeScript side are carried by value. *)

From stdpp Require Import gmap strings list fin_maps.
From Stdlib Require Import ZArith.

Local Open Scope Z_scope.
Local Open Scope string_scope.
Local Open Scope list_scope.

(** ** JavaScript values *)

(** Reference to a backend document held in memory. *)
Abbreviation Ref := positive (only parsing).

(** The class a TypeScript-side object was built from, as far as the
    [instanceof] tests of the service can tell. *)
Inductive Proto : Type :=
  | EntityObjectProto (name : string)  (* instance of a class extending EntityObject *)
  | EntityFileProto                    (* instance of EntityFile *)
  | UserProto                          (* instance of User (users.service.ts) *)
  | PlainProto.                        (* object literal or spread copy *)

#[warnings="-register-all"]
Inductive Val : Type :=
  | VUndefined
  | VNull
  | VBool (b : bool)
  | VNum (n : Z)
  | VStr (s : string)
  | VDate (ms : Z)
  | VArr (elems : list Val)
  | VParseFile (name url : string)              (* Parse.File *)
  | VParseObj (r : Ref)                         (* Parse.Object, Parse.User, Parse.Role *)
  | VObject (proto : Proto) (fields : list (string * Val)).

(** A backend document as the client holds it: class name, identifier
    (absent until the server assigned one) and attribute bag. *)
Record ParseObject : Type := mkParseObject {
  className : string;
  objectId : option string;
  attributes : list (string * Val)
}.

Global Instance ParseObject_inhabited : Inhabited ParseObject :=
  populate (mkParseObject "" None []).

Abbreviation Heap := (gmap positive ParseObject) (only parsing).

(** ** Property bags

    Own enumerable properties in insertion order.  Reading takes the
    first binding of a key, writing replaces it in place or appends. *)
Module Props.

Fixpoint get (k : string) (l : list (string * Val)) : Val :=
  match l with
  | [] => VUndefined
  | (k', v) :: l' => if decide (k = k') then v else get k l'
  end.

Fixpoint set (k : string) (v : Val) (l : list (string * Val)) : list (string * Val) :=
  match l with
  | [] => [(k, v)]
  | (k', v') :: l' =>
      if decide (k = k') then (k, v) :: l' else (k', v') :: set k v l'
  end.

Fixpoint delete (k : string) (l : list (string * Val)) : list (string * Val) :=
  match l with
  | [] => []
  | (k', v') :: l' =>
      if decide (k = k') then delete k l' else (k', v') :: delete k l'
  end.

(** [Object.keys] and [for ... in]: every key once, in insertion order. *)
Definition keys (l : list (string * Val)) : list string := remove_dups (l.*1).

End Props.

(** ** Primitive tests of the language *)

(** [!v] is [negb (truthy v)]. *)
Definition truthy (v : Val) : bool :=
  match v with
  | VUndefined | VNull => false
  | VBool b => b
  | VNum n => negb (Z.eqb n 0)
  | VStr s => negb (String.eqb s "")
  | _ => true
  end.

(** [v == undefined], which also holds of [null]. *)
Definition isNullish (v : Val) : bool :=
  match v with
  | VUndefined | VNull => true
  | _ => false
  end.

(** Loose equality [a == b] on the values identifiers take: nullish values
    are equal to each other, primitives of one type compare by value,
    documents by reference.  Coercion between a number and a string is
    not modelled; identifiers are strings or absent. *)
Definition looseEq (a b : Val) : bool :=
  match a, b with
  | (VUndefined | VNull), (VUndefined | VNull) => true
  | VBool x, VBool y => bool_decide (x = y)
  | VNum x, VNum y => bool_decide (x = y)
  | VStr x, VStr y => bool_decide (x = y)
  | VParseObj x, VParseObj y => bool_decide (x = y)
  | _, _ => false
  end.

(** Property read [o.k] / [o[k]] on a TypeScript-side object. *)
Definition getProp (o : Val) (k : string) : Val :=
  match o with
  | VObject _ fields => Props.get k fields
  | _ => VUndefined
  end.

(** Property write [o[k] = v]; only objects carry the properties the service writes. *)
Definition setProp (o : Val) (k : string) (v : Val) : Val :=
  match o with
  | VObject p fields => VObject p (Props.set k v fields)
  | _ => o
  end.

(** [v instanceof Parse.File] *)
Definition instanceofParseFile (v : Val) : bool :=
  match v with VParseFile _ _ => true | _ => false end.

(** [v instanceof Parse.Object].  [User] of users.service.ts extends
    [Parse.User], so the objects [mapParseUserToUser] builds pass too. *)
Definition instanceofParseObject (v : Val) : bool :=
  match v with
  | VParseObj _ | VObject UserProto _ => true
  | _ => false
  end.

(** [v instanceof EntityObject] *)
Definition instanceofEntityObject (v : Val) : bool :=
  match v with VObject (EntityObjectProto _) _ => true | _ => false end.

(** [v instanceof EntityFile] *)
Definition instanceofEntityFile (v : Val) : bool :=
  match v with VObject EntityFileProto _ => true | _ => false end.

(** [v instanceof Object] *)
Definition instanceofObject (v : Val) : bool :=
  match v with
  | VDate _ | VArr _ | VParseFile _ _ | VParseObj _ | VObject _ _ => true
  | _ => false
  end.

(** ** Documents in the heap *)

(** [parseElement.className]; [None] is [undefined]. *)
Definition classNameOf (h : Heap) (v : Val) : option string :=
  match v with
  | VParseObj r => Some (className (h !!! r))
  | VObject UserProto _ => Some "_User"
  | _ => None
  end.

Definition idVal (i : option string) : Val :=
  match i with Some s => VStr s | None => VUndefined end.

(** [parseObject.get(k)]: the attribute, [undefined] when unset. *)
Definition parseGet (h : Heap) (v : Val) (k : string) : Val :=
  match v with
  | VParseObj r => Props.get k (attributes (h !!! r))
  | _ => VUndefined
  end.

(** [Object.keys(parseElement.attributes)] with the attribute values. *)
Definition parseAttributes (h : Heap) (v : Val) : list (string * Val) :=
  match v with
  | VParseObj r => attributes (h !!! r)
  | _ => []
  end.

(** [v instanceof Parse.User] and [v instanceof Parse.Role]: the client
    builds documents of class ["_User"] and ["_Role"] as these subclasses. *)
Definition instanceofParseUser (h : Heap) (v : Val) : bool :=
  instanceofParseObject v && bool_decide (classNameOf h v = Some "_User").

Definition instanceofParseRole (h : Heap) (v : Val) : bool :=
  instanceofParseObject v && bool_decide (classNameOf h v = Some "_Role").

(** ** Class registry (classnames.model.ts) *)

(** A constructor [{ new(): T }]: the prototype of the instances and the
    properties its field initialisers create. *)
Record Ctor : Type := mkCtor {
  ctorProto : Proto;
  ctorInit : list (string * Val)
}.

Definition construct (c : Ctor) : Val := VObject (ctorProto c) (ctorInit c).

Record EntityObjectDefinition : Type := mkDefinition {
  defClassname : string;
  defType : option Ctor
}.

(** What a static member of [Classnames] holds: one of the two string
    members, or an [EntityObjectDefinition]. *)
Inductive ClassReference : Type :=
  | RefString (s : string)
  | RefDefinition (d : EntityObjectDefinition).

(** [class Role extends EntityObject { name; users = []; roles = [] }] *)
Definition Role : Ctor :=
  mkCtor (EntityObjectProto "Role") [("users", VArr []); ("roles", VArr [])].

Section Registry.

(** The application's own entries of [Classnames]; the three default
    ones are those of the source. *)
Variable appClassnames : string → option EntityObjectDefinition.

Definition Classnames (classname : string) : option ClassReference :=
  if decide (classname = "_Role") then Some (RefDefinition (mkDefinition "_Role" (Some Role)))
  else if decide (classname = "_User") then Some (RefString "_User")
  else if decide (classname = "File") then Some (RefString "_File")
  else RefDefinition <$> appClassnames classname.

End Registry.

(** ** Hydration: document to domain object *)

(** [mapFile]: an [EntityFile] with [name], [url] and the file as handle.
    On a value that is no [Parse.File] the source would call a missing
    method; no call of the service reaches that case (see
    [Classnames_never_File]), and the model answers [undefined] there. *)
Definition mapFile (parseFile : Val) : Val :=
  match parseFile with
  | VParseFile name url =>
      VObject EntityFileProto
        [("name", VStr name); ("url", VStr url); ("entity", parseFile)]
  | _ => VUndefined
  end.

(** [getEmail()] / [getUsername()] of the client: the attribute when it is
    a string or nullish, the empty string otherwise. *)
Definition stringAccessor (v : Val) : Val :=
  match v with
  | VUndefined | VNull | VStr _ => v
  | _ => VStr ""
  end.

(** [user.id] *)
Definition idOfDocument (h : Heap) (v : Val) : Val :=
  match v with
  | VParseObj r => idVal (objectId (h !!! r))
  | VObject _ fields => Props.get "id" fields
  | _ => VUndefined
  end.

Definition mapParseUserToUser (h : Heap) (user : Val) : Val :=
  VObject UserProto
    [("email", stringAccessor (parseGet h user "email"));
     ("username", stringAccessor (parseGet h user "username"));
     ("role", parseGet h user "role");
     ("entity", user);
     ("id", idOfDocument h user)].

(** Default arguments of the two hydration functions. *)
Definition defaultMaxDeep : Z := 3.
Definition defaultArrayMaxDeep : Z := 2.

(** The test of line 734: an array that is not empty and whose first
    element is a document. *)
Definition isReferenceArray (a : Val) : bool :=
  match a with
  | VArr (first :: _) => instanceofParseObject first
  | _ => false
  end.

Definition arrayElems (a : Val) : list Val :=
  match a with VArr l => l | _ => [] end.

(** Left fold with early exit, for [forEach] bodies that may not return. *)
Fixpoint foldlM {A B : Type} (f : B → A → option B) (l : list A) (b : B) : option B :=
  match l with
  | [] => Some b
  | x :: l' => match f b x with Some b' => foldlM f l' b' | None => None end
  end.

Section Hydrate.

Variable appClassnames : string → option EntityObjectDefinition.

(** Body of [mapParseArrayOfAttributesToEntityObject], over the function
    it maps.  The element call passes [deepLevel] only, so the elements
    are hydrated with the default [maxDeep] of the single-object form. *)
Definition mapArrayWith (rec : Val → Z → Z → option Val)
    (parseElements : list Val) (deepLevel maxDeep : Z) : option (list Val) :=
  if decide (maxDeep ≠ deepLevel)
  then mapM (λ parseElement, rec parseElement deepLevel defaultMaxDeep) parseElements
  else Some parseElements.

(** Body of the [forEach] callback of lines 726-746 for one attribute value. *)
Definition hydrateAttribute (rec : Val → Z → Z → option Val) (h : Heap)
    (a : Val) (deepLevel maxDeep : Z) : option Val :=
  if instanceofParseFile a then Some (mapFile a)
  else if instanceofParseObject a then rec a (deepLevel + 1) maxDeep
  else if isReferenceArray a then
    VArr <$> mapArrayWith rec (arrayElems a) (deepLevel + 1) maxDeep
  else if instanceofParseUser h a then Some (mapParseUserToUser h a)
  else if instanceofParseRole h a then rec a (deepLevel + 1) maxDeep
  else Some a.

(** [mapParseAttributesToEntityObject(parseElement, deepLevel, maxDeep)].
    The document graph may be cyclic, so the recursion is bounded by
    [fuel]; [None] means the fuel ran out, [Some VUndefined] is the
    source's [return undefined]. *)
Fixpoint mapParseAttributesToEntityObject (fuel : nat) (h : Heap)
    (parseElement : Val) (deepLevel maxDeep : Z) {struct fuel} : option Val :=
  match fuel with
  | O => None
  | S fuel' =>
    if negb (truthy parseElement) then Some VUndefined
    else
      match classNameOf h parseElement ≫= Classnames appClassnames with
      | None => Some VUndefined
      | Some (RefString s) =>
          if decide (s = "_User") then Some (mapParseUserToUser h parseElement)
          else if decide (s = "File") then Some (mapFile parseElement)
          else Some VUndefined
      | Some (RefDefinition d) =>
          match defType d with
          | None => Some VUndefined
          | Some type =>
              let attrs := parseAttributes h parseElement in
              m ← (if decide (maxDeep ≠ deepLevel) then
                     foldlM (λ m element,
                         v ← hydrateAttribute
                               (mapParseAttributesToEntityObject fuel' h) h
                               (Props.get element attrs) deepLevel maxDeep;
                         Some (setProp m element v))
                       (Props.keys attrs) (construct type)
                   else Some (construct type));
              Some (setProp m "entity" parseElement)
          end
      end
  end.

Definition mapParseArrayOfAttributesToEntityObject (fuel : nat) (h : Heap)
    (parseElements : list Val) (deepLevel maxDeep : Z) : option (list Val) :=
  mapArrayWith (mapParseAttributesToEntityObject fuel h) parseElements deepLevel maxDeep.

(** [afterBufferDownload]: the populate path of the live buffer. *)
Definition afterBufferDownload (fuel : nat) (h : Heap) (parseObjects : list Val)
    : option (list Val) :=
  mapParseArrayOfAttributesToEntityObject fuel h parseObjects 0 2.

(** [afterSubUpdate]: hydration of one pushed document, default depths. *)
Definition afterSubUpdate (fuel : nat) (h : Heap) (parseObject : Val) : option Val :=
  mapParseAttributesToEntityObject fuel h parseObject 0 defaultMaxDeep.

End Hydrate.


(** ** Effects: heap of documents, console, network, exceptions *)

Inductive Exn : Type :=
  | ThrownString (s : string)        (* [throw "..."] *)
  | ThrownError (message : string)   (* [throw Error("...")] *)
  | TypeError.                       (* raised by the language itself *)

(** Outcome of a call.  [OutOfFuel] is not an exception of the program:
    it marks a hydration the model cut short, and no handler catches it. *)
Inductive Result (A : Type) : Type :=
  | Ok (a : A)
  | Throw (e : Exn)
  | OutOfFuel.

Arguments Ok {A} a.
Arguments Throw {A} e.
Arguments OutOfFuel {A}.

Inductive NetCall : Type :=
  | NetGet (classname id : string)      (* [query.includeAll().get(id)] *)
  | NetCount (classname : string)       (* [query.count()] *)
  | NetFind (classname : string) (limit : Z)   (* [query.limit(n).find()] *)
  | NetSave (r : Ref)                   (* [parseObject.save()] *)
  | NetDestroy (r : Ref).               (* [parseObject.destroy()] *)

Record World : Type := mkWorld {
  heap : Heap;
  console : list string;
  network : list NetCall
}.

Definition Op (A : Type) : Type := World → Result A * World.

Definition ret {A : Type} (a : A) : Op A := λ w, (Ok a, w).

Definition bind {A B : Type} (c : Op A) (k : A → Op B) : Op B :=
  λ w, match c w with
       | (Ok a, w') => k a w'
       | (Throw e, w') => (Throw e, w')
       | (OutOfFuel, w') => (OutOfFuel, w')
       end.

Definition throw {A : Type} (e : Exn) : Op A := λ w, (Throw e, w).

(** [try { body } catch (err) { handler }] *)
Definition tryCatch {A : Type} (body : Op A) (handler : Exn → Op A) : Op A :=
  λ w, match body w with
       | (Throw e, w') => handler e w'
       | r => r
       end.

Declare Scope op_scope.
Delimit Scope op_scope with Op.
Notation "'do' x <- c1 ; c2" := (bind c1 (λ x, c2))
  (at level 10, x name, c1 at level 100, c2 at level 200) : op_scope.
Notation "'do' ' p <- c1 ; c2" := (bind c1 (λ x, match x with p => c2 end))
  (at level 10, p pattern, c1 at level 100, c2 at level 200) : op_scope.
Notation "c1 ;; c2" := (bind c1 (λ _, c2))
  (at level 100, c2 at level 200, right associativity) : op_scope.
Local Open Scope op_scope.

Definition getHeap : Op Heap := λ w, (Ok (heap w), w).

Definition setHeap (h : Heap) : Op unit :=
  λ w, (Ok tt, mkWorld h (console w) (network w)).

(** [console.error(line, ...)] *)
Definition consoleError (line : string) : Op unit :=
  λ w, (Ok tt, mkWorld (heap w) (console w ++ [line]) (network w)).

Definition recordCall (c : NetCall) : Op unit :=
  λ w, (Ok tt, mkWorld (heap w) (console w) (network w ++ [c])).

Definition liftResult {A : Type} (r : Result A) : Op A := λ w, (r, w).

(** Left fold of a loop body in [Op]. *)
Fixpoint foldM {A B : Type} (f : B → A → Op B) (l : list A) (b : B) : Op B :=
  match l with
  | [] => ret b
  | x :: l' => do b' <- f b x; foldM f l' b'
  end.

(** [Array.prototype.some] and [filter] over a callback that may raise;
    [some] stops at the first element that passes. *)
Fixpoint someR {A : Type} (p : A → Result bool) (l : list A) : Result bool :=
  match l with
  | [] => Ok false
  | x :: l' =>
      match p x with
      | Ok true => Ok true
      | Ok false => someR p l'
      | Throw e => Throw e
      | OutOfFuel => OutOfFuel
      end
  end.

Fixpoint filterR {A : Type} (p : A → Result bool) (l : list A) : Result (list A) :=
  match l with
  | [] => Ok []
  | x :: l' =>
      match p x with
      | Ok b =>
          match filterR p l' with
          | Ok kept => Ok (if b then x :: kept else kept)
          | r => r
          end
      | Throw e => Throw e
      | OutOfFuel => OutOfFuel
      end
  end.

Definition notR (r : Result bool) : Result bool :=
  match r with Ok b => Ok (negb b) | r => r end.

(** ** The remote store client

    The backend client is no part of the repository.  Its answers are
    taken as they come: each network call may resolve, delivering the
    heap as it stands afterwards, or reject; a local array mutation may
    be refused.  An answer may depend on everything that happened
    before, the calls already made included. *)
Record RemoteStore : Type := mkStore {
  storeGet : World → string → string → option (Ref * Heap);
  storeCount : World → string → option Z;
  storeFind : World → string → Z → option (list Ref * Heap);
  storeSave : World → Ref → option (Ref * Heap);
  storeDestroy : World → Ref → option (Ref * Heap);
  storeAccepts : World → Ref → string → Val → bool
}.

(** ** Documents: local operations of the client

    The client library is not under the repository's sources.  Its
    operations on a document held in memory ([set], [unset], [get],
    [addUnique], [addAllUnique], [remove]) follow sections 4.2 and 6 of
    the specification: add-unique and remove are keyed by identifier. *)

Definition withAttributes (f : list (string * Val) → list (string * Val))
    (r : Ref) (h : Heap) : Heap :=
  let po := h !!! r in
  <[r := mkParseObject (className po) (objectId po) (f (attributes po))]> h.

(** Modelled from the spec: [new Parse.Object(classname)] of the client,
    a fresh untyped document tagged with the class name, without identifier. *)
Definition newParseObject (classname : string) : Op Ref :=
  λ w, let r := fresh (dom (heap w)) in
       (Ok r, mkWorld (<[r := mkParseObject classname None []]> (heap w))
                (console w) (network w)).

(** Modelled from the spec: [object.set(field, value)] of the client. *)
Definition parseSet (r : Ref) (k : string) (v : Val) : Op unit :=
  do h <- getHeap; setHeap (withAttributes (Props.set k v) r h).

(** Modelled from the spec: [object.unset(field)] of the client. *)
Definition parseUnset (r : Ref) (k : string) : Op unit :=
  do h <- getHeap; setHeap (withAttributes (Props.delete k) r h).

(** [a === b]; objects carried by value have no identity in the model. *)
Definition strictEq (a b : Val) : bool :=
  match a, b with
  | VUndefined, VUndefined | VNull, VNull => true
  | VBool x, VBool y => bool_decide (x = y)
  | VNum x, VNum y => bool_decide (x = y)
  | VStr x, VStr y => bool_decide (x = y)
  | VParseObj x, VParseObj y => bool_decide (x = y)
  | _, _ => false
  end.

(** Modelled from the spec: whether an array already holds [x] for the
    client's add-unique, that is the very value, or for a document one of
    the same class and identifier. *)
Definition holdsForAdd (h : Heap) (x : Val) (l : list Val) : bool :=
  existsb (λ e,
    strictEq e x
    || (instanceofParseObject e && instanceofParseObject x
        && bool_decide (classNameOf h e = classNameOf h x)
        && truthy (idOfDocument h x)
        && strictEq (idOfDocument h e) (idOfDocument h x))) l.

(** Modelled from the spec: whether the client's remove of [x] takes the
    element [e] away, that is the very value, or for a document with an
    identifier every document carrying it. *)
Definition takenByRemove (h : Heap) (x e : Val) : bool :=
  strictEq e x
  || (instanceofParseObject x && truthy (idOfDocument h x)
      && instanceofParseObject e
      && strictEq (idOfDocument h e) (idOfDocument h x)).

Definition addUniqueTo (h : Heap) (l : list Val) (x : Val) : list Val :=
  if holdsForAdd h x l then l else l ++ [x].

Section Client.

Variable store : RemoteStore.

(** Modelled from the spec: [object.addUnique(field, value)] of the client.
    [true] stands for the document itself, [false] for the refusal the
    caller tests for. *)
Definition parseAddUnique (r : Ref) (k : string) (x : Val) : Op bool :=
  λ w, if negb (storeAccepts store w r k x) then (Ok false, w)
       else
         let h := heap w in
         match Props.get k (attributes (h !!! r)) with
         | VArr l =>
             (Ok true, mkWorld (withAttributes (Props.set k (VArr (addUniqueTo h l x))) r h)
                         (console w) (network w))
         | VUndefined | VNull =>
             (Ok true, mkWorld (withAttributes (Props.set k (VArr [x])) r h)
                         (console w) (network w))
         | _ => (Throw (ThrownError "Cannot add elements to a non-array value"), w)
         end.

(** Modelled from the spec: [object.remove(field, value)] of the client. *)
Definition parseRemove (r : Ref) (k : string) (x : Val) : Op bool :=
  λ w, if negb (storeAccepts store w r k x) then (Ok false, w)
       else
         let h := heap w in
         match Props.get k (attributes (h !!! r)) with
         | VArr l =>
             (Ok true,
              mkWorld (withAttributes
                         (Props.set k (VArr (filter (λ e, takenByRemove h x e = false) l))) r h)
                (console w) (network w))
         | VUndefined | VNull =>
             (Ok true, mkWorld (withAttributes (Props.set k (VArr [])) r h)
                         (console w) (network w))
         | _ => (Throw (ThrownError "Cannot remove elements from a non-array value"), w)
         end.

(** Modelled from the spec: [object.addAllUnique(field, values)] of the
    client; the caller ignores what it returns. *)
Definition parseAddAllUnique (r : Ref) (k : string) (xs : list Val) : Op unit :=
  λ w, if negb (storeAccepts store w r k (VArr xs)) then (Ok tt, w)
       else
         let h := heap w in
         match Props.get k (attributes (h !!! r)) with
         | VArr l =>
             (Ok tt, mkWorld (withAttributes (Props.set k (VArr (foldl (addUniqueTo h) l xs))) r h)
                       (console w) (network w))
         | VUndefined | VNull =>
             (Ok tt, mkWorld (withAttributes (Props.set k (VArr (foldl (addUniqueTo h) [] xs))) r h)
                       (console w) (network w))
         | _ => (Throw (ThrownError "Cannot add elements to a non-array value"), w)
         end.

(** [query.includeAll().get(id).then(res => res, err => { console.error; undefined })] *)
Definition queryGet (classname id : string) : Op (option Ref) :=
  recordCall (NetGet classname id);;
  λ w, match storeGet store w classname id with
       | Some (r, h') => (Ok (Some r), mkWorld h' (console w) (network w))
       | None => (Ok None, mkWorld (heap w) (console w ++ ["Cannot download object"]) (network w))
       end.

(** [query.count().then(res => res, err => { console.error; console.warn;
    return this.queryLimit })] *)
Definition queryCount (classname : string) (queryLimit : Z) : Op Z :=
  recordCall (NetCount classname);;
  λ w, match storeCount store w classname with
       | Some n => (Ok n, w)
       | None =>
           (Ok queryLimit,
            mkWorld (heap w)
              (console w ++ ["Canno count available objects";
                             "Trying to download all the objects using the set default limit in the service"])
              (network w))
       end.

(** [query.limit(n).find().then(res => res, err => { console.error; return [] })] *)
Definition queryFind (classname : string) (limit : Z) : Op (list Val) :=
  recordCall (NetFind classname limit);;
  λ w, match storeFind store w classname limit with
       | Some (rows, h') => (Ok (VParseObj <$> rows), mkWorld h' (console w) (network w))
       | None =>
           (Ok [], mkWorld (heap w) (console w ++ ["Cannot download all the objects"])
                     (network w))
       end.

(** [parseObject.save()]: the saved document, or the rejection. *)
Definition objectSave (r : Ref) : Op (option Ref) :=
  recordCall (NetSave r);;
  λ w, match storeSave store w r with
       | Some (r', h') => (Ok (Some r'), mkWorld h' (console w) (network w))
       | None => (Ok None, w)
       end.

(** [parseObject.destroy()] *)
Definition objectDestroy (r : Ref) : Op (option Ref) :=
  recordCall (NetDestroy r);;
  λ w, match storeDestroy store w r with
       | Some (r', h') => (Ok (Some r'), mkWorld h' (console w) (network w))
       | None => (Ok None, w)
       end.

End Client.

(** ** Flattening: domain object to document *)

Definition mapTypescriptAttributeToParseObjectAttribute (attribute : Val) : Val :=
  if instanceofEntityObject attribute
     || (instanceofObject attribute && negb (isNullish (getProp attribute "entity")))
  then getProp attribute "entity"
  else if instanceofEntityFile attribute then getProp attribute "entity"
  else if instanceofParseObject attribute || instanceofParseFile attribute then attribute
  else attribute.

Definition checkIfIndexingIsNeeded (attribute : Val) : bool :=
  if instanceofEntityObject attribute
     || (instanceofObject attribute && negb (isNullish (getProp attribute "entity")))
  then true
  else if instanceofEntityFile attribute then true
  else if instanceofParseObject attribute || instanceofParseFile attribute then true
  else false.

(** [x.id]; reading a property of [null] or [undefined] raises. *)
Definition idOf (h : Heap) (x : Val) : Result Val :=
  match x with
  | VUndefined | VNull => Throw TypeError
  | _ => Ok (idOfDocument h x)
  end.

(** [y.id == x.id] *)
Definition sameId (h : Heap) (x y : Val) : Result bool :=
  match idOf h y with
  | Ok iy => match idOf h x with
             | Ok ix => Ok (looseEq iy ix)
             | Throw e => Throw e
             | OutOfFuel => OutOfFuel
             end
  | Throw e => Throw e
  | OutOfFuel => OutOfFuel
  end.

(** Line 499: [current.filter(x => !parseAttributes.some(y => y.id == x.id))] *)
Definition toRemove (h : Heap) (current parseAttributes : list Val) : Result (list Val) :=
  filterR (λ x, notR (someR (λ y, sameId h x y) parseAttributes)) current.

(** Line 501: [parseAttributes.filter(x => !current.some(y => y.id == x.id))] *)
Definition toAdd (h : Heap) (current parseAttributes : list Val) : Result (list Val) :=
  filterR (λ x, notR (someR (λ y, sameId h x y) current)) parseAttributes.

(** [value as Parse.Object[]] followed by a method of arrays. *)
Definition asArray (v : Val) : Result (list Val) :=
  match v with VArr l => Ok l | _ => Throw TypeError end.

(** [value as Parse.Object] followed by a method of documents. *)
Definition asParseObject (v : Val) : Op Ref :=
  match v with VParseObj r => ret r | _ => throw TypeError end.

(** State of the [for ... in] loop of [mappings]: the document, and the
    two lists of names kept for the old mapping. *)
Record MappingState : Type := mkMappingState {
  msParseObject : Ref;
  msEntityArrayProperties : list string;
  msEntityProperties : list string
}.

Section Service.

Variable appClassnames : string → option EntityObjectDefinition.
Variable store : RemoteStore.
(** [this.classname] *)
Variable classname : string.

(** Lines 503-510 and 511-518: apply the delta one element at a time. *)
Definition applyToAdd (property : string) (parseObject : Ref) (xs : list Val) : Op Ref :=
  foldM (λ parseObject x,
      do res <- parseAddUnique store parseObject property x;
      if (res : bool) then ret parseObject
      else throw (ThrownError "Error in adding element to array"))
    xs parseObject.

Definition applyToRemove (property : string) (parseObject : Ref) (xs : list Val) : Op Ref :=
  foldM (λ parseObject x,
      do res <- parseRemove store parseObject property x;
      if (res : bool) then ret parseObject
      else throw (ThrownError "Error in removing element from array"))
    xs parseObject.

(** Lines 495-528: how an array-valued property reaches the document. *)
Definition mappingsArray (property : string) (parseObject : Ref)
    (parseAttributes : list Val) : Op Ref :=
  if isReferenceArray (VArr parseAttributes) then
    do h <- getHeap;
    let current := parseGet h (VParseObj parseObject) property in
    if truthy current then
      do currentArray <- liftResult (asArray current);
      do removed <- liftResult (toRemove h currentArray parseAttributes);
      do added <- liftResult (toAdd h currentArray parseAttributes);
      do parseObject <- applyToAdd property parseObject added;
      applyToRemove property parseObject removed
    else
      parseAddAllUnique store parseObject property parseAttributes;;
      ret parseObject
  else
    parseSet parseObject property (VArr parseAttributes);;
    ret parseObject.

(** Body of the [for ... in] loop, lines 486-542. *)
Definition mappingsProperty (entityObject : Val) (st : MappingState)
    (property : string) : Op MappingState :=
  if decide (property = "entity") then ret st
  else
    let value := getProp entityObject property in
    do st <-
      (if negb (isNullish value) then
         match value with
         | VArr elems =>
             let parseAttributes := mapTypescriptAttributeToParseObjectAttribute <$> elems in
             do parseObject <- mappingsArray property (msParseObject st) parseAttributes;
             ret (mkMappingState parseObject
                    (if existsb checkIfIndexingIsNeeded elems
                     then msEntityArrayProperties st ++ [property]
                     else msEntityArrayProperties st)
                    (msEntityProperties st))
         | _ =>
             parseSet (msParseObject st) property
               (mapTypescriptAttributeToParseObjectAttribute value);;
             ret (mkMappingState (msParseObject st)
                    (msEntityArrayProperties st)
                    (if checkIfIndexingIsNeeded value
                     then msEntityProperties st ++ [property]
                     else msEntityProperties st))
         end
       else ret st);
    if isNullish value then parseUnset (msParseObject st) property;; ret st
    else ret st.

(** [for (property in entityObject)]: the own properties of an object. *)
Definition forIn (o : Val) : list string :=
  match o with
  | VObject _ fields => Props.keys fields
  | _ => []
  end.

Definition mappings (entityObject : Val) : Op Ref :=
  do parseObject <-
    (if negb (isNullish (getProp entityObject "entity"))
     then asParseObject (getProp entityObject "entity")
     else
       do parseObject <- newParseObject classname;
       parseSet parseObject "classname" (VStr classname);;
       ret parseObject);
  do st <- foldM (mappingsProperty entityObject) (forIn entityObject)
             (mkMappingState parseObject [] []);
  parseSet (msParseObject st) "entityArrayProperties"
    (VArr (VStr <$> msEntityArrayProperties st));;
  parseSet (msParseObject st) "entityProperties"
    (VArr (VStr <$> msEntityProperties st));;
  ret (msParseObject st).

(** ** Facade: save, destroy, single-object fetch *)

(** A hydration run inside an operation, on the heap as it stands.  The
    lines hydration prints for a class that is not registered or has no
    constructor (lines 709 and 721) are not recorded: [console] holds the
    lines of the facade only. *)
Definition hydrate (fuel : nat) (parseElement : Val) (deepLevel maxDeep : Z) : Op Val :=
  λ w, match mapParseAttributesToEntityObject appClassnames fuel (heap w)
               parseElement deepLevel maxDeep with
       | Some m => (Ok m, w)
       | None => (OutOfFuel, w)
       end.

(** [this.queryLimit] *)
Definition queryLimit : Z := 100000.

(** [getAll]: count, download, and hydrate the rows with the default
    arguments of the array form. *)
Definition getAll (fuel : nat) : Op (list Val) :=
  do numberOfStuffToDownload <- queryCount store classname queryLimit;
  do entityObjects <- queryFind store classname numberOfStuffToDownload;
  λ w, match mapParseArrayOfAttributesToEntityObject appClassnames fuel (heap w)
               entityObjects 0 defaultArrayMaxDeep with
       | Some ms => (Ok ms, w)
       | None => (OutOfFuel, w)
       end.

Definition save (entityObject : Val) : Op Val :=
  do parseObject <- mappings entityObject;
  do savedEntity <-
    (do res <- objectSave store parseObject;
     match res with
     | Some r => ret (Some r)
     | None => consoleError "Error in saving entity";; ret None
     end);
  match savedEntity with
  | None => ret entityObject
  | Some r => ret (setProp entityObject "entity" (VParseObj r))
  end.

Definition destroy (fuel : nat) (entityObject : Val) : Op Val :=
  if negb (truthy (getProp entityObject "entity")) then throw (ThrownString "Entity not found")
  else
    do entity <- asParseObject (getProp entityObject "entity");
    do res <- objectDestroy store entity;
    match res with
    | Some r => hydrate fuel (VParseObj r) 0 defaultMaxDeep
    | None =>
        consoleError "Error in deleting entity";;
        throw (ThrownError "Error in deleting entity")
    end.

(** [{ ...m }]: a plain copy of the own properties; nothing for [undefined]. *)
Definition spread (m : Val) : Val :=
  match m with
  | VObject _ fields => VObject PlainProto fields
  | _ => VObject PlainProto []
  end.

Definition getFullObjectById (fuel : nat) (id : string) : Op Val :=
  do res <- queryGet store classname id;
  match res with
  | None => throw (ThrownError "Error: Object not found.")
  | Some r =>
      do m <- hydrate fuel (VParseObj r) 0 3;
      ret (spread m)
  end.

(** [haystack.includes(needle)] *)
Fixpoint includes (haystack needle : string) : bool :=
  String.prefix needle haystack
  || match haystack with
     | EmptyString => false
     | String _ rest => includes rest needle
     end.

(** [(err as Error).message]; a thrown string has none. *)
Definition messageOf (err : Exn) : option string :=
  match err with
  | ThrownError message => Some message
  | TypeError => Some "TypeError"
  | ThrownString _ => None
  end.

Definition fetchObjectByIdIfNeeded (fuel : nat) (dataBuffer : option (gmap string Val))
    (id : string) : Op Val :=
  match dataBuffer with
  | None => getFullObjectById fuel id
  | Some buffer =>
      if decide (size buffer = 0%nat) then getFullObjectById fuel id
      else
        (* [returnValue = this.dataBuffer[id]] cannot raise *)
        let returnValue := default VUndefined (buffer !! id) in
        tryCatch
          (if negb (truthy returnValue) then getFullObjectById fuel id
           else ret returnValue)
          (λ _,
             tryCatch (getFullObjectById fuel id)
               (λ err,
                  match messageOf err with
                  | None => throw TypeError
                  | Some message =>
                      if includes message "Object not found." then ret VUndefined
                      else consoleError message;; ret returnValue
                  end))
  end.

End Service.

(** ** Live buffer: the handlers installed by [startupBuffer] *)

(** One call of [externalSubscription.emit]: the event, its payload, and
    the cache as a listener run by that call finds it. *)
Record Emission : Type := mkEmission {
  eventName : string;
  eventPayload : Val;
  bufferAtEmit : gmap string Val
}.

(** [this.dataBuffer] ([None] until a download assigned it) and what
    [this.externalSubscription] has emitted so far. *)
Record LiveBuffer : Type := mkLiveBuffer {
  dataBuffer : option (gmap string Val);
  externalSubscription : list Emission
}.

(** The events of a [Parse.LiveQuerySubscription]. *)
Inductive LiveQueryEvent : Type :=
  | EvOpen | EvCreate | EvUpdate | EvEnter | EvLeave | EvDelete.

Definition eventLabel (ev : LiveQueryEvent) : string :=
  match ev with
  | EvOpen => "open" | EvCreate => "create" | EvUpdate => "update"
  | EvEnter => "enter" | EvLeave => "leave" | EvDelete => "delete"
  end.

(** The key [this.dataBuffer[id]] addresses; identifiers are strings, and
    a missing one reads as the key ["undefined"]. *)
Definition propertyKey (id : Val) : string :=
  match id with VStr s => s | _ => "undefined" end.

Definition emit (event : string) (payload : Val) (buffer : gmap string Val)
    (s : LiveBuffer) : LiveBuffer :=
  mkLiveBuffer (dataBuffer s) (externalSubscription s ++ [mkEmission event payload buffer]).

Section LiveQuery.

Variable appClassnames : string → option EntityObjectDefinition.

(** [this.dataBuffer[updated.entity.id] = updated; emit(event, updated)] *)
Definition storeAndEmit (event : string) (h : Heap) (updated : Val) (s : LiveBuffer)
    : Result LiveBuffer :=
  match idOf h (getProp updated "entity") with
  | Ok id =>
      match dataBuffer s with
      | None => Throw TypeError
      | Some buffer =>
          let buffer' := <[propertyKey id := updated]> buffer in
          Ok (emit event updated buffer'
                (mkLiveBuffer (Some buffer') (externalSubscription s)))
      end
  | Throw e => Throw e
  | OutOfFuel => OutOfFuel
  end.

(** Handlers of ['create'] and ['enter'], lines 164-171 and 186-193. *)
Definition onInsert (event : string) (fuel : nat) (h : Heap) (object : Val)
    (s : LiveBuffer) : Result LiveBuffer :=
  match afterSubUpdate appClassnames fuel h object with
  | None => OutOfFuel
  | Some updated =>
      if negb (truthy updated) then Ok s
      else storeAndEmit event h updated s
  end.

(** Handler of ['update'], lines 172-185. *)
Definition onUpdate (fuel : nat) (h : Heap) (object : Val) (s : LiveBuffer)
    : Result LiveBuffer :=
  match dataBuffer s with
  | None => Ok s
  | Some _ =>
      match afterSubUpdate appClassnames fuel h object with
      | None => OutOfFuel
      | Some updated =>
          if negb (truthy updated) then Ok s
          else storeAndEmit "update" h updated s
      end
  end.

(** Handlers of ['leave'] and ['delete'], lines 195-207:
    [emit(event, this.dataBuffer[object.id]); delete this.dataBuffer[object.id]]. *)
Definition onRemove (event : string) (h : Heap) (object : Val) (s : LiveBuffer)
    : Result LiveBuffer :=
  match idOf h object with
  | Ok id =>
      match dataBuffer s with
      | None => Throw TypeError
      | Some buffer =>
          let key := propertyKey id in
          let s := emit event (default VUndefined (buffer !! key)) buffer s in
          Ok (mkLiveBuffer (Some (delete key buffer)) (externalSubscription s))
      end
  | Throw e => Throw e
  | OutOfFuel => OutOfFuel
  end.

(** What the subscription does with one event. *)
Definition onEvent (ev : LiveQueryEvent) (fuel : nat) (h : Heap) (object : Val)
    (s : LiveBuffer) : Result LiveBuffer :=
  match ev with
  | EvOpen => Ok s
  | EvCreate => onInsert "create" fuel h object s
  | EvEnter => onInsert "enter" fuel h object s
  | EvUpdate => onUpdate fuel h object s
  | EvLeave => onRemove "leave" h object s
  | EvDelete => onRemove "delete" h object s
  end.

(** Lines 148-152: the cache rebuilt from a download, keyed by identifier. *)
Fixpoint indexById (h : Heap) (rows : list Val) (buffer : gmap string Val)
    : Result (gmap string Val) :=
  match rows with
  | [] => Ok buffer
  | x :: rows' =>
      if isNullish x then Throw TypeError
      else
        match idOf h (getProp x "entity") with
        | Ok id => indexById h rows' (<[propertyKey id := x]> buffer)
        | Throw e => Throw e
        | OutOfFuel => OutOfFuel
        end
  end.

Definition populate (fuel : nat) (h : Heap) (res : list Val) (s : LiveBuffer)
    : Result LiveBuffer :=
  match afterBufferDownload appClassnames fuel h res with
  | None => OutOfFuel
  | Some unindexedBufferData =>
      match indexById h unindexedBufferData ∅ with
      | Ok buffer => Ok (mkLiveBuffer (Some buffer) (externalSubscription s))
      | Throw e => Throw e
      | OutOfFuel => OutOfFuel
      end
  end.

End LiveQuery.

(** ** Notions used to state the claims *)

(** The elements the diff is specified for: references to documents. *)
Definition isDocRef (v : Val) : bool :=
  match v with VParseObj _ => true | _ => false end.

(** Identifier of a referenced document. *)
Definition oid (h : Heap) (v : Val) : option string :=
  match v with VParseObj r => objectId (h !!! r) | _ => None end.

(** Two heaps that agree on the class and identifier of every document. *)
Definition sameDocs (h h' : Heap) : Prop :=
  ∀ r, className (h !!! r) = className (h' !!! r)
       ∧ objectId (h !!! r) = objectId (h' !!! r).

(** What the loop of lines 503-510 leaves in the array: every element of
    [xs] added unless the array holds it already. *)
Definition addAll (h : Heap) (l xs : list Val) : list Val :=
  foldl (addUniqueTo h) l xs.

(** What the loop of lines 511-518 leaves in the array. *)
Definition removeAll (h : Heap) (l xs : list Val) : list Val :=
  foldl (λ l x, filter (λ e, takenByRemove h x e = false) l) l xs.

(** An array with at least one element that needs indexing, and a single
    value that does: the two kinds of property the bookkeeping lists name. *)
Definition hasReferenceShapedElement (v : Val) : bool :=
  match v with VArr elems => existsb checkIfIndexingIsNeeded elems | _ => false end.

Definition isSingleReference (v : Val) : bool :=
  match v with VArr _ => false | _ => checkIfIndexingIsNeeded v end.

(** The names the two lists are to hold for a domain object, in the order
    of its properties; the handle is no field of the domain. *)
Definition entityArrayPropertiesOf (o : Val) : list string :=
  filter (λ k, k ≠ "entity" ∧ hasReferenceShapedElement (getProp o k) = true) (forIn o).

Definition entityPropertiesOf (o : Val) : list string :=
  filter (λ k, k ≠ "entity" ∧ isSingleReference (getProp o k) = true) (forIn o).

(** Scalar values of a domain object: booleans, numbers, strings, dates. *)
Definition isScalar (v : Val) : bool :=
  match v with
  | VBool _ | VNum _ | VStr _ | VDate _ => true
  | _ => false
  end.

(** [attr w p k]: attribute [k] of the document [p] in the world [w]. *)
Definition attr (w : World) (p : Ref) (k : string) : Val :=
  Props.get k (attributes (heap w !!! p)).

(** Scalars as a document stores them: the above, and [null]. *)
Definition isScalarOrNull (v : Val) : bool :=
  isScalar v || match v with VNull => true | _ => false end.

(** The round trip of one object without handle: [mappings] produces a
    document that was not there before, tagged with the class name of the
    service, and its hydration (default depths, enough fuel) gives back
    every field whose value [scalar] accepts and whose name [keep]
    retains. *)
Definition flattenThenHydrateRecovers
    (appClassnames : string → option EntityObjectDefinition) (store : RemoteStore)
    (classname : string) (scalar : Val → bool) (keep : string → Prop)
    (o : Val) (w : World) : Prop :=
  ∃ p w',
    mappings store classname o w = (Ok p, w')
    ∧ heap w !! p = None
    ∧ className (heap w' !!! p) = classname
    ∧ ∀ fuel, (4 ≤ fuel)%nat →
        ∃ m, mapParseAttributesToEntityObject appClassnames fuel (heap w')
               (VParseObj p) 0 defaultMaxDeep = Some m
             ∧ ∀ k, keep k → scalar (getProp o k) = true → getProp m k = getProp o k.

(** The names [mappings] reserves for its two lists. *)
Definition notBookkeeping (k : string) : Prop :=
  k ≠ "entityArrayProperties" ∧ k ≠ "entityProperties".

(** [w'] differs from [w] at most in the attribute [q] of the document [p]
    and in attributes of other documents; classes and identifiers stay. *)
Definition touches (p : Ref) (q : string) (w w' : World) : Prop :=
  sameDocs (heap w) (heap w') ∧ ∀ k, k ≠ q → attr w' p k = attr w p k.

(** ** A small application, for concrete runs *)

Module Example.

(** [class Task extends EntityObject { title; child; tags; ... }] *)
Definition Task : Ctor := mkCtor (EntityObjectProto "Task") [].

(** The application registers the one class ["Task"]. *)
Definition appClassnames (classname : string) : option EntityObjectDefinition :=
  if decide (classname = "Task") then Some (mkDefinition "Task" (Some Task)) else None.

Definition task (id : string) (attrs : list (string * Val)) : ParseObject :=
  mkParseObject "Task" (Some id) attrs.

(** A row whose [child] pointers lead three documents down. *)
Definition chainHeap : Heap :=
  <[1%positive := task "t0" [("title", VStr "row"); ("child", VParseObj 2)]]>
  (<[2%positive := task "t1" [("child", VParseObj 3)]]>
  (<[3%positive := task "t2" [("child", VParseObj 4)]]>
  (<[4%positive := task "t3" [("title", VStr "deep")]]> ∅))).


(** A store that rejects every network call and accepts local changes. *)
Definition rejectingStore : RemoteStore :=
  mkStore (λ _ _ _, None) (λ _ _, None) (λ _ _ _, None) (λ _ _, None) (λ _ _, None)
    (λ _ _ _ _, true).

(** A store that resolves [save] and [destroy] with the document itself. *)
Definition acceptingStore : RemoteStore :=
  mkStore (λ _ _ _, None) (λ _ _, None) (λ _ _ _, None)
    (λ w r, Some (r, heap w)) (λ w r, Some (r, heap w)) (λ _ _ _ _, true).

(** A store whose class ["Task"] holds the one row of [chainHeap]. *)
Definition chainStore : RemoteStore :=
  mkStore (λ _ _ _, None) (λ _ _, Some 1%Z) (λ w _ _, Some ([1%positive], heap w))
    (λ _ _, None) (λ _ _, None) (λ _ _ _ _, true).

Definition emptyWorld : World := mkWorld ∅ [] [].

(** A project whose [tags] point at two documents, and two more documents
    of which the third carries the identifier of the second. *)
Definition diffHeap : Heap :=
  <[1%positive := task "a" []]>
  (<[2%positive := task "b" []]>
  (<[3%positive := task "b" []]>
  (<[4%positive := task "c" []]>
  (<[5%positive := task "p" [("tags", VArr [VParseObj 1; VParseObj 2])]]> ∅)))).

End Example.


(** ** Further operations of the service *)

(** [delete o[k]]; as for [setProp], only objects carry properties. *)
Definition deleteProp (o : Val) (k : string) : Val :=
  match o with
  | VObject p fields => VObject p (Props.delete k fields)
  | _ => o
  end.

(** [updateAttributeOnSubscriptionUpdate], lines 223-226.  The write
    [object[attribute] = reference] raises on a nullish value and, the
    module being in strict mode, on a primitive one. *)
Definition updateAttributeOnSubscriptionUpdate (attribute : string) (object reference : Val)
    : Result Val :=
  match object with
  | VUndefined | VNull | VBool _ | VNum _ | VStr _ => Throw TypeError
  | _ => Ok (setProp object attribute reference)
  end.

(** [updateAttributeOnSubscriptionDelete], lines 227-230. *)
Definition updateAttributeOnSubscriptionDelete (attribute : string) (object : Val)
    : Result Val :=
  if isNullish object then Throw TypeError else Ok (deleteProp object attribute).

(** [x.entity.id]; raises when [x] or [x.entity] is nullish. *)
Definition entityIdOf (h : Heap) (x : Val) : Result Val :=
  if isNullish x then Throw TypeError else idOf h (getProp x "entity").

(** [x.entity.id == reference.entity.id], the left side read first. *)
Definition sameEntityId (h : Heap) (reference x : Val) : Result bool :=
  match entityIdOf h x with
  | Ok ix =>
      match entityIdOf h reference with
      | Ok ir => Ok (looseEq ix ir)
      | Throw e => Throw e
      | OutOfFuel => OutOfFuel
      end
  | Throw e => Throw e
  | OutOfFuel => OutOfFuel
  end.

(** [Array.prototype.findIndex] over a callback that may raise; [None] is [-1]. *)
Fixpoint findIndexR {A : Type} (p : A → Result bool) (l : list A) : Result (option nat) :=
  match l with
  | [] => Ok None
  | x :: l' =>
      match p x with
      | Ok true => Ok (Some 0%nat)
      | Ok false =>
          match findIndexR p l' with
          | Ok (Some i) => Ok (Some (S i))
          | r => r
          end
      | Throw e => Throw e
      | OutOfFuel => OutOfFuel
      end
  end.

(** [updateAttributeArrayOnSubscriptionUpdate], lines 231-246: the
    reference replaces the first element of its identifier, or is pushed.
    The warning printed for a missing array is not recorded. *)
Definition updateAttributeArrayOnSubscriptionUpdate (h : Heap) (attribute : string)
    (object reference : Val) : Result Val :=
  let arrayToUpdate := getProp object attribute in
  if isNullish object then Throw TypeError
  else if negb (truthy arrayToUpdate) then Ok object
  else
    match asArray arrayToUpdate with
    | Ok l =>
        match findIndexR (sameEntityId h reference) l with
        | Ok None => Ok (setProp object attribute (VArr (l ++ [reference])))
        | Ok (Some index) => Ok (setProp object attribute (VArr (<[index := reference]> l)))
        | Throw e => Throw e
        | OutOfFuel => OutOfFuel
        end
    | Throw e => Throw e
    | OutOfFuel => OutOfFuel
    end.

(** [updateAttributeArrayOnSubscriptionDelete], lines 247-257:
    [splice(index, 1)] at the first element of the identifier. *)
Definition updateAttributeArrayOnSubscriptionDelete (h : Heap) (attribute : string)
    (object reference : Val) : Result Val :=
  let arrayToUpdate := getProp object attribute in
  if isNullish object then Throw TypeError
  else if negb (truthy arrayToUpdate) then Ok object
  else
    match asArray arrayToUpdate with
    | Ok l =>
        match findIndexR (sameEntityId h reference) l with
        | Ok None => Ok (setProp object attribute (VArr l))
        | Ok (Some index) => Ok (setProp object attribute (VArr (delete index l)))
        | Throw e => Throw e
        | OutOfFuel => OutOfFuel
        end
    | Throw e => Throw e
    | OutOfFuel => OutOfFuel
    end.

(** [this.dataBuffer[updatedObject.entity.id] = updatedObject;
     if (this.externalSubscription) this.externalSubscription.emit('update', updatedObject)];
    [subscribed] tells whether [this.externalSubscription] has been assigned. *)
Definition storeThenEmitUpdate (subscribed : bool) (h : Heap) (updatedObject : Val)
    (s : LiveBuffer) : Result LiveBuffer :=
  match idOf h (getProp updatedObject "entity") with
  | Ok id =>
      match dataBuffer s with
      | None => Throw TypeError
      | Some buffer =>
          let buffer' := <[propertyKey id := updatedObject]> buffer in
          let s' := mkLiveBuffer (Some buffer') (externalSubscription s) in
          Ok (if subscribed then emit "update" updatedObject buffer' s' else s')
      end
  | Throw e => Throw e
  | OutOfFuel => OutOfFuel
  end.

(** Whether the handlers of lines 263-312 patch with the update or with
    the delete helper. *)
Definition removesReference (ev : LiveQueryEvent) : bool :=
  match ev with EvDelete | EvLeave => true | _ => false end.

(** The handlers [subscripeAttributeUpdate] registers on the stream of
    another class, lines 259-313.  [findObjectToUpdateCallback] is the
    caller's lookup, which may raise; no handler is registered for
    ['open']. *)
Definition subscripeAttributeUpdate
    (findObjectToUpdateCallback : string → Val → Result Val)
    (subscribed : bool) (attributeToSubscribe : string) (ev : LiveQueryEvent)
    (h : Heap) (object : Val) (s : LiveBuffer) : Result LiveBuffer :=
  match ev with
  | EvOpen => Ok s
  | _ =>
      match findObjectToUpdateCallback attributeToSubscribe object with
      | Ok updatedObject =>
          if negb (truthy updatedObject) then Ok s
          else
            match (if removesReference ev
                   then updateAttributeOnSubscriptionDelete attributeToSubscribe
                          updatedObject
                   else updateAttributeOnSubscriptionUpdate attributeToSubscribe
                          updatedObject object) with
            | Ok updatedObject => storeThenEmitUpdate subscribed h updatedObject s
            | Throw e => Throw e
            | OutOfFuel => OutOfFuel
            end
      | Throw e => Throw e
      | OutOfFuel => OutOfFuel
      end
  end.


(** [fetchObjectByIdLocally], lines 1078-1084. *)
Definition fetchObjectByIdLocally (dataBuffer : option (gmap string Val)) (id : Val) : Val :=
  match dataBuffer with
  | None => VUndefined
  | Some buffer => default VUndefined (buffer !! propertyKey id)
  end.

(** [fetchObjectLocally], lines 1085-1095; the warning is not recorded. *)
Definition fetchObjectLocally (h : Heap) (dataBuffer : option (gmap string Val))
    (entityObject : Val) : Val :=
  if negb (truthy entityObject) then VUndefined
  else if truthy (getProp entityObject "entity")
  then fetchObjectByIdLocally dataBuffer (idOfDocument h (getProp entityObject "entity"))
  else if truthy (idOfDocument h entityObject)
  then fetchObjectByIdLocally dataBuffer (idOfDocument h entityObject)
  else VUndefined.

(** [duplicate(entityObject)] with [duplicateAttributes = false], the
    default, lines 1183-1188: a spread copy without the handle; the
    instance constructed first is dropped at once. *)
Definition duplicate (entityObject : Val) : Val :=
  deleteProp (spread entityObject) "entity".

Section Existence.

(** [parseObject.exists()], whatever [parseObject] is: an operation of the
    client, taken as it comes. *)
Variable objectExists : Val → Op bool.

(** [checkExistence], lines 1281-1294. *)
Definition checkExistence (entityObject : Val) : Op bool :=
  if instanceofEntityObject entityObject
  then objectExists (getProp entityObject "entity")
  else if instanceofParseObject entityObject
  then objectExists entityObject
  else ret false.

End Existence.

(** ** Reasoning about operations

    [frames R Q c]: whatever [c] answers from a world [w], the world it
    leaves is related to [w] by [R], a value it returns satisfies [Q],
    and it is not cut short. *)
Definition frames {A : Type} (R : World → World → Prop) (Q : A → Prop) (c : Op A) : Prop :=
  ∀ w res w', c w = (res, w') →
    R w w' ∧ (∀ a, res = Ok a → Q a) ∧ res ≠ OutOfFuel.

(** What flattening into the document [p] may change: nothing on the
    console or the network, no other document, not the class or the
    identifier of any document, and no attribute of [p] that [keep] names. *)
Definition flattensInto (p : Ref) (keep : string → Prop) (w w' : World) : Prop :=
  console w' = console w
  ∧ network w' = network w
  ∧ sameDocs (heap w) (heap w')
  ∧ (∀ r, r ≠ p → heap w' !! r = heap w !! r)
  ∧ (∀ k, keep k → attr w' p k = attr w p k).

(** The document [mappings] works on: the handle of the object, or the
    one it is about to create. *)
Definition mappingsTarget (entityObject : Val) (w : World) : Ref :=
  match getProp entityObject "entity" with
  | VParseObj r => r
  | _ => fresh (dom (heap w))
  end.

(** What [mappings] leaves under the name of a field: nothing for a
    nullish value, the mapped elements for an array, the mapped value
    otherwise. *)
Definition flattened (v : Val) : Val :=
  if isNullish v then VUndefined
  else match v with
       | VArr elems => VArr (mapTypescriptAttributeToParseObjectAttribute <$> elems)
       | _ => mapTypescriptAttributeToParseObjectAttribute v
       end.

(** Fields [mappings] writes without consulting the document: all but the
    arrays that map to a reference array. *)
Definition writtenDirectly (v : Val) : bool :=
  match v with
  | VArr elems =>
      negb (isReferenceArray (VArr (mapTypescriptAttributeToParseObjectAttribute <$> elems)))
  | _ => true
  end.

(** ** Notions used to state the further properties *)

(** A row of a download: a document of a registered class that has a
    constructor, stored under the identifier [id]. *)
Definition isRowOf (appClassnames : string → option EntityObjectDefinition) (h : Heap)
    (row : Val) (id : string) : Prop :=
  ∃ r def type,
    row = VParseObj r
    ∧ Classnames appClassnames (className (h !!! r)) = Some (RefDefinition def)
    ∧ defType def = Some type
    ∧ objectId (h !!! r) = Some id.

(** A domain object whose [entity] is a document. *)
Definition carriesHandle (x : Val) : Prop := ∃ r, getProp x "entity" = VParseObj r.

(** The events whose handler hydrates the pushed document and caches it. *)
Definition cachesDocument (ev : LiveQueryEvent) : bool :=
  match ev with EvCreate | EvEnter | EvUpdate => true | _ => false end.

(** ** More concrete cases *)

Module Cases.

(** Two tasks that point at each other. *)
Definition cyclicHeap : Heap :=
  <[1%positive := Example.task "t0" [("title", VStr "a"); ("peer", VParseObj 2)]]>
  (<[2%positive := Example.task "t1" [("title", VStr "b"); ("peer", VParseObj 1)]]> ∅).

(** A task that points at itself. *)
Definition selfHeap : Heap :=
  <[1%positive := Example.task "t0" [("self", VParseObj 1)]]> ∅.

(** The first task of [cyclicHeap], hydrated with the default depths and
    with a maximum depth of one. *)
Definition hydratedRow : Val :=
  Eval vm_compute in
    default VUndefined
      (mapParseAttributesToEntityObject Example.appClassnames 4 cyclicHeap
         (VParseObj 1) 0 defaultMaxDeep).

Definition shallowRow : Val :=
  Eval vm_compute in
    default VUndefined
      (mapParseAttributesToEntityObject Example.appClassnames 2 cyclicHeap
         (VParseObj 1) 0 1).

(** A cache that has been assigned and is still empty. *)
Definition emptyBuffer : LiveBuffer := mkLiveBuffer (Some ∅) [].

(** A heap with a task and a document of a class the application does
    not register. *)
Definition strangerHeap : Heap :=
  <[1%positive := Example.task "t0" [("title", VStr "a")]]>
  (<[2%positive := mkParseObject "Note" (Some "n0") [("text", VStr "b")]]> ∅).

(** Three tasks, the third stored under the identifier of the second. *)
Definition twinsHeap : Heap :=
  <[1%positive := Example.task "a" []]>
  (<[2%positive := Example.task "b" []]>
  (<[3%positive := Example.task "b" []]> ∅)).

Definition taskObject (title : string) (r : Ref) : Val :=
  VObject (EntityObjectProto "Task") [("title", VStr title); ("entity", VParseObj r)].

(** A project that lists the first task. *)
Definition project : Val :=
  VObject (EntityObjectProto "Task")
    [("tasks", VArr [taskObject "one" 1]); ("entity", VParseObj 1)].

(** A project that lists the two tasks of one identifier. *)
Definition projectWithTwins : Val :=
  VObject (EntityObjectProto "Task")
    [("tasks", VArr [taskObject "one" 1; taskObject "two" 2; taskObject "three" 3]);
     ("entity", VParseObj 1)].

(** A store whose downloads resolve with the first document and whose
    other calls reject. *)
Definition findingStore : RemoteStore :=
  mkStore (λ w _ _, Some (1%positive, heap w)) (λ _ _, None)
    (λ w _ _, Some ([1%positive], heap w)) (λ _ _, None) (λ _ _, None) (λ _ _ _ _, true).

(** An [exists] that always answers yes. *)
Definition alwaysExists : Val → Op bool := λ _, ret true.

(** What a download by identifier of the first task of [cyclicHeap]
    returns. *)
Definition hydratedCopy : Val := Eval vm_compute in spread hydratedRow.






(** A task that was not saved yet, with a field that holds [null]. *)
Definition draft : Val :=
  VObject (EntityObjectProto "Task")
    [("title", VStr "X"); ("done", VBool false); ("note", VNull); ("owner", VParseObj 1)].

End Cases.
(** ** Property bags: laws *)

Lemma Props_get_set_eq k v l : Props.get k (Props.set k v l) = v.
Proof.
  induction l as [|[k' v'] l IH]; simpl.
  - by rewrite decide_True.
  - destruct (decide (k = k')) as [->|Hne]; simpl.
    + by rewrite decide_True.
    + by rewrite decide_False.
Qed.

Lemma Props_get_set_ne k k' v l : k ≠ k' → Props.get k (Props.set k' v l) = Props.get k l.
Proof.
  intros Hne. induction l as [|[k'' v''] l IH]; simpl.
  - by rewrite decide_False.
  - destruct (decide (k' = k'')) as [->|Hne']; simpl.
    + by rewrite !decide_False.
    + destruct (decide (k = k'')); done.
Qed.

Lemma Props_get_delete_eq k l : Props.get k (Props.delete k l) = VUndefined.
Proof.
  induction l as [|[k' v'] l IH]; simpl; [done|].
  destruct (decide (k = k')) as [->|Hne]; simpl; [done|].
  by rewrite decide_False.
Qed.

Lemma Props_get_delete_ne k k' l : k ≠ k' → Props.get k (Props.delete k' l) = Props.get k l.
Proof.
  intros Hne. induction l as [|[k'' v''] l IH]; simpl; [done|].
  destruct (decide (k' = k'')) as [->|Hne']; simpl.
  - by rewrite decide_False.
  - destruct (decide (k = k'')); done.
Qed.

Lemma Props_get_not_key k l : k ∉ Props.keys l → Props.get k l = VUndefined.
Proof.
  unfold Props.keys. rewrite elem_of_remove_dups.
  induction l as [|[k' v'] l IH]; simpl; [done|].
  intros Hk. destruct (decide (k = k')) as [->|Hne].
  - exfalso. apply Hk. left.
  - apply IH. intros Hin. apply Hk. by right.
Qed.

Lemma Props_keys_set k v l : ∀ k', k' ∈ Props.keys (Props.set k v l) ↔ k' = k ∨ k' ∈ Props.keys l.
Proof.
  intros k'. unfold Props.keys. rewrite !elem_of_remove_dups.
  induction l as [|[k'' v''] l IH]; simpl.
  - rewrite list_elem_of_singleton, elem_of_nil. tauto.
  - destruct (decide (k = k'')) as [->|Hne]; simpl.
    + rewrite !elem_of_cons. tauto.
    + rewrite !elem_of_cons, IH. tauto.
Qed.

Lemma getProp_setProp_eq p fs k v : getProp (setProp (VObject p fs) k v) k = v.
Proof. apply Props_get_set_eq. Qed.

Lemma getProp_setProp_ne o k k' v : k ≠ k' → getProp (setProp o k' v) k = getProp o k.
Proof. intros Hne. destruct o; simpl; try done. by apply Props_get_set_ne. Qed.

(** ** Hydration: the attribute loop *)

Lemma foldlM_hydrate_Some (g : string → option Val) ks m0 :
  Forall (λ k, is_Some (g k)) ks →
  is_Some (foldlM (λ m element, v ← g element; Some (setProp m element v)) ks m0).
Proof.
  revert m0. induction ks as [|k ks IH]; intros m0 Hall; cbn [foldlM]; [by eexists|].
  inversion Hall as [|? ? [v Hv] Hall']; subst.
  rewrite Hv. simpl. by apply IH.
Qed.

Lemma foldlM_hydrate_lookup (g : string → option Val) ks p fs m :
  foldlM (λ m element, v ← g element; Some (setProp m element v)) ks (VObject p fs) = Some m →
  (∃ fs', m = VObject p fs') ∧
  ∀ k, (k ∈ ks → g k = Some (getProp m k)) ∧
       (k ∉ ks → getProp m k = Props.get k fs).
Proof.
  revert fs. induction ks as [|x ks IH]; intros fs; cbn [foldlM].
  - intros [= <-]. split; [by eexists|]. intros k. split; [by intros ?%elem_of_nil|done].
  - destruct (g x) as [v|] eqn:Hx; simpl; [|done].
    intros Hm. destruct (IH _ Hm) as [Hshape Hk]. split; [done|].
    intros k. destruct (Hk k) as [Hin Hout]. split.
    + intros Hkin. destruct (decide (k ∈ ks)) as [|Hnot]; [by apply Hin|].
      apply elem_of_cons in Hkin as [-> | ?]; [|done].
      rewrite (Hout Hnot). by rewrite Props_get_set_eq.
    + intros Hnot. apply not_elem_of_cons in Hnot as [Hne Hnot].
      rewrite (Hout Hnot). by apply Props_get_set_ne.
Qed.

(** ** Hydration: unfolding, classification of attributes, termination *)

Lemma Props_get_is_key k l : Props.get k l ≠ VUndefined → k ∈ Props.keys l.
Proof.
  intros Hget. destruct (decide (k ∈ Props.keys l)) as [|Hnot]; [done|].
  by rewrite Props_get_not_key in Hget.
Qed.



Lemma hydrateAttribute_Some rec h a d M :
  (∀ v, is_Some (rec v (d + 1) M)) →
  (M ≠ d + 1 → ∀ v, is_Some (rec v (d + 1) defaultMaxDeep)) →
  is_Some (hydrateAttribute rec h a d M).
Proof.
  intros Hrec Hdef. unfold hydrateAttribute.
  destruct (instanceofParseFile a); [by eexists|].
  destruct (instanceofParseObject a); [apply Hrec|].
  destruct (isReferenceArray a).
  { apply fmap_is_Some. unfold mapArrayWith.
    destruct (decide (M ≠ d + 1)) as [Hne|]; [|by eexists].
    apply mapM_is_Some, Forall_forall. intros v _. by apply Hdef. }
  destruct (instanceofParseUser h a); [by eexists|].
  destruct (instanceofParseRole h a); [apply Hrec|by eexists].
Qed.

Section HydrateFacts.

Variable appClassnames : string → option EntityObjectDefinition.

Lemma Classnames_never_File c :
  Classnames appClassnames c ≠ Some (RefString "File").
Proof.
  unfold Classnames. repeat case_decide; try done.
  by destruct (appClassnames c).
Qed.

(** One unfolding of the hydration of a document of a registered class. *)
Lemma mapParseAttributesToEntityObject_registered fuel h r d M def type :
  Classnames appClassnames (className (h !!! r)) = Some (RefDefinition def) →
  defType def = Some type →
  mapParseAttributesToEntityObject appClassnames (S fuel) h (VParseObj r) d M =
    m ← (if decide (M ≠ d) then
           foldlM (λ m element,
               v ← hydrateAttribute
                     (mapParseAttributesToEntityObject appClassnames fuel h) h
                     (Props.get element (attributes (h !!! r))) d M;
               Some (setProp m element v))
             (Props.keys (attributes (h !!! r))) (construct type)
         else Some (construct type));
    Some (setProp m "entity" (VParseObj r)).
Proof. intros Hreg Htype. simpl. rewrite Hreg. simpl. by rewrite Htype. Qed.

(** With a maximum depth of at most the default 3, hydration from a
    depth below it returns, whatever the shape of the document graph. *)
Lemma mapParseAttributesToEntityObject_terminates fuel h v (d M : Z) :
  (d ≤ M)%Z → (M ≤ defaultMaxDeep)%Z → (defaultMaxDeep - d < Z.of_nat fuel)%Z →
  is_Some (mapParseAttributesToEntityObject appClassnames fuel h v d M).
Proof.
  unfold defaultMaxDeep.
  revert v d M. induction fuel as [|fuel IH]; intros v d M Hd HM Hfuel; [lia|].
  simpl. destruct (truthy v); simpl; [|by eexists].
  destruct (classNameOf h v ≫= Classnames appClassnames) as [[s|def]|];
    [repeat case_decide; by eexists| |by eexists].
  destruct (defType def) as [type|]; [|by eexists].
  destruct (decide (M ≠ d)) as [Hne|]; simpl; [|by eexists].
  match goal with |- is_Some (?x ≫= _) => assert (is_Some x) as [m ->] end;
    [|by eexists].
  apply foldlM_hydrate_Some, Forall_forall. intros k _.
  apply hydrateAttribute_Some.
  - intros v'. apply IH; lia.
  - intros Hne' v'. apply IH; unfold defaultMaxDeep; lia.
Qed.

(** A bulk call never hands its own maximum depth to the rows. *)
Lemma mapParseArrayOfAttributesToEntityObject_rows fuel h rows d M :
  M ≠ d →
  mapParseArrayOfAttributesToEntityObject appClassnames fuel h rows d M =
    mapM (λ row, mapParseAttributesToEntityObject appClassnames fuel h row d defaultMaxDeep) rows.
Proof.
  intros Hne. unfold mapParseArrayOfAttributesToEntityObject, mapArrayWith.
  by rewrite decide_True.
Qed.

End HydrateFacts.

(** ** Claims on hydration *)




(** C1.  The populate path, and likewise [getAll], hydrates a row whose
    [child] pointers lead three documents down.  The document reached at
    recursion depth 2 (the third of the chain) still has its [child]
    attribute converted into a domain object: the rows are hydrated with
    the default maximum depth 3 of the single-object form, not with the 2
    the bulk call was given. *)
Theorem afterBufferDownload_converts_at_depth_2 :
  ∃ row,
    afterBufferDownload Example.appClassnames 4 Example.chainHeap [VParseObj 1] = Some [row]
    ∧ fst (getAll Example.appClassnames Example.chainStore "Task" 4
             (mkWorld Example.chainHeap [] [])) = Ok [row]
    ∧ getProp (getProp (getProp row "child") "child") "entity" = VParseObj 3
    ∧ getProp (getProp (getProp row "child") "child") "child"
      = VObject (EntityObjectProto "Task") [("entity", VParseObj 4)].
Proof.
  eexists. split; [vm_compute; reflexivity|]. split; [vm_compute; reflexivity|].
  split; reflexivity.
Qed.

(** ** Claims on the live buffer *)

(** C5. While the buffer is live, a leave or delete event whose
    identifier is cached emits the event with the value cached until then,
    the listeners still finding the identifier in the cache, and
    afterwards the cache no longer holds the identifier and is one entry
    smaller. *)
Theorem leave_or_delete_emits_prior_value_then_removes
    (appClassnames : string → option EntityObjectDefinition)
    (ev : LiveQueryEvent) (fuel : nat) (h : Heap) (r : Ref) (id : string)
    (s : LiveBuffer) (buffer : gmap string Val) (cached : Val) :
  ev = EvLeave ∨ ev = EvDelete →
  dataBuffer s = Some buffer →
  objectId (h !!! r) = Some id →
  buffer !! id = Some cached →
  ∃ s' buffer',
    onEvent appClassnames ev fuel h (VParseObj r) s = Ok s'
    ∧ externalSubscription s'
      = (externalSubscription s ++ [mkEmission (eventLabel ev) cached buffer])%list
    ∧ dataBuffer s' = Some buffer'
    ∧ buffer' !! id = None
    ∧ size buffer = S (size buffer').
Proof.
  intros Hev Hlive Hid Hcached.
  exists (mkLiveBuffer (Some (delete id buffer))
            (externalSubscription s ++ [mkEmission (eventLabel ev) cached buffer])),
         (delete id buffer).
  split; [|split; [done|split; [done|split]]].
  - destruct Hev as [-> | ->]; simpl; unfold onRemove; simpl;
      rewrite Hid, Hlive; simpl; by rewrite Hcached.
  - apply lookup_delete_eq.
  - rewrite <- (insert_delete_id buffer id cached Hcached) at 1.
    rewrite map_size_insert_None; [done|]. apply lookup_delete_eq.
Qed.

Lemma leave_or_delete_emits_prior_value_then_removes_witness :
  ∃ s' buffer',
    onEvent Example.appClassnames EvLeave 0 Example.chainHeap (VParseObj 1)
      (mkLiveBuffer (Some {[ "t0" := VObject PlainProto [("title", VStr "Y")] ]}) []) = Ok s'
    ∧ externalSubscription s'
      = ([] ++ [mkEmission "leave" (VObject PlainProto [("title", VStr "Y")])
                  {[ "t0" := VObject PlainProto [("title", VStr "Y")] ]}])%list
    ∧ dataBuffer s' = Some buffer'
    ∧ buffer' !! "t0" = None
    ∧ size ({[ "t0" := VObject PlainProto [("title", VStr "Y")] ]} : gmap string Val)
      = S (size buffer').
Proof.
  apply (leave_or_delete_emits_prior_value_then_removes
           Example.appClassnames EvLeave 0 Example.chainHeap 1%positive "t0"
           (mkLiveBuffer (Some {[ "t0" := VObject PlainProto [("title", VStr "Y")] ]}) [])
           {[ "t0" := VObject PlainProto [("title", VStr "Y")] ]}
           (VObject PlainProto [("title", VStr "Y")])).
  - by left.
  - reflexivity.
  - reflexivity.
  - reflexivity.
Defined.

(** C10. While the buffer is live, a leave or delete event whose
    identifier is not cached still emits the event, with [undefined] as
    payload, and leaves the cache as it was. *)
Theorem leave_or_delete_of_uncached_id_emits_undefined
    (appClassnames : string → option EntityObjectDefinition)
    (ev : LiveQueryEvent) (fuel : nat) (h : Heap) (r : Ref) (id : string)
    (s : LiveBuffer) (buffer : gmap string Val) :
  ev = EvLeave ∨ ev = EvDelete →
  dataBuffer s = Some buffer →
  objectId (h !!! r) = Some id →
  buffer !! id = None →
  onEvent appClassnames ev fuel h (VParseObj r) s
  = Ok (mkLiveBuffer (Some buffer)
          (externalSubscription s ++ [mkEmission (eventLabel ev) VUndefined buffer])%list).
Proof.
  intros Hev Hlive Hid Hnone.
  destruct Hev as [-> | ->]; simpl; unfold onRemove; simpl;
    rewrite Hid, Hlive; simpl; rewrite Hnone; simpl;
    by rewrite (delete_id buffer id Hnone).
Qed.

Lemma leave_or_delete_of_uncached_id_emits_undefined_witness :
  onEvent Example.appClassnames EvDelete 0 Example.chainHeap (VParseObj 2)
    (mkLiveBuffer (Some {[ "t0" := VObject PlainProto [("title", VStr "Y")] ]}) [])
  = Ok (mkLiveBuffer (Some {[ "t0" := VObject PlainProto [("title", VStr "Y")] ]})
          ([] ++ [mkEmission "delete" VUndefined
                    {[ "t0" := VObject PlainProto [("title", VStr "Y")] ]}])%list).
Proof.
  apply (leave_or_delete_of_uncached_id_emits_undefined
           Example.appClassnames EvDelete 0 Example.chainHeap 2%positive "t1").
  - by right.
  - reflexivity.
  - reflexivity.
  - reflexivity.
Defined.

(** ** Claims on the facade *)

(** C7. [destroy] on an object without handle raises at once and leaves
    the world as it was, so no store operation is issued; when the object
    has a handle and the store rejects the deletion, [destroy] logs and
    raises again. *)
Theorem destroy_raises_without_handle_and_on_rejection
    (appClassnames : string → option EntityObjectDefinition) (store : RemoteStore)
    (fuel : nat) (entityObject : Val) (w : World) :
  (truthy (getProp entityObject "entity") = false →
     destroy appClassnames store fuel entityObject w
     = (Throw (ThrownString "Entity not found"), w)) ∧
  (∀ r, getProp entityObject "entity" = VParseObj r →
     storeDestroy store (mkWorld (heap w) (console w) (network w ++ [NetDestroy r])) r = None →
     destroy appClassnames store fuel entityObject w
     = (Throw (ThrownError "Error in deleting entity"),
        mkWorld (heap w) (console w ++ ["Error in deleting entity"])
          (network w ++ [NetDestroy r]))).
Proof.
  split.
  - intros Hnone. unfold destroy. by rewrite Hnone.
  - intros r Hentity Hreject. unfold destroy. rewrite Hentity. simpl.
    unfold bind, objectDestroy, bind, recordCall. simpl. by rewrite Hreject.
Qed.

Lemma destroy_raises_without_handle_and_on_rejection_witness :
  destroy Example.appClassnames Example.rejectingStore 4
    (VObject (EntityObjectProto "Task") [("title", VStr "X")]) Example.emptyWorld
  = (Throw (ThrownString "Entity not found"), Example.emptyWorld)
  ∧ destroy Example.appClassnames Example.rejectingStore 4
      (VObject (EntityObjectProto "Task") [("title", VStr "X"); ("entity", VParseObj 1)])
      (mkWorld Example.chainHeap [] [])
    = (Throw (ThrownError "Error in deleting entity"),
       mkWorld Example.chainHeap ([] ++ ["Error in deleting entity"])
         ([] ++ [NetDestroy 1])).
Proof.
  split.
  - apply (destroy_raises_without_handle_and_on_rejection
             Example.appClassnames Example.rejectingStore 4
             (VObject (EntityObjectProto "Task") [("title", VStr "X")])
             Example.emptyWorld).
    reflexivity.
  - apply (destroy_raises_without_handle_and_on_rejection
             Example.appClassnames Example.rejectingStore 4
             (VObject (EntityObjectProto "Task")
                [("title", VStr "X"); ("entity", VParseObj 1)])
             (mkWorld Example.chainHeap [] [])); reflexivity.
Defined.

(** C4. When flattening has produced the document and the store rejects
    its [save], [save] does not raise: it logs the failure and returns the
    object it was given, handle field included, so no handle is attached. *)
Theorem save_swallows_rejection
    (store : RemoteStore) (classname : string)
    (entityObject : Val) (w w1 : World) (parseObject : Ref) :
  mappings store classname entityObject w = (Ok parseObject, w1) →
  storeSave store (mkWorld (heap w1) (console w1) (network w1 ++ [NetSave parseObject]))
    parseObject = None →
  save store classname entityObject w
  = (Ok entityObject,
     mkWorld (heap w1) (console w1 ++ ["Error in saving entity"])
       (network w1 ++ [NetSave parseObject])).
Proof.
  intros Hmap Hreject. unfold save.
  unfold bind at 1. rewrite Hmap.
  unfold bind, objectSave, bind, recordCall. simpl. by rewrite Hreject.
Qed.

Lemma save_swallows_rejection_witness :
  ∃ w',
    save Example.rejectingStore "Task"
      (VObject (EntityObjectProto "Task") [("title", VStr "X")]) Example.emptyWorld
    = (Ok (VObject (EntityObjectProto "Task") [("title", VStr "X")]), w')
    ∧ console w' = ["Error in saving entity"].
Proof.
  eexists. split.
  - eapply (save_swallows_rejection Example.rejectingStore "Task"
              (VObject (EntityObjectProto "Task") [("title", VStr "X")])
              Example.emptyWorld).
    + vm_compute. reflexivity.
    + reflexivity.
  - reflexivity.
Defined.

(** The other branch of [save]: a document the store saved becomes the
    handle of the object. *)
Lemma save_attaches_returned_handle
    (store : RemoteStore) (classname : string)
    (entityObject : Val) (w w1 : World) (parseObject saved : Ref) (h' : Heap) :
  mappings store classname entityObject w = (Ok parseObject, w1) →
  storeSave store (mkWorld (heap w1) (console w1) (network w1 ++ [NetSave parseObject]))
    parseObject = Some (saved, h') →
  save store classname entityObject w
  = (Ok (setProp entityObject "entity" (VParseObj saved)),
     mkWorld h' (console w1) (network w1 ++ [NetSave parseObject])).
Proof.
  intros Hmap Hsaved. unfold save.
  unfold bind at 1. rewrite Hmap.
  unfold bind, objectSave, bind, recordCall. simpl. by rewrite Hsaved.
Qed.

Example save_new_task_gains_handle :
  fst (save Example.acceptingStore "Task"
         (VObject (EntityObjectProto "Task") [("title", VStr "X")]) Example.emptyWorld)
  = Ok (VObject (EntityObjectProto "Task") [("title", VStr "X"); ("entity", VParseObj 1)]).
Proof. reflexivity. Qed.

(** A rejected download makes the single-object fetch raise "not found". *)
Lemma getFullObjectById_rejected
    (appClassnames : string → option EntityObjectDefinition) (store : RemoteStore)
    (classname : string) (fuel : nat) (id : string) (w : World) :
  storeGet store (mkWorld (heap w) (console w) (network w ++ [NetGet classname id]))
    classname id = None →
  getFullObjectById appClassnames store classname fuel id w
  = (Throw (ThrownError "Error: Object not found."),
     mkWorld (heap w) (console w ++ ["Cannot download object"])
       (network w ++ [NetGet classname id])).
Proof.
  intros Hreject. unfold getFullObjectById, bind, queryGet, bind, recordCall. simpl.
  by rewrite Hreject.
Qed.

(** A cached identifier is served from the cache; the world, and with it
    the list of network calls, stays as it was. *)
Lemma fetchObjectByIdIfNeeded_cached
    (appClassnames : string → option EntityObjectDefinition) (store : RemoteStore)
    (classname : string) (fuel : nat) (buffer : gmap string Val) (id : string)
    (cached : Val) (w : World) :
  buffer !! id = Some cached →
  truthy cached = true →
  fetchObjectByIdIfNeeded appClassnames store classname fuel (Some buffer) id w
  = (Ok cached, w).
Proof.
  intros Hcached Htruthy. unfold fetchObjectByIdIfNeeded.
  destruct (decide (size buffer = 0%nat)) as [Hempty|_].
  { apply map_size_empty_iff in Hempty. subst. by rewrite lookup_empty in Hcached. }
  unfold tryCatch. rewrite Hcached. simpl. by rewrite Htruthy.
Qed.

(** With a cache that is not empty, an identifier it does not hold is
    fetched, fetched again when that fails, and a second "not found"
    becomes [undefined]. *)
Lemma fetchObjectByIdIfNeeded_uncached_not_found
    (appClassnames : string → option EntityObjectDefinition) (store : RemoteStore)
    (classname : string) (fuel : nat) (buffer : gmap string Val) (id : string)
    (w : World) :
  size buffer ≠ 0%nat →
  buffer !! id = None →
  (∀ w', storeGet store w' classname id = None) →
  fetchObjectByIdIfNeeded appClassnames store classname fuel (Some buffer) id w
  = (Ok VUndefined,
     mkWorld (heap w)
       (console w ++ ["Cannot download object"] ++ ["Cannot download object"])
       (network w ++ [NetGet classname id] ++ [NetGet classname id])).
Proof.
  intros Hsize Hnone Hreject. unfold fetchObjectByIdIfNeeded.
  rewrite decide_False by done. rewrite Hnone. simpl.
  unfold tryCatch.
  rewrite (getFullObjectById_rejected _ _ _ _ _ _ (Hreject _)).
  rewrite (getFullObjectById_rejected _ _ _ _ _ _ (Hreject _)).
  simpl. unfold ret. by rewrite <- !app_assoc.
Qed.

(** With an empty cache, or none yet, the fetch is made outside the
    [try]: a "not found" failure leaves the function as it is. *)
Lemma fetchObjectByIdIfNeeded_empty_cache_not_found
    (appClassnames : string → option EntityObjectDefinition) (store : RemoteStore)
    (classname : string) (fuel : nat) (dataBuffer : option (gmap string Val))
    (id : string) (w : World) :
  dataBuffer = None ∨ dataBuffer = Some ∅ →
  storeGet store (mkWorld (heap w) (console w) (network w ++ [NetGet classname id]))
    classname id = None →
  fetchObjectByIdIfNeeded appClassnames store classname fuel dataBuffer id w
  = (Throw (ThrownError "Error: Object not found."),
     mkWorld (heap w) (console w ++ ["Cannot download object"])
       (network w ++ [NetGet classname id])).
Proof.
  intros [-> | ->] Hreject; unfold fetchObjectByIdIfNeeded.
  - by apply getFullObjectById_rejected.
  - rewrite decide_True by apply map_size_empty. by apply getFullObjectById_rejected.
Qed.

(** C2.  With an empty cache and with no cache yet, an identifier the
    store does not find makes [fetchObjectByIdIfNeeded] raise the "not
    found" error, where the claim has it return [undefined]. *)
Theorem fetchObjectByIdIfNeeded_empty_cache_raises :
  fetchObjectByIdIfNeeded Example.appClassnames Example.rejectingStore "Task" 4
    (Some ∅) "abc123" Example.emptyWorld
  = (Throw (ThrownError "Error: Object not found."),
     mkWorld ∅ ["Cannot download object"] [NetGet "Task" "abc123"])
  ∧ fetchObjectByIdIfNeeded Example.appClassnames Example.rejectingStore "Task" 4
      None "abc123" Example.emptyWorld
    = (Throw (ThrownError "Error: Object not found."),
       mkWorld ∅ ["Cannot download object"] [NetGet "Task" "abc123"]).
Proof. split; reflexivity. Qed.

(** ** The reference-array diff *)

Lemma sameDocs_refl h : sameDocs h h.
Proof. by intros r. Qed.

Lemma sameDocs_trans h1 h2 h3 : sameDocs h1 h2 → sameDocs h2 h3 → sameDocs h1 h3.
Proof.
  intros H12 H23 r. destruct (H12 r) as [-> ->]. apply H23.
Qed.

Lemma withAttributes_lookup f r h r' :
  withAttributes f r h !!! r' =
    if decide (r = r')
    then mkParseObject (className (h !!! r)) (objectId (h !!! r)) (f (attributes (h !!! r)))
    else h !!! r'.
Proof.
  unfold withAttributes. destruct (decide (r = r')) as [<-|Hne].
  - by rewrite lookup_total_insert_eq.
  - by rewrite lookup_total_insert_ne.
Qed.

Lemma withAttributes_sameDocs f r h : sameDocs h (withAttributes f r h).
Proof.
  intros r'. rewrite withAttributes_lookup. by destruct (decide (r = r')) as [<-|].
Qed.

Lemma withAttributes_get f r h :
  attributes (withAttributes f r h !!! r) = f (attributes (h !!! r)).
Proof. rewrite withAttributes_lookup. by rewrite decide_True. Qed.

Lemma idOfDocument_sameDocs h h' v : sameDocs h h' → idOfDocument h v = idOfDocument h' v.
Proof. intros Hs. destruct v; simpl; try done. by destruct (Hs r) as [_ ->]. Qed.

Lemma classNameOf_sameDocs h h' v : sameDocs h h' → classNameOf h v = classNameOf h' v.
Proof. intros Hs. destruct v; simpl; try done. by destruct (Hs r) as [-> _]. Qed.

Lemma oid_sameDocs h h' v : sameDocs h h' → oid h v = oid h' v.
Proof. intros Hs. destruct v; simpl; try done. by destruct (Hs r) as [_ ->]. Qed.

Lemma idOfDocument_doc h v : isDocRef v = true → idOfDocument h v = idVal (oid h v).
Proof. by destruct v. Qed.

Lemma looseEq_idVal a b : looseEq (idVal a) (idVal b) = bool_decide (a = b).
Proof.
  destruct a as [a|], b as [b|]; simpl; try done.
  apply bool_decide_ext. split; [by intros ->|by intros [= ->]].
Qed.

Lemma strictEq_idVal a b : strictEq (idVal a) (idVal b) = true → a = b.
Proof.
  destruct a as [a|], b as [b|]; simpl; try done.
  intros ?%bool_decide_eq_true. by subst.
Qed.

Lemma sameId_docs h x y :
  isDocRef x = true → isDocRef y = true →
  sameId h x y = Ok (bool_decide (oid h y = oid h x)).
Proof.
  intros Hx Hy. destruct x; try done. destruct y; try done.
  unfold sameId. simpl. by rewrite looseEq_idVal.
Qed.

Lemma someR_sameId_docs h x l :
  isDocRef x = true → Forall (λ y, isDocRef y = true) l →
  someR (λ y, sameId h x y) l = Ok (bool_decide (Exists (λ y, oid h y = oid h x) l)).
Proof.
  intros Hx. induction 1 as [|y l Hy Hl IH]; cbn [someR].
  - done.
  - rewrite (sameId_docs _ _ _ Hx Hy).
    destruct (decide (oid h y = oid h x)) as [Heq|Hne].
    + rewrite (bool_decide_eq_true_2 _ Heq). f_equal. symmetry.
      apply bool_decide_eq_true. by left.
    + rewrite (bool_decide_eq_false_2 _ Hne), IH. f_equal.
      apply bool_decide_ext. rewrite Exists_cons. tauto.
Qed.

Lemma filterR_Ok {A : Type} (p : A → Result bool) (q : A → bool) (l : list A) :
  Forall (λ x, p x = Ok (q x)) l →
  filterR p l = Ok (filter (λ x, q x = true) l).
Proof.
  induction 1 as [|x l Hx Hl IH]; simpl; [done|].
  rewrite Hx, IH. rewrite filter_cons. by destruct (q x).
Qed.

(** On references, the two filters of lines 499 and 501 keep exactly the
    elements whose identifier the other array lacks. *)
Lemma toAdd_docs h current desired :
  Forall (λ y, isDocRef y = true) current →
  Forall (λ y, isDocRef y = true) desired →
  toAdd h current desired
  = Ok (filter (λ x, ¬ Exists (λ y, oid h y = oid h x) current) desired).
Proof.
  intros Hcur Hdes. unfold toAdd.
  rewrite (filterR_Ok _ (λ x, negb (bool_decide (Exists (λ y, oid h y = oid h x) current)))).
  - f_equal. apply list_filter_iff. intros x.
    rewrite negb_true_iff, bool_decide_eq_false. done.
  - eapply Forall_impl; [exact Hdes|]. intros x Hx. simpl.
    by rewrite (someR_sameId_docs _ _ _ Hx Hcur).
Qed.

Lemma toRemove_docs h current desired :
  Forall (λ y, isDocRef y = true) current →
  Forall (λ y, isDocRef y = true) desired →
  toRemove h current desired
  = Ok (filter (λ x, ¬ Exists (λ y, oid h y = oid h x) desired) current).
Proof.
  intros Hcur Hdes. unfold toRemove.
  rewrite (filterR_Ok _ (λ x, negb (bool_decide (Exists (λ y, oid h y = oid h x) desired)))).
  - f_equal. apply list_filter_iff. intros x.
    rewrite negb_true_iff, bool_decide_eq_false. done.
  - eapply Forall_impl; [exact Hcur|]. intros x Hx. simpl.
    by rewrite (someR_sameId_docs _ _ _ Hx Hdes).
Qed.

Lemma holdsForAdd_sameDocs h h' x l :
  sameDocs h h' → holdsForAdd h x l = holdsForAdd h' x l.
Proof.
  intros Hs. unfold holdsForAdd. induction l as [|e l IH]; simpl; [done|].
  rewrite IH.
  by rewrite !(idOfDocument_sameDocs h h' _ Hs), !(classNameOf_sameDocs h h' _ Hs).
Qed.

Lemma takenByRemove_sameDocs h h' x e :
  sameDocs h h' → takenByRemove h x e = takenByRemove h' x e.
Proof.
  intros Hs. unfold takenByRemove.
  by rewrite !(idOfDocument_sameDocs h h' _ Hs).
Qed.

Lemma addAll_sameDocs h h' l xs : sameDocs h h' → addAll h l xs = addAll h' l xs.
Proof.
  intros Hs. unfold addAll. revert l. induction xs as [|x xs IH]; intros l; simpl; [done|].
  unfold addUniqueTo at 2 4. rewrite (holdsForAdd_sameDocs h h' _ _ Hs). apply IH.
Qed.

Lemma removeAll_sameDocs h h' l xs : sameDocs h h' → removeAll h l xs = removeAll h' l xs.
Proof.
  intros Hs. unfold removeAll. revert l. induction xs as [|x xs IH]; intros l; simpl; [done|].
  rewrite IH. f_equal. apply list_filter_iff. intros e.
  by rewrite (takenByRemove_sameDocs h h' _ _ Hs).
Qed.

Lemma strictEq_docs x y : isDocRef x = true → strictEq y x = true → y = x.
Proof.
  destruct x; try done. destruct y; try done. simpl.
  intros _ ?%bool_decide_eq_true. by subst.
Qed.

Lemma takenByRemove_docs h x e :
  isDocRef x = true → isDocRef e = true →
  takenByRemove h x e = true → oid h e = oid h x.
Proof.
  intros Hx He. unfold takenByRemove.
  rewrite orb_true_iff, !andb_true_iff. intros [Hsame | [_ Hid]].
  - by rewrite (strictEq_docs _ _ Hx Hsame).
  - rewrite (idOfDocument_doc _ _ Hx), (idOfDocument_doc _ _ He) in Hid.
    by apply strictEq_idVal.
Qed.

Lemma takenByRemove_self h x : isDocRef x = true → takenByRemove h x x = true.
Proof.
  destruct x; try done. intros _. unfold takenByRemove. simpl.
  by rewrite bool_decide_eq_true_2.
Qed.

Lemma holdsForAdd_docs h x l :
  isDocRef x = true → Forall (λ y, isDocRef y = true) l →
  holdsForAdd h x l = true → Exists (λ e, oid h e = oid h x) l.
Proof.
  intros Hx Hl. unfold holdsForAdd. rewrite existsb_exists.
  intros (e & Hin & He). apply Exists_exists. exists e.
  split; [by apply list_elem_of_In|].
  assert (isDocRef e = true) as Hdoc.
  { rewrite Forall_forall in Hl. apply Hl. by apply list_elem_of_In. }
  revert He. rewrite orb_true_iff, !andb_true_iff. intros [Hsame | [_ Hid]].
  - by rewrite (strictEq_docs _ _ Hx Hsame).
  - rewrite (idOfDocument_doc _ _ Hx), (idOfDocument_doc _ _ Hdoc) in Hid.
    by apply strictEq_idVal.
Qed.

Lemma addUniqueTo_elem h l x e : e ∈ addUniqueTo h l x → e ∈ l ∨ e = x.
Proof.
  unfold addUniqueTo. destruct (holdsForAdd h x l); [by left|].
  rewrite elem_of_app, list_elem_of_singleton. tauto.
Qed.

Lemma addUniqueTo_keeps h l x e : e ∈ l → e ∈ addUniqueTo h l x.
Proof.
  unfold addUniqueTo. destruct (holdsForAdd h x l); [done|].
  rewrite elem_of_app. tauto.
Qed.

Lemma addAll_elem h l xs e : e ∈ addAll h l xs → e ∈ l ∨ e ∈ xs.
Proof.
  unfold addAll. revert l. induction xs as [|x xs IH]; intros l; simpl; [tauto|].
  intros [Hin | Hin]%IH.
  - apply addUniqueTo_elem in Hin as [? | ->]; [by left|]. right. left.
  - right. by right.
Qed.

Lemma addAll_keeps h l xs e : e ∈ l → e ∈ addAll h l xs.
Proof.
  unfold addAll. revert l. induction xs as [|x xs IH]; intros l; simpl; [done|].
  intros Hin. by apply IH, addUniqueTo_keeps.
Qed.

Lemma addUniqueTo_docs h l x :
  isDocRef x = true → Forall (λ y, isDocRef y = true) l →
  Forall (λ y, isDocRef y = true) (addUniqueTo h l x).
Proof.
  intros Hx Hl. unfold addUniqueTo. destruct (holdsForAdd h x l); [done|].
  apply Forall_app. split; [done|]. by apply Forall_singleton.
Qed.

Lemma addAll_covers h l xs x :
  Forall (λ y, isDocRef y = true) l → Forall (λ y, isDocRef y = true) xs →
  x ∈ xs → Exists (λ e, oid h e = oid h x) (addAll h l xs).
Proof.
  intros Hl Hxs. revert l Hl. induction Hxs as [|x0 xs Hx0 Hxs IH]; intros l Hl Hin.
  - by apply elem_of_nil in Hin.
  - apply elem_of_cons in Hin as [-> | Hin].
    + change (addAll h l (x0 :: xs)) with (addAll h (addUniqueTo h l x0) xs).
      assert (Exists (λ e, oid h e = oid h x0) (addUniqueTo h l x0)) as Hex.
      { unfold addUniqueTo. destruct (holdsForAdd h x0 l) eqn:Hholds.
        - by apply holdsForAdd_docs.
        - apply Exists_app. right. by left. }
      apply Exists_exists in Hex as (e & He & Heq).
      apply Exists_exists. exists e. split; [by apply addAll_keeps|done].
    + change (addAll h l (x0 :: xs)) with (addAll h (addUniqueTo h l x0) xs).
      apply IH; [by apply addUniqueTo_docs|done].
Qed.

Lemma removeAll_elem h l xs e :
  e ∈ removeAll h l xs ↔ e ∈ l ∧ Forall (λ z, takenByRemove h z e = false) xs.
Proof.
  unfold removeAll. revert l. induction xs as [|x xs IH]; intros l; simpl.
  - split; [by intros ?|by intros [? _]].
  - rewrite IH, list_elem_of_filter, Forall_cons. tauto.
Qed.

Lemma filter_none {A : Type} (P : A → Prop) `{!∀ x, Decision (P x)} (l : list A) :
  Forall (λ x, ¬ P x) l → filter P l = [].
Proof.
  induction 1 as [|x l Hx Hl IH]; [done|].
  rewrite filter_cons. by rewrite decide_False.
Qed.

Lemma parseAddUnique_run store p k x w l :
  storeAccepts store w p k x = true →
  Props.get k (attributes (heap w !!! p)) = VArr l →
  parseAddUnique store p k x w
  = (Ok true,
     mkWorld (withAttributes (Props.set k (VArr (addUniqueTo (heap w) l x))) p (heap w))
       (console w) (network w)).
Proof. intros Ha Hg. unfold parseAddUnique. rewrite Ha. simpl. by rewrite Hg. Qed.

Lemma parseRemove_run store p k x w l :
  storeAccepts store w p k x = true →
  Props.get k (attributes (heap w !!! p)) = VArr l →
  parseRemove store p k x w
  = (Ok true,
     mkWorld (withAttributes
                (Props.set k (VArr (filter (λ e, takenByRemove (heap w) x e = false) l)))
                p (heap w))
       (console w) (network w)).
Proof. intros Ha Hg. unfold parseRemove. rewrite Ha. simpl. by rewrite Hg. Qed.

(** The adding loop, when the store accepts every step. *)
Lemma applyToAdd_run store k p xs w l :
  (∀ w' x, storeAccepts store w' p k x = true) →
  Props.get k (attributes (heap w !!! p)) = VArr l →
  ∃ w', applyToAdd store k p xs w = (Ok p, w')
        ∧ sameDocs (heap w) (heap w')
        ∧ Props.get k (attributes (heap w' !!! p)) = VArr (addAll (heap w) l xs)
        ∧ console w' = console w ∧ network w' = network w.
Proof.
  intros Hacc. revert w l. induction xs as [|x xs IH]; intros w l Hget.
  - exists w. split; [done|]. split; [apply sameDocs_refl|done].
  - pose proof (parseAddUnique_run store p k x w l (Hacc _ _) Hget) as Hstep.
    set (w1 := mkWorld (withAttributes (Props.set k (VArr (addUniqueTo (heap w) l x)))
                          p (heap w)) (console w) (network w)) in *.
    destruct (IH w1 (addUniqueTo (heap w) l x)) as (w' & Hrun & Hs & Hget' & Hc & Hn).
    { simpl. by rewrite withAttributes_get, Props_get_set_eq. }
    exists w'. split; [|split; [|split; [|done]]].
    + unfold applyToAdd in *. cbn [foldM]. unfold bind at 1. unfold bind at 1.
      rewrite Hstep. exact Hrun.
    + eapply sameDocs_trans; [|exact Hs]. apply withAttributes_sameDocs.
    + rewrite Hget'. f_equal. simpl.
      symmetry. apply (addAll_sameDocs (heap w)). apply withAttributes_sameDocs.
Qed.

(** The removing loop, when the store accepts every step. *)
Lemma applyToRemove_run store k p xs w l :
  (∀ w' x, storeAccepts store w' p k x = true) →
  Props.get k (attributes (heap w !!! p)) = VArr l →
  ∃ w', applyToRemove store k p xs w = (Ok p, w')
        ∧ sameDocs (heap w) (heap w')
        ∧ Props.get k (attributes (heap w' !!! p)) = VArr (removeAll (heap w) l xs)
        ∧ console w' = console w ∧ network w' = network w.
Proof.
  intros Hacc. revert w l. induction xs as [|x xs IH]; intros w l Hget.
  - exists w. split; [done|]. split; [apply sameDocs_refl|done].
  - pose proof (parseRemove_run store p k x w l (Hacc _ _) Hget) as Hstep.
    set (l1 := filter (λ e, takenByRemove (heap w) x e = false) l) in *.
    set (w1 := mkWorld (withAttributes (Props.set k (VArr l1)) p (heap w))
                 (console w) (network w)) in *.
    destruct (IH w1 l1) as (w' & Hrun & Hs & Hget' & Hc & Hn).
    { simpl. by rewrite withAttributes_get, Props_get_set_eq. }
    exists w'. split; [|split; [|split; [|done]]].
    + unfold applyToRemove in *. cbn [foldM]. unfold bind at 1. unfold bind at 1.
      rewrite Hstep. exact Hrun.
    + eapply sameDocs_trans; [|exact Hs]. apply withAttributes_sameDocs.
    + rewrite Hget'. f_equal. simpl.
      symmetry. apply (removeAll_sameDocs (heap w)). apply withAttributes_sameDocs.
Qed.

(** After the delta has been applied, every desired identifier is in the
    array and every identifier in the array is desired. *)
Lemma diff_settled h current desired :
  Forall (λ y, isDocRef y = true) current →
  Forall (λ y, isDocRef y = true) desired →
  let added := filter (λ x, ¬ Exists (λ y, oid h y = oid h x) current) desired in
  let removed := filter (λ x, ¬ Exists (λ y, oid h y = oid h x) desired) current in
  let current' := removeAll h (addAll h current added) removed in
  Forall (λ y, isDocRef y = true) current'
  ∧ Forall (λ x, Exists (λ y, oid h y = oid h x) current') desired
  ∧ Forall (λ x, Exists (λ y, oid h y = oid h x) desired) current'.
Proof.
  intros Hcur Hdes added removed current'.
  assert (Forall (λ y, isDocRef y = true) added) as Hadded.
  { apply Forall_forall. intros x [_ Hx]%list_elem_of_filter.
    rewrite Forall_forall in Hdes. by apply Hdes. }
  assert (Forall (λ y, isDocRef y = true) removed) as Hremoved.
  { apply Forall_forall. intros x [_ Hx]%list_elem_of_filter.
    rewrite Forall_forall in Hcur. by apply Hcur. }
  assert (Forall (λ y, isDocRef y = true) (addAll h current added)) as Hall.
  { apply Forall_forall. intros e [He | He]%addAll_elem.
    - rewrite Forall_forall in Hcur. by apply Hcur.
    - rewrite Forall_forall in Hadded. by apply Hadded. }
  assert (∀ e, e ∈ addAll h current added →
               Exists (λ y, oid h y = oid h e) desired → e ∈ current') as Hstays.
  { intros e He Hwanted. apply removeAll_elem. split; [done|].
    apply Forall_forall. intros z Hz.
    destruct (takenByRemove h z e) eqn:Htaken; [|done]. exfalso.
    pose proof Hz as [Hnot _]%list_elem_of_filter. apply Hnot.
    assert (oid h e = oid h z) as Heq.
    { apply takenByRemove_docs; [| |done].
      - rewrite Forall_forall in Hremoved. by apply Hremoved.
      - rewrite Forall_forall in Hall. by apply Hall. }
    eapply Exists_impl; [exact Hwanted|]. intros y Hy. simpl in Hy. congruence. }
  split; [|split].
  - apply Forall_forall. intros e [He _]%removeAll_elem.
    rewrite Forall_forall in Hall. by apply Hall.
  - apply Forall_forall. intros x Hx.
    assert (Exists (λ y, oid h y = oid h x) desired) as Hself.
    { apply Exists_exists. by exists x. }
    destruct (decide (Exists (λ y, oid h y = oid h x) current)) as [Hin | Hout].
    + apply Exists_exists in Hin as (y & Hy & Heq).
      apply Exists_exists. exists y. split; [|done].
      apply Hstays; [by apply addAll_keeps|].
      eapply Exists_impl; [exact Hself|]. intros y' Hy'. simpl in Hy'. congruence.
    + assert (x ∈ added) as Hxadded by (by apply list_elem_of_filter).
      pose proof (addAll_covers h current added x Hcur Hadded Hxadded) as Hcov.
      apply Exists_exists in Hcov as (e & He & Heq).
      apply Exists_exists. exists e. split; [|done].
      apply Hstays; [done|].
      eapply Exists_impl; [exact Hself|]. intros y' Hy'. simpl in Hy'. congruence.
  - apply Forall_forall. intros e [He Hkept]%removeAll_elem.
    apply addAll_elem in He as [He | He].
    + destruct (decide (Exists (λ y, oid h y = oid h e) desired)) as [|Hnot]; [done|].
      exfalso.
      assert (e ∈ removed) as Hrem by (by apply list_elem_of_filter).
      rewrite Forall_forall in Hkept. specialize (Hkept e Hrem).
      rewrite takenByRemove_self in Hkept; [done|].
      rewrite Forall_forall in Hcur. by apply Hcur.
    + apply list_elem_of_filter in He as [_ He].
      apply Exists_exists. by exists e.
Qed.

(** The diff branch of [mappingsArray], taken for a reference array when
    the document already has an array under the property. *)
Lemma mappingsArray_reference store property p desired w current :
  isReferenceArray (VArr desired) = true →
  Props.get property (attributes (heap w !!! p)) = VArr current →
  mappingsArray store property p desired w =
    match toRemove (heap w) current desired with
    | Ok removed =>
        match toAdd (heap w) current desired with
        | Ok added =>
            bind (applyToAdd store property p added)
              (λ po, applyToRemove store property po removed) w
        | Throw e => (Throw e, w)
        | OutOfFuel => (OutOfFuel, w)
        end
    | Throw e => (Throw e, w)
    | OutOfFuel => (OutOfFuel, w)
    end.
Proof.
  intros Href Hget. unfold mappingsArray. rewrite Href.
  unfold bind at 1. unfold getHeap. unfold parseGet. rewrite Hget.
  cbn [truthy asArray]. unfold bind at 1. unfold liftResult at 1.
  unfold bind at 1. unfold liftResult at 1.
  destruct (toRemove (heap w) current desired); [|done..].
  unfold bind at 1. unfold liftResult at 1.
  by destruct (toAdd (heap w) current desired).
Qed.

(** C3. For arrays of document references, [toAdd] holds the desired
    references whose identifier the current array lacks and [toRemove] the
    current ones whose identifier the desired array lacks, so two distinct
    references with one identifier count as one element and the two
    deltas share no identifier.  Once the store has taken the additions
    and removals, the diff of the same desired array against the
    document's new array is empty on both sides, and a second pass of
    [mappings] over the property changes nothing. *)
Theorem reference_array_diff_disjoint_and_idempotent
    (store : RemoteStore) (property : string) (parseObject : Ref) (w : World)
    (current desired : list Val) :
  Forall (λ y, isDocRef y = true) current →
  Forall (λ y, isDocRef y = true) desired →
  Props.get property (attributes (heap w !!! parseObject)) = VArr current →
  (∀ w' x, storeAccepts store w' parseObject property x = true) →
  ∃ added removed w' current',
    toAdd (heap w) current desired = Ok added
    ∧ toRemove (heap w) current desired = Ok removed
    ∧ (∀ x, x ∈ added ↔
            x ∈ desired ∧ ∀ y, y ∈ current → oid (heap w) y ≠ oid (heap w) x)
    ∧ (∀ x, x ∈ removed ↔
            x ∈ current ∧ ∀ y, y ∈ desired → oid (heap w) y ≠ oid (heap w) x)
    ∧ (∀ x y, x ∈ added → y ∈ removed → oid (heap w) x ≠ oid (heap w) y)
    ∧ (∀ r1 r2, objectId (heap w !!! r1) = objectId (heap w !!! r2) →
          VParseObj r1 ∈ current → VParseObj r2 ∈ desired →
          (VParseObj r2 ∉ added) ∧ (VParseObj r1 ∉ removed))
    ∧ bind (applyToAdd store property parseObject added)
        (λ po, applyToRemove store property po removed) w = (Ok parseObject, w')
    ∧ Props.get property (attributes (heap w' !!! parseObject)) = VArr current'
    ∧ toAdd (heap w') current' desired = Ok []
    ∧ toRemove (heap w') current' desired = Ok []
    ∧ (desired ≠ [] →
         mappingsArray store property parseObject desired w = (Ok parseObject, w')
         ∧ mappingsArray store property parseObject desired w' = (Ok parseObject, w')).
Proof.
  intros Hcur Hdes Hget Hacc.
  set (h := heap w).
  set (added := filter (λ x, ¬ Exists (λ y, oid h y = oid h x) current) desired).
  set (removed := filter (λ x, ¬ Exists (λ y, oid h y = oid h x) desired) current).
  destruct (applyToAdd_run store property parseObject added w current Hacc Hget)
    as (w1 & Hrun1 & Hs1 & Hget1 & _ & _).
  destruct (applyToRemove_run store property parseObject removed w1 _ Hacc Hget1)
    as (w' & Hrun2 & Hs2 & Hget2 & _ & _).
  assert (sameDocs h (heap w')) as Hs by (eapply sameDocs_trans; eauto).
  rewrite <- (removeAll_sameDocs h (heap w1)) in Hget2 by done. fold h in Hget2.
  destruct (diff_settled h current desired Hcur Hdes) as (Hdocs' & Hcovers & Hwanted).
  fold added removed in Hdocs', Hcovers, Hwanted.
  set (current' := removeAll h (addAll h current added) removed) in *.
  assert (∀ x, x ∈ added ↔ x ∈ desired ∧ ∀ y, y ∈ current → oid h y ≠ oid h x) as Hchar_add.
  { intros x. unfold added. rewrite list_elem_of_filter, Exists_exists. split.
    - intros [Hno Hx]. split; [done|]. intros y Hy Heq. apply Hno. by exists y.
    - intros [Hx Hno]. split; [|done]. intros (y & Hy & Heq). by apply (Hno y). }
  assert (∀ x, x ∈ removed ↔ x ∈ current ∧ ∀ y, y ∈ desired → oid h y ≠ oid h x) as Hchar_rem.
  { intros x. unfold removed. rewrite list_elem_of_filter, Exists_exists. split.
    - intros [Hno Hx]. split; [done|]. intros y Hy Heq. apply Hno. by exists y.
    - intros [Hx Hno]. split; [|done]. intros (y & Hy & Heq). by apply (Hno y). }
  assert (toAdd (heap w') current' desired = Ok []) as Hadd'.
  { rewrite (toAdd_docs _ _ _ Hdocs' Hdes). f_equal. apply filter_none.
    eapply Forall_impl; [exact Hcovers|]. intros x Hx Hnot. apply Hnot.
    eapply Exists_impl; [exact Hx|]. intros y Hy. simpl in Hy.
    by rewrite <- !(oid_sameDocs h (heap w') _ Hs). }
  assert (toRemove (heap w') current' desired = Ok []) as Hrem'.
  { rewrite (toRemove_docs _ _ _ Hdocs' Hdes). f_equal. apply filter_none.
    eapply Forall_impl; [exact Hwanted|]. intros x Hx Hnot. apply Hnot.
    eapply Exists_impl; [exact Hx|]. intros y Hy. simpl in Hy.
    by rewrite <- !(oid_sameDocs h (heap w') _ Hs). }
  assert (bind (applyToAdd store property parseObject added)
            (λ po, applyToRemove store property po removed) w = (Ok parseObject, w')) as Hrun.
  { unfold bind. by rewrite Hrun1. }
  exists added, removed, w', current'.
  split; [by apply toAdd_docs|]. split; [by apply toRemove_docs|].
  split; [done|]. split; [done|]. split.
  { intros x y [_ Hx]%Hchar_add [Hy _]%Hchar_rem Heq. by apply (Hx y). }
  split.
  { intros r1 r2 Hid H1 H2. split.
    - intros [_ Hx]%Hchar_add. by apply (Hx _ H1).
    - intros [_ Hx]%Hchar_rem. by apply (Hx _ H2). }
  split; [done|]. split; [done|]. split; [done|]. split; [done|].
  intros Hne.
  assert (isReferenceArray (VArr desired) = true) as Href.
  { destruct Hdes as [|first rest Hfirst _]; [done|]. by destruct first. }
  split.
  - rewrite (mappingsArray_reference _ _ _ _ _ _ Href Hget). fold h.
    rewrite (toRemove_docs _ _ _ Hcur Hdes), (toAdd_docs _ _ _ Hcur Hdes).
    exact Hrun.
  - rewrite (mappingsArray_reference _ _ _ _ _ _ Href Hget2).
    by rewrite Hrem', Hadd'.
Qed.

Lemma reference_array_diff_disjoint_and_idempotent_witness :
  ∃ added removed w' current',
    toAdd Example.diffHeap [VParseObj 1; VParseObj 2] [VParseObj 3; VParseObj 4] = Ok added
    ∧ toRemove Example.diffHeap [VParseObj 1; VParseObj 2] [VParseObj 3; VParseObj 4]
      = Ok removed
    ∧ mappingsArray Example.rejectingStore "tags" 5%positive [VParseObj 3; VParseObj 4]
        (mkWorld Example.diffHeap [] []) = (Ok 5%positive, w')
    ∧ Props.get "tags" (attributes (heap w' !!! 5%positive)) = VArr current'
    ∧ toAdd (heap w') current' [VParseObj 3; VParseObj 4] = Ok []
    ∧ toRemove (heap w') current' [VParseObj 3; VParseObj 4] = Ok [].
Proof.
  destruct (reference_array_diff_disjoint_and_idempotent
              Example.rejectingStore "tags" 5%positive (mkWorld Example.diffHeap [] [])
              [VParseObj 1; VParseObj 2] [VParseObj 3; VParseObj 4])
    as (added & removed & w' & current' & Hadd & Hrem & _ & _ & _ & _ & _ & Hget
        & Hadd' & Hrem' & Hrun).
  - repeat constructor.
  - repeat constructor.
  - reflexivity.
  - intros w' x. reflexivity.
  - exists added, removed, w', current'.
    destruct Hrun as [Hrun _]; [discriminate|]. tauto.
Defined.

(** ** Flattening: the loop over the properties *)

Lemma bind_Ok {A B : Type} (c : Op A) (k : A → Op B) w b w' :
  bind c k w = (Ok b, w') → ∃ a w1, c w = (Ok a, w1) ∧ k a w1 = (Ok b, w').
Proof.
  unfold bind. destruct (c w) as [[a| |] w1]; intros H; [by eauto|done|done].
Qed.

Lemma parseSet_run r k v w :
  parseSet r k v w
  = (Ok tt, mkWorld (withAttributes (Props.set k v) r (heap w)) (console w) (network w)).
Proof. reflexivity. Qed.

Lemma parseUnset_run r k w :
  parseUnset r k w
  = (Ok tt, mkWorld (withAttributes (Props.delete k) r (heap w)) (console w) (network w)).
Proof. reflexivity. Qed.

Lemma checkIfIndexingIsNeeded_nullish v : isNullish v = true → checkIfIndexingIsNeeded v = false.
Proof. by destruct v. Qed.

(** One turn of the loop appends the property to the list its value
    belongs to, and to no other. *)
Lemma mappingsProperty_names store o st q w st' w' :
  mappingsProperty store o st q w = (Ok st', w') →
  msEntityArrayProperties st'
  = msEntityArrayProperties st
    ++ filter (λ k, k ≠ "entity" ∧ hasReferenceShapedElement (getProp o k) = true) [q]
  ∧ msEntityProperties st'
    = msEntityProperties st
      ++ filter (λ k, k ≠ "entity" ∧ isSingleReference (getProp o k) = true) [q].
Proof.
  unfold mappingsProperty. rewrite !filter_cons, !filter_nil.
  destruct (decide (q = "entity")) as [->|Hq].
  { intros [= <- <-]. rewrite !decide_False by tauto. by rewrite !app_nil_r. }
  intros (st1 & w1 & Hfirst & Hlast)%bind_Ok.
  assert (st' = st1) as ->.
  { destruct (isNullish (getProp o q)).
    - apply bind_Ok in Hlast as (? & ? & _ & [= <- _]). done.
    - by injection Hlast. }
  clear Hlast.
  assert (msEntityArrayProperties st1
          = (if hasReferenceShapedElement (getProp o q)
             then msEntityArrayProperties st ++ [q] else msEntityArrayProperties st)
          ∧ msEntityProperties st1
            = (if isSingleReference (getProp o q)
               then msEntityProperties st ++ [q] else msEntityProperties st)) as [-> ->].
  { destruct (getProp o q) as [| | | | | |elems| | |] eqn:Hv; simpl in Hfirst;
      try (injection Hfirst as <- _; done);
      try (apply bind_Ok in Hfirst as (? & ? & _ & Hret); injection Hret as <- _; done). }
  split.
  - destruct (hasReferenceShapedElement (getProp o q)).
    + by rewrite decide_True.
    + rewrite decide_False by (by intros [_ ?]). by rewrite app_nil_r.
  - destruct (isSingleReference (getProp o q)).
    + by rewrite decide_True.
    + rewrite decide_False by (by intros [_ ?]). by rewrite app_nil_r.
Qed.

Lemma mappings_loop_names store o ks st w st' w' :
  foldM (mappingsProperty store o) ks st w = (Ok st', w') →
  msEntityArrayProperties st'
  = msEntityArrayProperties st
    ++ filter (λ k, k ≠ "entity" ∧ hasReferenceShapedElement (getProp o k) = true) ks
  ∧ msEntityProperties st'
    = msEntityProperties st
      ++ filter (λ k, k ≠ "entity" ∧ isSingleReference (getProp o k) = true) ks.
Proof.
  revert st w. induction ks as [|q ks IH]; intros st w; cbn [foldM].
  - intros [= <- <-]. by rewrite !filter_nil, !app_nil_r.
  - intros (st1 & w1 & [Ha1 Hs1]%mappingsProperty_names & [Ha Hs]%IH)%bind_Ok.
    rewrite Ha, Hs, Ha1, Hs1. rewrite <- !app_assoc.
    change (q :: ks) with ([q] ++ ks). by rewrite !filter_app.
Qed.

(** ** Flattening an object without handle *)

Lemma touches_refl p q w : touches p q w w.
Proof. split; [apply sameDocs_refl|done]. Qed.

Lemma touches_set p q v w :
  touches p q w (mkWorld (withAttributes (Props.set q v) p (heap w)) (console w) (network w)).
Proof.
  split; [apply withAttributes_sameDocs|].
  intros k Hk. unfold attr. simpl. rewrite withAttributes_get.
  by apply Props_get_set_ne.
Qed.

Lemma touches_delete p q w :
  touches p q w (mkWorld (withAttributes (Props.delete q) p (heap w)) (console w) (network w)).
Proof.
  split; [apply withAttributes_sameDocs|].
  intros k Hk. unfold attr. simpl. rewrite withAttributes_get.
  by apply Props_get_delete_ne.
Qed.

Lemma attr_set p q v w :
  attr (mkWorld (withAttributes (Props.set q v) p (heap w)) (console w) (network w)) p q = v.
Proof. unfold attr. simpl. by rewrite withAttributes_get, Props_get_set_eq. Qed.

Lemma parseAddAllUnique_fresh store p q xs w :
  attr w p q = VUndefined →
  ∃ w', parseAddAllUnique store p q xs w = (Ok tt, w') ∧ touches p q w w'.
Proof.
  unfold attr. intros Hq. unfold parseAddAllUnique.
  destruct (storeAccepts store w p q (VArr xs)); simpl.
  - rewrite Hq. eexists. split; [done|]. apply touches_set.
  - eexists. split; [done|]. apply touches_refl.
Qed.

Lemma mapTypescriptAttributeToParseObjectAttribute_scalar v :
  isScalar v = true → mapTypescriptAttributeToParseObjectAttribute v = v.
Proof. by destruct v. Qed.

(** An array-valued property of an object whose document has nothing
    under that name yet. *)
Lemma mappingsArray_fresh store p q parseAttributes w :
  attr w p q = VUndefined →
  ∃ w', mappingsArray store q p parseAttributes w = (Ok p, w') ∧ touches p q w w'.
Proof.
  intros Hq. unfold mappingsArray.
  destruct (isReferenceArray (VArr parseAttributes)).
  - unfold bind at 1. unfold getHeap. unfold parseGet. fold (attr w p q). rewrite Hq.
    cbn [truthy].
    destruct (parseAddAllUnique_fresh store p q parseAttributes w Hq) as (w' & Hrun & Ht).
    exists w'. split; [|done]. unfold bind. by rewrite Hrun.
  - eexists. split; [reflexivity|]. apply touches_set.
Qed.

(** An array-valued property that is no reference array overwrites. *)
Lemma mappingsArray_plain store p q parseAttributes w :
  isReferenceArray (VArr parseAttributes) = false →
  ∃ w', mappingsArray store q p parseAttributes w = (Ok p, w') ∧ touches p q w w'.
Proof.
  intros Href. unfold mappingsArray. rewrite Href.
  eexists. split; [reflexivity|]. apply touches_set.
Qed.

(** One turn of the loop for an object that is being created. *)
Lemma mappingsProperty_create store o st q w :
  (∀ elems, q = "classname" → getProp o q = VArr elems →
     isReferenceArray (VArr (mapTypescriptAttributeToParseObjectAttribute <$> elems)) = false) →
  (q ≠ "classname" → attr w (msParseObject st) q = VUndefined) →
  ∃ st' w',
    mappingsProperty store o st q w = (Ok st', w')
    ∧ msParseObject st' = msParseObject st
    ∧ touches (msParseObject st) q w w'
    ∧ (q ≠ "entity" → isScalar (getProp o q) = true →
       attr w' (msParseObject st) q = getProp o q).
Proof.
  intros Hclass Hfresh. unfold mappingsProperty.
  destruct (decide (q = "entity")) as [->|Hq].
  { exists st, w. split; [done|]. split; [done|]. split; [apply touches_refl|done]. }
  destruct (getProp o q) as [| | | | | |elems| | |] eqn:Hv; cbn [isNullish negb].
  1,2: eexists _, _; split; [reflexivity|]; split; [done|];
       split; [apply touches_delete|done].
  5: { assert (∃ w', mappingsArray store q (msParseObject st)
                       (mapTypescriptAttributeToParseObjectAttribute <$> elems) w
                     = (Ok (msParseObject st), w')
                     ∧ touches (msParseObject st) q w w') as (w' & Hrun & Ht).
       { destruct (decide (q = "classname")) as [Hc|Hc].
         - apply mappingsArray_plain. by apply Hclass.
         - apply mappingsArray_fresh. by apply Hfresh. }
       eexists _, w'. split; [|split; [|split; [exact Ht|done]]].
       - unfold bind. rewrite Hrun. reflexivity.
       - done. }
  all: eexists _, _; split; [reflexivity|]; split; [done|];
       split; [apply touches_set|]; intros _ Hs; try done;
       by rewrite attr_set.
Qed.

(** The whole loop for an object that is being created: every turn
    succeeds, the document stays the same, and each scalar field is found
    under its name afterwards. *)
Lemma mappings_loop_create store o ks st w :
  NoDup ks →
  (∀ elems, getProp o "classname" = VArr elems →
     isReferenceArray (VArr (mapTypescriptAttributeToParseObjectAttribute <$> elems)) = false) →
  (∀ q, q ∈ ks → q ≠ "classname" → attr w (msParseObject st) q = VUndefined) →
  ∃ st' w',
    foldM (mappingsProperty store o) ks st w = (Ok st', w')
    ∧ msParseObject st' = msParseObject st
    ∧ sameDocs (heap w) (heap w')
    ∧ (∀ k, k ∉ ks → attr w' (msParseObject st) k = attr w (msParseObject st) k)
    ∧ (∀ k, k ∈ ks → k ≠ "entity" → isScalar (getProp o k) = true →
         attr w' (msParseObject st) k = getProp o k).
Proof.
  intros Hnodup Hclass. revert st w.
  induction Hnodup as [|q ks Hq Hnodup IH]; intros st w Hfresh.
  - exists st, w. split; [done|]. split; [done|]. split; [apply sameDocs_refl|].
    split; [done|]. by intros k ?%elem_of_nil.
  - destruct (mappingsProperty_create store o st q w) as (st1 & w1 & Hrun1 & Hp1 & [Hs1 Hk1] & Hv1).
    { intros elems -> Hv. by apply Hclass. }
    { apply Hfresh. left. }
    destruct (IH st1 w1) as (st' & w' & Hrun & Hp & Hs & Hout & Hin).
    { intros q' Hq' Hc. rewrite Hp1. rewrite Hk1 by (intros ->; done).
      apply Hfresh; [by right|done]. }
    rewrite Hp1 in Hp, Hout, Hin.
    exists st', w'. split; [|split; [done|split; [|split]]].
    + cbn [foldM]. unfold bind. by rewrite Hrun1.
    + by eapply sameDocs_trans.
    + intros k Hk. rewrite not_elem_of_cons in Hk. destruct Hk as [Hne Hk].
      rewrite (Hout _ Hk). by apply Hk1.
    + intros k Hk Hne Hscalar. destruct (decide (k ∈ ks)) as [Hks|Hks].
      * by apply Hin.
      * apply elem_of_cons in Hk as [-> | ?]; [|done].
        rewrite (Hout _ Hks). by apply Hv1.
Qed.

(** [mappings] on an object without handle: it returns a document that was
    not there before, tagged with the class name and without identifier,
    which holds every scalar field under its name, the two names of the
    bookkeeping lists apart. *)
Lemma mappings_create_runs store classname o w :
  isNullish (getProp o "entity") = true →
  (∀ elems, getProp o "classname" = VArr elems →
     isReferenceArray (VArr (mapTypescriptAttributeToParseObjectAttribute <$> elems)) = false) →
  ∃ p w',
    mappings store classname o w = (Ok p, w')
    ∧ heap w !! p = None
    ∧ className (heap w' !!! p) = classname
    ∧ objectId (heap w' !!! p) = None
    ∧ ∀ k, notBookkeeping k → k ≠ "entity" → isScalar (getProp o k) = true →
           attr w' p k = getProp o k.
Proof.
  intros Hnew Hclass.
  set (p := fresh (dom (heap w))).
  set (w1 := mkWorld
               (withAttributes (Props.set "classname" (VStr classname)) p
                  (<[p := mkParseObject classname None []]> (heap w)))
               (console w) (network w)).
  assert (heap w !! p = None) as Hfreshp.
  { apply not_elem_of_dom. apply is_fresh. }
  assert (className (heap w1 !!! p) = classname ∧ objectId (heap w1 !!! p) = None)
    as [Hcn1 Hid1].
  { simpl. rewrite withAttributes_lookup, decide_True by done. simpl.
    by rewrite lookup_total_insert_eq. }
  assert (∀ q, q ≠ "classname" → attr w1 p q = VUndefined) as Hattr1.
  { intros q Hq. unfold attr. simpl. rewrite withAttributes_get.
    rewrite lookup_total_insert_eq. simpl. by rewrite decide_False. }
  destruct (mappings_loop_create store o (forIn o) (mkMappingState p [] []) w1)
    as (st & w2 & Hloop & Hp & Hs & _ & Hin).
  { destruct o; try apply NoDup_nil_2. apply NoDup_remove_dups. }
  { done. }
  { intros q _ Hq. by apply Hattr1. }
  simpl in Hp, Hin.
  set (w' := mkWorld
               (withAttributes
                  (Props.set "entityProperties" (VArr (VStr <$> msEntityProperties st))) p
                  (withAttributes
                     (Props.set "entityArrayProperties"
                        (VArr (VStr <$> msEntityArrayProperties st))) p (heap w2)))
               (console w2) (network w2)).
  assert (mappings store classname o w = (Ok p, w')) as Hrun.
  { unfold mappings. rewrite Hnew. cbn [negb].
    unfold bind at 1. unfold bind at 1. unfold newParseObject. fold p.
    unfold bind at 1. rewrite parseSet_run. cbn [heap console network]. fold w1.
    unfold ret at 1. unfold bind at 1. rewrite Hloop.
    unfold bind at 1. rewrite parseSet_run. rewrite Hp.
    unfold bind at 1. rewrite parseSet_run. reflexivity. }
  assert (sameDocs (heap w1) (heap w')) as Hs'.
  { eapply sameDocs_trans; [exact Hs|]. simpl.
    eapply sameDocs_trans; apply withAttributes_sameDocs. }
  exists p, w'. split; [done|]. split; [done|].
  split; [by destruct (Hs' p) as [<- _]|]. split; [by destruct (Hs' p) as [_ <-]|].
  intros k [Hk1 Hk2] Hne Hscalar.
  assert (k ∈ forIn o) as Hkin.
  { destruct o as [| | | | | | | | |proto fields]; try done. simpl.
    apply Props_get_is_key. simpl in Hscalar. by destruct (Props.get k fields). }
  transitivity (attr w2 p k); [|by apply Hin].
  unfold attr. simpl. rewrite !withAttributes_get.
  rewrite Props_get_set_ne by done. by rewrite Props_get_set_ne.
Qed.

Lemma hydrateAttribute_scalar rec h v d M :
  isScalar v = true → hydrateAttribute rec h v d M = Some v.
Proof. by destruct v. Qed.

(** C9. Whenever [mappings] produces a document, with or without a handle
    on the object, the document carries the attribute
    ["entityArrayProperties"] with the names of the array fields holding
    at least one reference-shaped element, and ["entityProperties"] with
    the names of the single-valued reference-shaped fields; both are set
    even when empty.  For an object without handle whose [classname]
    field is no reference array, [mappings] does produce a document. *)
Theorem mappings_sets_bookkeeping_attributes
    (store : RemoteStore) (classname : string) (entityObject : Val) (w : World) :
  (∀ parseObject w',
     mappings store classname entityObject w = (Ok parseObject, w') →
     Props.get "entityArrayProperties" (attributes (heap w' !!! parseObject))
     = VArr (VStr <$> entityArrayPropertiesOf entityObject)
     ∧ Props.get "entityProperties" (attributes (heap w' !!! parseObject))
       = VArr (VStr <$> entityPropertiesOf entityObject)
     ∧ "entityArrayProperties" ∈ Props.keys (attributes (heap w' !!! parseObject))
     ∧ "entityProperties" ∈ Props.keys (attributes (heap w' !!! parseObject)))
  ∧ (isNullish (getProp entityObject "entity") = true →
     (∀ elems, getProp entityObject "classname" = VArr elems →
        isReferenceArray (VArr (mapTypescriptAttributeToParseObjectAttribute <$> elems))
        = false) →
     ∃ parseObject w', mappings store classname entityObject w = (Ok parseObject, w')).
Proof.
  split.
  2: { intros Hnew Hclass.
       destruct (mappings_create_runs store classname entityObject w Hnew Hclass)
         as (p & w' & Hrun & _). by exists p, w'. }
  intros parseObject w'. unfold mappings.
  intros (p0 & w0 & _ & (st & w1 & Hloop & Hsets)%bind_Ok)%bind_Ok.
  apply mappings_loop_names in Hloop as [Ha Hs]. simpl in Ha, Hs.
  apply bind_Ok in Hsets as ([] & w2 & Hset1 & Hsets).
  apply bind_Ok in Hsets as ([] & w3 & Hset2 & Hret).
  injection Hret as <- <-.
  rewrite parseSet_run in Hset1. injection Hset1 as <-.
  rewrite parseSet_run in Hset2. injection Hset2 as <-. simpl.
  rewrite !withAttributes_get.
  assert (Props.get "entityArrayProperties"
            (Props.set "entityProperties" (VArr (VStr <$> msEntityProperties st))
               (Props.set "entityArrayProperties"
                  (VArr (VStr <$> msEntityArrayProperties st))
                  (attributes (heap w1 !!! msParseObject st))))
          = VArr (VStr <$> entityArrayPropertiesOf entityObject)) as H1.
  { rewrite Props_get_set_ne by done. rewrite Props_get_set_eq. by rewrite Ha. }
  assert (Props.get "entityProperties"
            (Props.set "entityProperties" (VArr (VStr <$> msEntityProperties st))
               (Props.set "entityArrayProperties"
                  (VArr (VStr <$> msEntityArrayProperties st))
                  (attributes (heap w1 !!! msParseObject st))))
          = VArr (VStr <$> entityPropertiesOf entityObject)) as H2.
  { rewrite Props_get_set_eq. by rewrite Hs. }
  split; [done|]. split; [done|].
  split; apply Props_get_is_key; [by rewrite H1|by rewrite H2].
Qed.

Lemma mappings_sets_bookkeeping_attributes_witness :
  (∃ w' parseObject,
     mappings Example.rejectingStore "Task"
       (VObject (EntityObjectProto "Task")
          [("title", VStr "X"); ("owner", VParseObj 1);
           ("tags", VArr [VParseObj 2; VParseObj 3])])
       (mkWorld Example.diffHeap [] []) = (Ok parseObject, w')
     ∧ Props.get "entityArrayProperties" (attributes (heap w' !!! parseObject))
       = VArr [VStr "tags"]
     ∧ Props.get "entityProperties" (attributes (heap w' !!! parseObject))
       = VArr [VStr "owner"])
  ∧ (∃ w',
       mappings Example.rejectingStore "Task"
         (VObject (EntityObjectProto "Task")
            [("entity", VParseObj 5); ("title", VStr "X")])
         (mkWorld Example.diffHeap [] []) = (Ok 5%positive, w')
       ∧ Props.get "entityArrayProperties" (attributes (heap w' !!! 5%positive))
         = VArr []
       ∧ Props.get "entityProperties" (attributes (heap w' !!! 5%positive))
         = VArr []).
Proof.
  split.
  - destruct (mappings_sets_bookkeeping_attributes Example.rejectingStore "Task"
                (VObject (EntityObjectProto "Task")
                   [("title", VStr "X"); ("owner", VParseObj 1);
                    ("tags", VArr [VParseObj 2; VParseObj 3])])
                (mkWorld Example.diffHeap [] [])) as [Hsets Hruns].
    destruct Hruns as (p & w' & Hrun); [reflexivity|intros elems Hv; discriminate Hv|].
    exists w', p. split; [exact Hrun|].
    destruct (Hsets p w' Hrun) as (H1 & H2 & _). split; [exact H1|exact H2].
  - destruct (mappings_sets_bookkeeping_attributes Example.rejectingStore "Task"
                (VObject (EntityObjectProto "Task")
                   [("entity", VParseObj 5); ("title", VStr "X")])
                (mkWorld Example.diffHeap [] [])) as [Hsets _].
    eexists. split; [vm_compute; reflexivity|].
    match goal with
    | |- Props.get _ (attributes (heap ?w' !!! _)) = _ ∧ _ =>
        destruct (Hsets 5%positive w') as (H1 & H2 & _);
          [vm_compute; reflexivity|split; [exact H1|exact H2]]
    end.
Defined.

(** ** Hydration: further facts *)

Lemma foldlM_hydrate_None (g : string → option Val) ks k m0 :
  k ∈ ks → g k = None →
  foldlM (λ m element, v ← g element; Some (setProp m element v)) ks m0 = None.
Proof.
  intros Hin Hk. revert m0. induction ks as [|x ks IH]; intros m0; [by apply elem_of_nil in Hin|].
  cbn [foldlM]. destruct (g x) as [v|] eqn:Hx; simpl; [|done].
  apply elem_of_cons in Hin as [-> | Hin]; [congruence|]. by apply IH.
Qed.

Lemma mapParseAttributesToEntityObject_shape appClassnames fuel h r d M def type m :
  Classnames appClassnames (className (h !!! r)) = Some (RefDefinition def) →
  defType def = Some type →
  mapParseAttributesToEntityObject appClassnames fuel h (VParseObj r) d M = Some m →
  ∃ fs, m = VObject (ctorProto type) fs ∧ Props.get "entity" fs = VParseObj r.
Proof.
  intros Hreg Htype. destruct fuel as [|fuel]; [done|].
  rewrite (mapParseAttributesToEntityObject_registered _ _ _ _ _ _ _ _ Hreg Htype).
  destruct (decide (M ≠ d)) as [Hne|Heq]; simpl.
  - match goal with |- context [foldlM ?f ?ks ?m0] => destruct (foldlM f ks m0) as [m'|] eqn:Hfold end;
      simpl; [|done].
    apply foldlM_hydrate_lookup in Hfold as [[fs' ->] _].
    intros [= <-]. eexists. split; [done|]. apply Props_get_set_eq.
  - intros [= <-]. eexists. split; [done|]. apply Props_get_set_eq.
Qed.

(** X1.  A hydrated document of a registered class always carries its
    document as [entity], whatever the depths and whatever the document
    stores under the name [entity]; it is an instance of the registered
    constructor. *)
Theorem hydrated_document_carries_its_handle appClassnames fuel h r (d M : Z) def type m :
  Classnames appClassnames (className (h !!! r)) = Some (RefDefinition def) →
  defType def = Some type →
  mapParseAttributesToEntityObject appClassnames fuel h (VParseObj r) d M = Some m →
  getProp m "entity" = VParseObj r ∧ ∃ fs, m = VObject (ctorProto type) fs.
Proof.
  intros Hreg Htype Hm.
  destruct (mapParseAttributesToEntityObject_shape _ _ _ _ _ _ _ _ _ Hreg Htype Hm)
    as (fs & -> & Hent).
  split; [done|by eexists].
Qed.

Lemma mapParseAttributesToEntityObject_at_limit appClassnames fuel h r (d : Z) def type :
  Classnames appClassnames (className (h !!! r)) = Some (RefDefinition def) →
  defType def = Some type →
  mapParseAttributesToEntityObject appClassnames (S fuel) h (VParseObj r) d d
    = Some (setProp (construct type) "entity" (VParseObj r)).
Proof.
  intros Hreg Htype.
  rewrite (mapParseAttributesToEntityObject_registered _ _ _ _ _ _ _ _ Hreg Htype).
  by rewrite decide_False by (intros Hne; by apply Hne).
Qed.

(** X2.  A document met one level above the maximum depth is hydrated
    into a stub: the freshly constructed object of its class with the
    handle, and none of its attributes, scalars included. *)
Theorem nested_document_at_limit_is_a_stub appClassnames fuel h r r' k (d M : Z)
    def type def' type' m :
  Classnames appClassnames (className (h !!! r)) = Some (RefDefinition def) →
  defType def = Some type →
  Classnames appClassnames (className (h !!! r')) = Some (RefDefinition def') →
  defType def' = Some type' →
  Props.get k (attributes (h !!! r)) = VParseObj r' →
  k ≠ "entity" →
  M = (d + 1)%Z →
  mapParseAttributesToEntityObject appClassnames (S (S fuel)) h (VParseObj r) d M = Some m →
  getProp m k = setProp (construct type') "entity" (VParseObj r')
  ∧ ∀ k', k' ≠ "entity" → getProp (getProp m k) k' = Props.get k' (ctorInit type').
Proof.
  intros Hreg Htype Hreg' Htype' Hk Hne -> Hm.
  assert (getProp m k = setProp (construct type') "entity" (VParseObj r')) as Hstub.
  { rewrite (mapParseAttributesToEntityObject_registered _ _ _ _ _ _ _ _ Hreg Htype) in Hm.
    rewrite decide_True in Hm by lia.
    match type of Hm with context [foldlM ?f ?ks ?m0] =>
      destruct (foldlM f ks m0) as [m'|] eqn:Hfold end; simpl in Hm; [|done].
    injection Hm as <-. rewrite getProp_setProp_ne by done.
    apply foldlM_hydrate_lookup in Hfold as [_ Hlook].
    destruct (Hlook k) as [Hin _].
    specialize (Hin ltac:(apply Props_get_is_key; by rewrite Hk)).
    rewrite Hk in Hin. unfold hydrateAttribute in Hin. cbn [instanceofParseFile instanceofParseObject] in Hin.
    rewrite (mapParseAttributesToEntityObject_at_limit _ _ _ _ _ _ _ Hreg' Htype') in Hin.
    by injection Hin as <-. }
  split; [done|]. intros k' Hk'. rewrite Hstub. by rewrite getProp_setProp_ne.
Qed.

(** X3.  From a depth within the default limit, the single and the bulk
    form return on every heap, cyclic ones included; the bulk form does so
    for any maximum depth, since its rows are hydrated with the default. *)
Theorem hydration_returns_on_any_graph appClassnames fuel h (d : Z) :
  (0 ≤ d ≤ defaultMaxDeep)%Z → (defaultMaxDeep - d < Z.of_nat fuel)%Z →
  (∀ v, is_Some (mapParseAttributesToEntityObject appClassnames fuel h v d defaultMaxDeep))
  ∧ (∀ rows M, is_Some (mapParseArrayOfAttributesToEntityObject appClassnames fuel h rows d M)).
Proof.
  intros Hd Hfuel. split.
  - intros v. apply mapParseAttributesToEntityObject_terminates; lia.
  - intros rows M. unfold mapParseArrayOfAttributesToEntityObject, mapArrayWith.
    case_decide; [|by eexists].
    apply mapM_is_Some, Forall_forall. intros v _.
    apply mapParseAttributesToEntityObject_terminates; lia.
Qed.

(** X4.  The depth test is an inequality: started beyond the maximum
    depth, the hydration of a document that refers to itself never
    returns. *)
Theorem hydration_beyond_limit_never_returns appClassnames h r k def type (d M : Z) :
  Classnames appClassnames (className (h !!! r)) = Some (RefDefinition def) →
  defType def = Some type →
  Props.get k (attributes (h !!! r)) = VParseObj r →
  (M < d)%Z →
  ∀ fuel, mapParseAttributesToEntityObject appClassnames fuel h (VParseObj r) d M = None.
Proof.
  intros Hreg Htype Hself Hd fuel. revert d Hd.
  induction fuel as [|fuel IH]; intros d Hd; [done|].
  rewrite (mapParseAttributesToEntityObject_registered _ _ _ _ _ _ _ _ Hreg Htype).
  rewrite decide_True by lia.
  rewrite (foldlM_hydrate_None _ _ k); [done| |].
  - apply Props_get_is_key. by rewrite Hself.
  - rewrite Hself. unfold hydrateAttribute. simpl. apply IH. lia.
Qed.

(** X5.  Flattening undoes the hydration of a pointer: the hydrated form
    of a document of a registered class, or of a user, maps back to the
    document itself and counts as a reference. *)
Theorem flatten_inverts_hydration_of_pointers appClassnames fuel h r (d M : Z) m :
  (∃ def type, Classnames appClassnames (className (h !!! r)) = Some (RefDefinition def)
               ∧ defType def = Some type)
  ∨ Classnames appClassnames (className (h !!! r)) = Some (RefString "_User") →
  mapParseAttributesToEntityObject appClassnames fuel h (VParseObj r) d M = Some m →
  mapTypescriptAttributeToParseObjectAttribute m = VParseObj r
  ∧ checkIfIndexingIsNeeded m = true.
Proof.
  intros [(def & type & Hreg & Htype) | Huser] Hm.
  - destruct (mapParseAttributesToEntityObject_shape _ _ _ _ _ _ _ _ _ Hreg Htype Hm)
      as (fs & -> & Hent).
    unfold mapTypescriptAttributeToParseObjectAttribute, checkIfIndexingIsNeeded.
    cbn [instanceofObject getProp]. rewrite Hent. cbn [isNullish negb andb].
    by rewrite !orb_true_r.
  - destruct fuel as [|fuel]; [done|]. simpl in Hm. rewrite Huser in Hm. simpl in Hm.
    injection Hm as <-. done.
Qed.

(** ** Hydration: concrete runs *)

Lemma hydrated_document_carries_its_handle_witness :
  getProp Cases.hydratedRow "entity" = VParseObj 1
  ∧ ∃ fs, Cases.hydratedRow = VObject (EntityObjectProto "Task") fs.
Proof.
  apply (hydrated_document_carries_its_handle Example.appClassnames 4 Cases.cyclicHeap
           1%positive 0 defaultMaxDeep (mkDefinition "Task" (Some Example.Task)) Example.Task);
    vm_compute; reflexivity.
Defined.

Lemma nested_document_at_limit_is_a_stub_witness :
  getProp Cases.shallowRow "peer" = VObject (EntityObjectProto "Task") [("entity", VParseObj 2)]
  ∧ ∀ k', k' ≠ "entity" → getProp (getProp Cases.shallowRow "peer") k' = VUndefined.
Proof.
  apply (nested_document_at_limit_is_a_stub Example.appClassnames 0 Cases.cyclicHeap
           1%positive 2%positive "peer" 0 1
           (mkDefinition "Task" (Some Example.Task)) Example.Task
           (mkDefinition "Task" (Some Example.Task)) Example.Task);
    try (vm_compute; reflexivity).
  intros [=].
Defined.

Lemma hydration_returns_on_any_graph_witness :
  (∀ v, is_Some (mapParseAttributesToEntityObject Example.appClassnames 4 Cases.cyclicHeap
                   v 0 defaultMaxDeep))
  ∧ (∀ rows M, is_Some (mapParseArrayOfAttributesToEntityObject Example.appClassnames 4
                          Cases.cyclicHeap rows 0 M)).
Proof.
  apply (hydration_returns_on_any_graph Example.appClassnames 4 Cases.cyclicHeap 0);
    unfold defaultMaxDeep; lia.
Defined.

Lemma hydration_beyond_limit_never_returns_witness :
  mapParseAttributesToEntityObject Example.appClassnames 1000 Cases.selfHeap
    (VParseObj 1) 4 3 = None.
Proof.
  apply (hydration_beyond_limit_never_returns Example.appClassnames Cases.selfHeap
           1%positive "self" (mkDefinition "Task" (Some Example.Task)) Example.Task 4 3);
    vm_compute; reflexivity.
Defined.

Lemma flatten_inverts_hydration_of_pointers_witness :
  mapTypescriptAttributeToParseObjectAttribute Cases.hydratedRow = VParseObj 1
  ∧ checkIfIndexingIsNeeded Cases.hydratedRow = true.
Proof.
  apply (flatten_inverts_hydration_of_pointers Example.appClassnames 4 Cases.cyclicHeap
           1%positive 0 defaultMaxDeep).
  - left. exists (mkDefinition "Task" (Some Example.Task)), Example.Task.
    split; vm_compute; reflexivity.
  - vm_compute; reflexivity.
Defined.

(** ** Live buffer: populating and the subscription events *)

Lemma indexById_spec h ms ids b :
  Forall2 (λ m id, isNullish m = false ∧ idOf h (getProp m "entity") = Ok (VStr id)) ms ids →
  ∃ b', indexById h ms b = Ok b'
    ∧ (∀ key, key ∉ ids → b' !! key = b !! key)
    ∧ (∀ key, key ∈ ids → ∃ i m, ms !! i = Some m ∧ ids !! i = Some key ∧ b' !! key = Some m)
    ∧ (NoDup ids → (∀ key, key ∈ ids → b !! key = None) →
         size b' = (size b + length ids)%nat).
Proof.
  intros Hall. revert b.
  induction Hall as [|m id ms ids [Hnn Hid] Hall IH]; intros b; cbn [indexById].
  - exists b. split; [done|]. split; [done|]. split.
    + by intros key ?%elem_of_nil.
    + intros _ _. simpl. lia.
  - rewrite Hnn, Hid. cbn [propertyKey].
    destruct (IH (<[id := m]> b)) as (b' & Hrun & Hout & Hin & Hsize).
    exists b'. split; [done|]. split; [|split].
    + intros key Hkey. apply not_elem_of_cons in Hkey as [Hne Hkey].
      rewrite (Hout key Hkey). by rewrite lookup_insert_ne.
    + intros key Hkey. destruct (decide (key ∈ ids)) as [Hk|Hk].
      * destruct (Hin key Hk) as (i & x & ? & ? & ?). by exists (S i), x.
      * apply elem_of_cons in Hkey as [-> | ?]; [|done].
        exists 0%nat, m. split; [done|]. split; [done|].
        rewrite (Hout id Hk). apply lookup_insert_eq.
    + intros Hnd Hfresh. apply NoDup_cons in Hnd as [Hnot Hnd].
      rewrite Hsize; [| done |].
      * rewrite map_size_insert_None by (apply Hfresh; left). simpl. lia.
      * intros key Hkey. rewrite lookup_insert_ne by (intros ->; done).
        apply Hfresh. by right.
Qed.

Lemma indexById_undefined h ms b :
  VUndefined ∈ ms → indexById h ms b = Throw TypeError.
Proof.
  revert b. induction ms as [|m ms IH]; intros b Hin; [by apply elem_of_nil in Hin|].
  cbn [indexById]. destruct (isNullish m) eqn:Hnn; [done|].
  apply elem_of_cons in Hin as [<- | Hin]; [done|].
  destruct (getProp m "entity"); cbn [idOf]; try done; by apply IH.
Qed.

Lemma isRowOf_hydrated appClassnames fuel h row id (d M : Z) m :
  isRowOf appClassnames h row id →
  mapParseAttributesToEntityObject appClassnames fuel h row d M = Some m →
  isNullish m = false ∧ getProp m "entity" = row
  ∧ idOf h (getProp m "entity") = Ok (VStr id).
Proof.
  intros (r & def & type & -> & Hreg & Htype & Hid) Hm.
  destruct (mapParseAttributesToEntityObject_shape _ _ _ _ _ _ _ _ _ Hreg Htype Hm)
    as (fs & -> & Hent).
  cbn [getProp isNullish]. rewrite Hent. cbn [idOf idOfDocument]. by rewrite Hid.
Qed.

(** X6.  A download of rows of registered classes rebuilds the cache: its
    keys are the identifiers of the rows, every entry is the hydrated
    form of a row stored under that identifier and can be looked up by
    itself, and rows with distinct identifiers give one entry each.
    Nothing is emitted. *)
Theorem populate_indexes_rows_by_identifier appClassnames fuel h rows ids s :
  (4 ≤ fuel)%nat →
  Forall2 (isRowOf appClassnames h) rows ids →
  ∃ buffer,
    populate appClassnames fuel h rows s
      = Ok (mkLiveBuffer (Some buffer) (externalSubscription s))
    ∧ (∀ key, is_Some (buffer !! key) ↔ key ∈ ids)
    ∧ (∀ key m, buffer !! key = Some m →
         (∃ i, rows !! i = Some (getProp m "entity") ∧ ids !! i = Some key)
         ∧ fetchObjectLocally h (Some buffer) m = m)
    ∧ (NoDup ids → size buffer = length rows).
Proof.
  intros Hfuel Hrows. unfold populate, afterBufferDownload.
  rewrite mapParseArrayOfAttributesToEntityObject_rows by done.
  destruct (mapM (λ row, mapParseAttributesToEntityObject appClassnames fuel h row 0
                           defaultMaxDeep) rows) as [ms|] eqn:Hms.
  2:{ exfalso. assert (is_Some (mapM (λ row, mapParseAttributesToEntityObject appClassnames
        fuel h row 0 defaultMaxDeep) rows)) as [? Hsome]; [|congruence].
      apply mapM_is_Some, Forall_forall. intros v _.
      apply mapParseAttributesToEntityObject_terminates; unfold defaultMaxDeep; lia. }
  apply mapM_Some in Hms.
  assert (Forall2 (λ m id, isNullish m = false
                           ∧ idOf h (getProp m "entity") = Ok (VStr id)) ms ids
          ∧ ∀ i m, ms !! i = Some m → rows !! i = Some (getProp m "entity")) as [Hgood Hpos].
  { clear Hfuel. revert ids Hrows. induction Hms as [|row m rows ms Hm Hms IH]; intros ids Hrows.
    - inversion Hrows; subst. split; [constructor|]. by intros i m.
    - inversion Hrows as [|? id ? ids' Hrow Hrows']; subst.
      destruct (isRowOf_hydrated _ _ _ _ _ _ _ _ Hrow Hm) as (Hnn & Hent & Hid).
      destruct (IH _ Hrows') as [Hgood Hpos]. split; [by constructor|].
      intros [|i] m'; simpl; [intros [= <-]; by rewrite Hent|apply Hpos]. }
  destruct (indexById_spec h ms ids ∅ Hgood) as (buffer & -> & Hout & Hin & Hsize).
  exists buffer. split; [done|].
  assert (∀ key m, buffer !! key = Some m →
            ∃ i, ms !! i = Some m ∧ ids !! i = Some key) as Hentry.
  { intros key m Hkey. destruct (decide (key ∈ ids)) as [Hk|Hk].
    - destruct (Hin key Hk) as (i & m' & ? & ? & Hm'). exists i.
      rewrite Hkey in Hm'. by injection Hm' as <-.
    - rewrite (Hout key Hk), lookup_empty in Hkey. done. }
  split; [|split].
  - intros key. split.
    + intros [m Hm]. destruct (Hentry key m Hm) as (i & _ & Hi).
      by eapply list_elem_of_lookup_2.
    + intros Hk. destruct (Hin key Hk) as (i & m & _ & _ & ->). by eexists.
  - intros key m Hkey. destruct (Hentry key m Hkey) as (i & Hm & Hi). split.
    + exists i. split; [by apply Hpos|done].
    + destruct (Forall2_lookup_lr _ _ _ _ _ _ Hgood Hm Hi) as [Hnn _].
      destruct (Forall2_lookup_lr _ _ _ _ _ _ Hrows (Hpos _ _ Hm) Hi)
        as (r & _ & _ & Hent & _ & _ & Hid).
      unfold fetchObjectLocally, fetchObjectByIdLocally.
      destruct m as [| | | | | | | | |p fs]; try done.
      cbn [truthy negb]. rewrite Hent. cbn [truthy idOfDocument]. rewrite Hid.
      cbn [idVal propertyKey]. by rewrite Hkey.
  - intros Hnd. rewrite Hsize; [|done|by intros; apply lookup_empty].
    rewrite map_size_empty. simpl.
    apply Forall2_length in Hrows. lia.
Qed.

Lemma hydration_of_unregistered appClassnames fuel h r (d M : Z) :
  Classnames appClassnames (className (h !!! r)) = None →
  mapParseAttributesToEntityObject appClassnames (S fuel) h (VParseObj r) d M
    = Some VUndefined.
Proof. intros Hnone. simpl. by rewrite Hnone. Qed.

(** X7.  One row of a class the application does not register makes the
    whole download fail: its hydrated form is [undefined], and indexing
    raises on it, wherever the row stands. *)
Theorem populate_raises_on_unregistered_row appClassnames fuel h rows r s :
  (4 ≤ fuel)%nat →
  VParseObj r ∈ rows →
  Classnames appClassnames (className (h !!! r)) = None →
  populate appClassnames fuel h rows s = Throw TypeError.
Proof.
  intros Hfuel Hin Hnone. unfold populate, afterBufferDownload.
  rewrite mapParseArrayOfAttributesToEntityObject_rows by done.
  destruct (mapM (λ row, mapParseAttributesToEntityObject appClassnames fuel h row 0
                           defaultMaxDeep) rows) as [ms|] eqn:Hms.
  2:{ exfalso. assert (is_Some (mapM (λ row, mapParseAttributesToEntityObject appClassnames
        fuel h row 0 defaultMaxDeep) rows)) as [? Hsome]; [|congruence].
      apply mapM_is_Some, Forall_forall. intros v _.
      apply mapParseAttributesToEntityObject_terminates; unfold defaultMaxDeep; lia. }
  apply mapM_Some in Hms. rewrite indexById_undefined; [done|].
  apply list_elem_of_lookup in Hin as [i Hi].
  destruct (Forall2_lookup_l _ _ _ _ _ Hms Hi) as (m & Hm & Hrun).
  destruct fuel as [|fuel]; [lia|].
  rewrite hydration_of_unregistered in Hrun by done. injection Hrun as <-.
  by eapply list_elem_of_lookup_2.
Qed.

Lemma storeAndEmit_run event h m r buffer s :
  getProp m "entity" = VParseObj r →
  dataBuffer s = Some buffer →
  storeAndEmit event h m s
  = Ok (mkLiveBuffer (Some (<[propertyKey (idOfDocument h (VParseObj r)) := m]> buffer))
          (externalSubscription s
           ++ [mkEmission event m
                 (<[propertyKey (idOfDocument h (VParseObj r)) := m]> buffer)])).
Proof. intros Hent Hbuf. unfold storeAndEmit. rewrite Hent, Hbuf. done. Qed.

Lemma onEvent_caches appClassnames ev fuel h r def type buffer s :
  cachesDocument ev = true →
  Classnames appClassnames (className (h !!! r)) = Some (RefDefinition def) →
  defType def = Some type →
  dataBuffer s = Some buffer →
  (4 ≤ fuel)%nat →
  ∃ m, afterSubUpdate appClassnames fuel h (VParseObj r) = Some m
    ∧ getProp m "entity" = VParseObj r
    ∧ onEvent appClassnames ev fuel h (VParseObj r) s
      = Ok (mkLiveBuffer
              (Some (<[propertyKey (idOfDocument h (VParseObj r)) := m]> buffer))
              (externalSubscription s
               ++ [mkEmission (eventLabel ev) m
                     (<[propertyKey (idOfDocument h (VParseObj r)) := m]> buffer)])).
Proof.
  intros Hev Hreg Htype Hbuf Hfuel.
  destruct (mapParseAttributesToEntityObject_terminates appClassnames fuel h (VParseObj r)
              0 defaultMaxDeep) as [m Hm]; [unfold defaultMaxDeep; lia..|].
  destruct (mapParseAttributesToEntityObject_shape _ _ _ _ _ _ _ _ _ Hreg Htype Hm)
    as (fs & -> & Hent).
  exists (VObject (ctorProto type) fs). split; [done|]. split; [done|].
  destruct ev; try done; cbn [onEvent eventLabel]; unfold onInsert, onUpdate, afterSubUpdate;
    rewrite ?Hbuf, Hm; cbn [truthy negb]; by apply storeAndEmit_run.
Qed.

(** X8.  A ['create'], ['enter'] or ['update'] event for a document of a
    registered class stores the hydrated document under the identifier of
    the document, replacing what was cached there or adding it, and emits
    the same event with it; the listener finds the cache already changed. *)
Theorem insert_event_caches_and_emits appClassnames ev fuel h r def type buffer s :
  cachesDocument ev = true →
  Classnames appClassnames (className (h !!! r)) = Some (RefDefinition def) →
  defType def = Some type →
  dataBuffer s = Some buffer →
  (4 ≤ fuel)%nat →
  ∃ m, afterSubUpdate appClassnames fuel h (VParseObj r) = Some m
    ∧ getProp m "entity" = VParseObj r
    ∧ onEvent appClassnames ev fuel h (VParseObj r) s
      = Ok (mkLiveBuffer
              (Some (<[propertyKey (idOfDocument h (VParseObj r)) := m]> buffer))
              (externalSubscription s
               ++ [mkEmission (eventLabel ev) m
                     (<[propertyKey (idOfDocument h (VParseObj r)) := m]> buffer)])).
Proof. apply onEvent_caches. Qed.

(** X9.  A ['create'], ['enter'] or ['update'] event for a document of a
    class the application does not register is dropped: the cache stays
    as it is and nothing is emitted. *)
Theorem event_of_unregistered_class_is_ignored appClassnames ev fuel h r s :
  cachesDocument ev = true →
  Classnames appClassnames (className (h !!! r)) = None →
  onEvent appClassnames ev (S fuel) h (VParseObj r) s = Ok s.
Proof.
  intros Hev Hnone.
  destruct ev; try done; cbn [onEvent]; unfold onInsert, onUpdate, afterSubUpdate;
    rewrite hydration_of_unregistered by done; cbn [truthy negb]; [done| |done].
  by destruct (dataBuffer s).
Qed.

(** X10.  A ['create'] followed by a ['delete'] or ['leave'] of the same
    document, whose identifier was not cached, leaves the cache as it was;
    both events are emitted with the hydrated document. *)
Theorem create_then_delete_restores_cache appClassnames ev fuel h r def type buffer s :
  removesReference ev = true →
  Classnames appClassnames (className (h !!! r)) = Some (RefDefinition def) →
  defType def = Some type →
  dataBuffer s = Some buffer →
  buffer !! propertyKey (idOfDocument h (VParseObj r)) = None →
  (4 ≤ fuel)%nat →
  ∃ m s1 s2,
    onEvent appClassnames EvCreate fuel h (VParseObj r) s = Ok s1
    ∧ onEvent appClassnames ev fuel h (VParseObj r) s1 = Ok s2
    ∧ dataBuffer s2 = Some buffer
    ∧ externalSubscription s2
      = externalSubscription s
        ++ [mkEmission "create" m (<[propertyKey (idOfDocument h (VParseObj r)) := m]> buffer);
            mkEmission (eventLabel ev) m
              (<[propertyKey (idOfDocument h (VParseObj r)) := m]> buffer)].
Proof.
  intros Hev Hreg Htype Hbuf Hfresh Hfuel.
  destruct (onEvent_caches appClassnames EvCreate fuel h r def type buffer s)
    as (m & _ & _ & Hcreate); try done.
  set (key := propertyKey (idOfDocument h (VParseObj r))) in *.
  exists m, (mkLiveBuffer (Some (<[key := m]> buffer))
               (externalSubscription s ++ [mkEmission "create" m (<[key := m]> buffer)])),
    (mkLiveBuffer (Some buffer)
       (externalSubscription s
        ++ [mkEmission "create" m (<[key := m]> buffer);
            mkEmission (eventLabel ev) m (<[key := m]> buffer)])).
  split; [exact Hcreate|]. split; [|done].
  destruct ev; try done; cbn [onEvent eventLabel]; unfold onRemove;
    cbn [idOf dataBuffer externalSubscription emit]; fold key;
    rewrite lookup_insert_eq, delete_insert_id by done; cbn [default];
    by rewrite <- app_assoc.
Qed.

(** ** Live buffer: concrete runs *)

Lemma populate_indexes_rows_by_identifier_witness :
  ∃ buffer,
    populate Example.appClassnames 4 Cases.cyclicHeap [VParseObj 1; VParseObj 2]
      Cases.emptyBuffer
      = Ok (mkLiveBuffer (Some buffer) [])
    ∧ (∀ key, is_Some (buffer !! key) ↔ key ∈ ["t0"; "t1"])
    ∧ (∀ key m, buffer !! key = Some m →
         (∃ i, [VParseObj 1; VParseObj 2] !! i = Some (getProp m "entity")
               ∧ ["t0"; "t1"] !! i = Some key)
         ∧ fetchObjectLocally Cases.cyclicHeap (Some buffer) m = m)
    ∧ (NoDup ["t0"; "t1"] → size buffer = 2%nat).
Proof.
  apply (populate_indexes_rows_by_identifier Example.appClassnames 4 Cases.cyclicHeap
           [VParseObj 1; VParseObj 2] ["t0"; "t1"] Cases.emptyBuffer); [lia|].
  repeat constructor.
  - exists 1%positive, (mkDefinition "Task" (Some Example.Task)), Example.Task.
    repeat split; vm_compute; reflexivity.
  - exists 2%positive, (mkDefinition "Task" (Some Example.Task)), Example.Task.
    repeat split; vm_compute; reflexivity.
Defined.

Lemma populate_raises_on_unregistered_row_witness :
  populate Example.appClassnames 4 Cases.strangerHeap [VParseObj 1; VParseObj 2]
    Cases.emptyBuffer
  = Throw TypeError.
Proof.
  apply (populate_raises_on_unregistered_row Example.appClassnames 4 Cases.strangerHeap
           [VParseObj 1; VParseObj 2] 2%positive Cases.emptyBuffer).
  - lia.
  - right. left.
  - vm_compute. reflexivity.
Defined.

Lemma insert_event_caches_and_emits_witness :
  ∃ m, afterSubUpdate Example.appClassnames 4 Cases.cyclicHeap (VParseObj 1) = Some m
    ∧ getProp m "entity" = VParseObj 1
    ∧ onEvent Example.appClassnames EvUpdate 4 Cases.cyclicHeap (VParseObj 1)
        Cases.emptyBuffer
      = Ok (mkLiveBuffer
              (Some (<[propertyKey (idOfDocument Cases.cyclicHeap (VParseObj 1)) := m]> ∅))
              ([] ++ [mkEmission "update" m
                        (<[propertyKey (idOfDocument Cases.cyclicHeap (VParseObj 1)) := m]> ∅)])).
Proof.
  apply (insert_event_caches_and_emits Example.appClassnames EvUpdate 4 Cases.cyclicHeap
           1%positive (mkDefinition "Task" (Some Example.Task)) Example.Task ∅
           Cases.emptyBuffer); first [lia | vm_compute; reflexivity].
Defined.

Lemma event_of_unregistered_class_is_ignored_witness :
  onEvent Example.appClassnames EvCreate 4 Cases.strangerHeap (VParseObj 2)
    Cases.emptyBuffer
  = Ok Cases.emptyBuffer.
Proof.
  apply (event_of_unregistered_class_is_ignored Example.appClassnames EvCreate 3
           Cases.strangerHeap 2%positive Cases.emptyBuffer); vm_compute; reflexivity.
Defined.

Lemma create_then_delete_restores_cache_witness :
  ∃ m s1 s2,
    onEvent Example.appClassnames EvCreate 4 Cases.cyclicHeap (VParseObj 1)
      Cases.emptyBuffer = Ok s1
    ∧ onEvent Example.appClassnames EvDelete 4 Cases.cyclicHeap (VParseObj 1) s1 = Ok s2
    ∧ dataBuffer s2 = Some ∅
    ∧ externalSubscription s2
      = [] ++ [mkEmission "create" m
                 (<[propertyKey (idOfDocument Cases.cyclicHeap (VParseObj 1)) := m]> ∅);
               mkEmission "delete" m
                 (<[propertyKey (idOfDocument Cases.cyclicHeap (VParseObj 1)) := m]> ∅)].
Proof.
  apply (create_then_delete_restores_cache Example.appClassnames EvDelete 4
           Cases.cyclicHeap 1%positive (mkDefinition "Task" (Some Example.Task))
           Example.Task ∅ Cases.emptyBuffer); first [lia | vm_compute; reflexivity].
Defined.

(** ** Patching cached objects from the events of another class *)

Lemma Props_set_set k v v' l : Props.set k v (Props.set k v' l) = Props.set k v l.
Proof.
  induction l as [|[k' v''] l IH]; simpl.
  - by rewrite decide_True.
  - destruct (decide (k = k')) as [->|Hne]; simpl.
    + by rewrite decide_True.
    + by rewrite decide_False, IH.
Qed.

Lemma Props_set_get k l : k ∈ l.*1 → Props.set k (Props.get k l) l = l.
Proof.
  induction l as [|[k' v'] l IH]; simpl; [by intros ?%elem_of_nil|].
  intros Hin. destruct (decide (k = k')) as [->|Hne]; [done|].
  apply elem_of_cons in Hin as [? | Hin]; [done|]. by rewrite IH.
Qed.

Lemma setProp_getProp o k v :
  getProp o k = v → v ≠ VUndefined → setProp o k v = o.
Proof.
  destruct o as [| | | | | | | | |p fs]; try done. cbn [getProp setProp].
  intros <- Hv. rewrite Props_set_get; [done|].
  apply Props_get_is_key in Hv. unfold Props.keys in Hv. by rewrite elem_of_remove_dups in Hv.
Qed.

Lemma setProp_setProp o k v v' : setProp (setProp o k v') k v = setProp o k v.
Proof. destruct o; try done. cbn [setProp]. by rewrite Props_set_set. Qed.

Lemma findIndexR_none {A} (p : A → Result bool) l :
  Forall (λ x, p x = Ok false) l → findIndexR p l = Ok None.
Proof.
  induction 1 as [|x l Hx _ IH]; cbn [findIndexR]; [done|]. by rewrite Hx, IH.
Qed.

Lemma findIndexR_first {A} (p : A → Result bool) pre x post :
  Forall (λ x, p x = Ok false) pre → p x = Ok true →
  findIndexR p (pre ++ x :: post) = Ok (Some (length pre)).
Proof.
  intros Hpre Hx. induction Hpre as [|y pre Hy _ IH]; cbn [findIndexR app length].
  - by rewrite Hx.
  - by rewrite Hy, IH.
Qed.

Lemma findIndexR_split {A} (p : A → Result bool) l :
  Forall (λ x, ∃ b, p x = Ok b) l →
  Forall (λ x, p x = Ok false) l
  ∨ ∃ pre x post, l = pre ++ x :: post
                  ∧ Forall (λ x, p x = Ok false) pre ∧ p x = Ok true.
Proof.
  induction 1 as [|x l [[|] Hx] _ [IH | (pre & y & post & -> & Hpre & Hy)]].
  - by left.
  - right. by exists [], x, l.
  - right. by exists [], x, (pre ++ y :: post).
  - left. by constructor.
  - right. exists (x :: pre), y, post. split; [done|]. split; [by constructor|done].
Qed.

Lemma sameEntityId_handles h reference x r rx :
  getProp reference "entity" = VParseObj r →
  getProp x "entity" = VParseObj rx →
  sameEntityId h reference x
  = Ok (bool_decide (objectId (h !!! rx) = objectId (h !!! r))).
Proof.
  intros Href Hx. unfold sameEntityId, entityIdOf.
  destruct x; try done. destruct reference; try done.
  cbn [isNullish]. rewrite Href, Hx. cbn [idOf idOfDocument]. by rewrite looseEq_idVal.
Qed.

Lemma sameEntityId_self h reference :
  carriesHandle reference → sameEntityId h reference reference = Ok true.
Proof.
  intros [r Hr]. rewrite (sameEntityId_handles h _ _ r r) by done.
  by rewrite bool_decide_eq_true_2.
Qed.

Lemma sameEntityId_decided h reference l :
  carriesHandle reference → Forall carriesHandle l →
  Forall (λ x, ∃ b, sameEntityId h reference x = Ok b) l.
Proof.
  intros [r Hr] Hl. eapply Forall_impl; [exact Hl|].
  intros x [rx Hx]. eexists. by apply (sameEntityId_handles h _ _ r rx).
Qed.

Lemma updateAttributeArrayOnSubscriptionUpdate_absent h attribute object reference l :
  getProp object attribute = VArr l →
  Forall (λ x, sameEntityId h reference x = Ok false) l →
  updateAttributeArrayOnSubscriptionUpdate h attribute object reference
  = Ok (setProp object attribute (VArr (l ++ [reference]))).
Proof.
  intros Hl Hnone. unfold updateAttributeArrayOnSubscriptionUpdate.
  rewrite Hl. destruct object; try done. cbn [isNullish truthy negb asArray].
  by rewrite findIndexR_none.
Qed.

Lemma updateAttributeArrayOnSubscriptionUpdate_present h attribute object reference
    pre x post :
  getProp object attribute = VArr (pre ++ x :: post) →
  Forall (λ x, sameEntityId h reference x = Ok false) pre →
  sameEntityId h reference x = Ok true →
  updateAttributeArrayOnSubscriptionUpdate h attribute object reference
  = Ok (setProp object attribute (VArr (pre ++ reference :: post))).
Proof.
  intros Hl Hpre Hx. unfold updateAttributeArrayOnSubscriptionUpdate.
  rewrite Hl. destruct object; try done. cbn [isNullish truthy negb asArray].
  rewrite findIndexR_first by done.
  rewrite insert_app_r_alt by done. by rewrite Nat.sub_diag.
Qed.

Lemma updateAttributeArrayOnSubscriptionDelete_present h attribute object reference
    pre x post :
  getProp object attribute = VArr (pre ++ x :: post) →
  Forall (λ x, sameEntityId h reference x = Ok false) pre →
  sameEntityId h reference x = Ok true →
  updateAttributeArrayOnSubscriptionDelete h attribute object reference
  = Ok (setProp object attribute (VArr (pre ++ post))).
Proof.
  intros Hl Hpre Hx. unfold updateAttributeArrayOnSubscriptionDelete.
  rewrite Hl. destruct object; try done. cbn [isNullish truthy negb asArray].
  rewrite findIndexR_first by done.
  by rewrite delete_middle.
Qed.

Lemma getProp_setProp_object o k l v :
  getProp o k = VArr l → getProp (setProp o k v) k = v.
Proof. destruct o; try done. intros _. apply Props_get_set_eq. Qed.

(** X11.  Putting a referenced object into an array attribute replaces
    the first element of its identifier or appends it: the array then
    holds the object, has grown by at most one element, and putting the
    same object again changes nothing. *)
Theorem array_upsert_is_idempotent h attribute object reference l :
  getProp object attribute = VArr l →
  Forall carriesHandle l →
  carriesHandle reference →
  ∃ l',
    updateAttributeArrayOnSubscriptionUpdate h attribute object reference
      = Ok (setProp object attribute (VArr l'))
    ∧ reference ∈ l'
    ∧ (length l ≤ length l' ≤ length l + 1)%nat
    ∧ updateAttributeArrayOnSubscriptionUpdate h attribute
        (setProp object attribute (VArr l')) reference
      = Ok (setProp object attribute (VArr l')).
Proof.
  intros Hl Hhandles Href.
  pose proof (sameEntityId_self h reference Href) as Hself.
  destruct (findIndexR_split _ _ (sameEntityId_decided h reference l Href Hhandles))
    as [Hnone | (pre & x & post & -> & Hpre & Hx)].
  - exists (l ++ [reference]). split; [by apply updateAttributeArrayOnSubscriptionUpdate_absent|].
    split; [apply elem_of_app; right; left|]. split; [rewrite length_app; simpl; lia|].
    rewrite (updateAttributeArrayOnSubscriptionUpdate_present h attribute _ reference
               l reference []); [by rewrite setProp_setProp|by eapply getProp_setProp_object|done..].
  - exists (pre ++ reference :: post).
    split; [by apply (updateAttributeArrayOnSubscriptionUpdate_present h attribute object
                         reference pre x post)|].
    split; [apply elem_of_app; right; left|].
    split; [rewrite !length_app; simpl; lia|].
    rewrite (updateAttributeArrayOnSubscriptionUpdate_present h attribute _ reference
               pre reference post); [by rewrite setProp_setProp|by eapply getProp_setProp_object|done..].
Qed.

(** X12.  Removing a referenced object right after it was put into an
    array that held no element of its identifier gives back the object as
    it was. *)
Theorem array_delete_undoes_upsert_of_new_element h attribute object reference l :
  getProp object attribute = VArr l →
  Forall (λ x, sameEntityId h reference x = Ok false) l →
  carriesHandle reference →
  ∃ patched,
    updateAttributeArrayOnSubscriptionUpdate h attribute object reference = Ok patched
    ∧ getProp patched attribute = VArr (l ++ [reference])
    ∧ updateAttributeArrayOnSubscriptionDelete h attribute patched reference = Ok object.
Proof.
  intros Hl Hnone Href.
  exists (setProp object attribute (VArr (l ++ [reference]))).
  split; [by apply updateAttributeArrayOnSubscriptionUpdate_absent|].
  split; [by eapply getProp_setProp_object|].
  rewrite (updateAttributeArrayOnSubscriptionDelete_present h attribute _ reference
             l reference []);
    [|by eapply getProp_setProp_object|done|by apply sameEntityId_self].
  rewrite setProp_setProp, app_nil_r. by rewrite setProp_getProp.
Qed.

(** X13.  Removal takes out the first element of the identifier and no
    other: what follows it stays, elements of the same identifier
    included. *)
Theorem array_delete_removes_first_match_only h attribute object reference pre x post :
  getProp object attribute = VArr (pre ++ x :: post) →
  Forall (λ x, sameEntityId h reference x = Ok false) pre →
  sameEntityId h reference x = Ok true →
  updateAttributeArrayOnSubscriptionDelete h attribute object reference
  = Ok (setProp object attribute (VArr (pre ++ post)))
  ∧ ∀ y, y ∈ post → y ∈ arrayElems (getProp (setProp object attribute (VArr (pre ++ post)))
                                      attribute).
Proof.
  intros Hl Hpre Hx.
  split; [by apply (updateAttributeArrayOnSubscriptionDelete_present h attribute object
                      reference pre x post)|].
  intros y Hy. rewrite (getProp_setProp_object _ _ _ _ Hl). cbn [arrayElems].
  apply elem_of_app. by right.
Qed.


(** X14.  An event of the other class for which the lookup finds a cached
    object patches the attribute of that object (the pushed object on
    ['update'], ['create'] and ['enter'], nothing on ['delete'] and
    ['leave']), stores the object under its identifier and, once the
    emitter exists, emits ['update'] with it, whatever the event was. *)
Theorem attribute_event_patches_cache_and_emits_update
    (findObjectToUpdateCallback : string → Val → Result Val) subscribed attribute ev h
    object s found r buffer :
  ev ≠ EvOpen →
  findObjectToUpdateCallback attribute object = Ok found →
  getProp found "entity" = VParseObj r →
  attribute ≠ "entity" →
  dataBuffer s = Some buffer →
  ∃ patched,
    subscripeAttributeUpdate findObjectToUpdateCallback subscribed attribute ev h object s
    = Ok (mkLiveBuffer
            (Some (<[propertyKey (idOfDocument h (VParseObj r)) := patched]> buffer))
            (externalSubscription s
             ++ (if subscribed
                 then [mkEmission "update" patched
                         (<[propertyKey (idOfDocument h (VParseObj r)) := patched]> buffer)]
                 else [])))
    ∧ getProp patched attribute = (if removesReference ev then VUndefined else object)
    ∧ ∀ k, k ≠ attribute → getProp patched k = getProp found k.
Proof.
  intros Hev Hfound Hent Hattr Hbuf.
  destruct found as [| | | | | | | | |p fs]; try done.
  set (patched := if removesReference ev
                  then deleteProp (VObject p fs) attribute
                  else setProp (VObject p fs) attribute object).
  assert (getProp patched "entity" = VParseObj r) as Hent'.
  { unfold patched. destruct (removesReference ev); cbn.
    - by rewrite Props_get_delete_ne by done.
    - by rewrite Props_get_set_ne by done. }
  exists patched. split; [|split].
  - assert (subscripeAttributeUpdate findObjectToUpdateCallback subscribed attribute ev h
              object s = storeThenEmitUpdate subscribed h patched s) as ->.
    { destruct ev; try done; cbn [subscripeAttributeUpdate]; by rewrite Hfound. }
    unfold storeThenEmitUpdate. rewrite Hent', Hbuf. cbn [idOf].
    destruct subscribed; [done|]. by rewrite app_nil_r.
  - unfold patched. destruct (removesReference ev); cbn.
    + apply Props_get_delete_eq.
    + apply Props_get_set_eq.
  - intros k Hk. unfold patched. destruct (removesReference ev); cbn.
    + by apply Props_get_delete_ne.
    + by apply Props_get_set_ne.
Qed.


(** ** Patching: concrete runs *)

Lemma array_upsert_is_idempotent_witness :
  ∃ l',
    updateAttributeArrayOnSubscriptionUpdate Cases.twinsHeap "tasks" Cases.project
      (Cases.taskObject "renamed" 1)
      = Ok (setProp Cases.project "tasks" (VArr l'))
    ∧ Cases.taskObject "renamed" 1 ∈ l'
    ∧ (length [Cases.taskObject "one" 1] ≤ length l'
       ≤ length [Cases.taskObject "one" 1] + 1)%nat
    ∧ updateAttributeArrayOnSubscriptionUpdate Cases.twinsHeap "tasks"
        (setProp Cases.project "tasks" (VArr l')) (Cases.taskObject "renamed" 1)
      = Ok (setProp Cases.project "tasks" (VArr l')).
Proof.
  apply (array_upsert_is_idempotent Cases.twinsHeap "tasks" Cases.project
           (Cases.taskObject "renamed" 1) [Cases.taskObject "one" 1]).
  - reflexivity.
  - repeat constructor. by exists 1%positive.
  - by exists 1%positive.
Defined.

Lemma array_delete_undoes_upsert_of_new_element_witness :
  ∃ patched,
    updateAttributeArrayOnSubscriptionUpdate Cases.twinsHeap "tasks" Cases.project
      (Cases.taskObject "two" 2) = Ok patched
    ∧ getProp patched "tasks"
      = VArr ([Cases.taskObject "one" 1] ++ [Cases.taskObject "two" 2])
    ∧ updateAttributeArrayOnSubscriptionDelete Cases.twinsHeap "tasks" patched
        (Cases.taskObject "two" 2) = Ok Cases.project.
Proof.
  apply (array_delete_undoes_upsert_of_new_element Cases.twinsHeap "tasks" Cases.project
           (Cases.taskObject "two" 2) [Cases.taskObject "one" 1]).
  - reflexivity.
  - repeat constructor.
  - by exists 2%positive.
Defined.

Lemma array_delete_removes_first_match_only_witness :
  updateAttributeArrayOnSubscriptionDelete Cases.twinsHeap "tasks" Cases.projectWithTwins
    (Cases.taskObject "two" 2)
  = Ok (setProp Cases.projectWithTwins "tasks"
          (VArr ([Cases.taskObject "one" 1] ++ [Cases.taskObject "three" 3])))
  ∧ ∀ y, y ∈ [Cases.taskObject "three" 3] →
         y ∈ arrayElems
               (getProp (setProp Cases.projectWithTwins "tasks"
                           (VArr ([Cases.taskObject "one" 1] ++ [Cases.taskObject "three" 3])))
                  "tasks").
Proof.
  apply (array_delete_removes_first_match_only Cases.twinsHeap "tasks"
           Cases.projectWithTwins (Cases.taskObject "two" 2)
           [Cases.taskObject "one" 1] (Cases.taskObject "two" 2)
           [Cases.taskObject "three" 3]).
  - reflexivity.
  - repeat constructor.
  - reflexivity.
Defined.

Lemma attribute_event_patches_cache_and_emits_update_witness :
  ∃ patched,
    subscripeAttributeUpdate (λ _ _, Ok (Cases.taskObject "one" 1)) true "owner" EvLeave
      Cases.twinsHeap (Cases.taskObject "two" 2) Cases.emptyBuffer
    = Ok (mkLiveBuffer
            (Some (<[propertyKey (idOfDocument Cases.twinsHeap (VParseObj 1)) := patched]> ∅))
            ([] ++ [mkEmission "update" patched
                      (<[propertyKey (idOfDocument Cases.twinsHeap (VParseObj 1)) := patched]> ∅)]))
    ∧ getProp patched "owner" = VUndefined
    ∧ ∀ k, k ≠ "owner" → getProp patched k = getProp (Cases.taskObject "one" 1) k.
Proof.
  apply (attribute_event_patches_cache_and_emits_update
           (λ _ _, Ok (Cases.taskObject "one" 1)) true "owner" EvLeave Cases.twinsHeap
           (Cases.taskObject "two" 2) Cases.emptyBuffer (Cases.taskObject "one" 1)
           1%positive ∅); try reflexivity; intros [=].
Defined.


(** ** Flattening: what it leaves alone *)

Lemma frames_ret {A} (R : World → World → Prop) (Q : A → Prop) a :
  (∀ w, R w w) → Q a → frames R Q (ret a).
Proof. intros Hrefl Ha w res w' [= <- <-]. split; [done|]. split; [by intros ? [= <-]|done]. Qed.

Lemma frames_throw {A} (R : World → World → Prop) (Q : A → Prop) e :
  (∀ w, R w w) → frames R Q (throw e).
Proof. intros Hrefl w res w' [= <- <-]. by split. Qed.

Lemma frames_liftResult {A} (R : World → World → Prop) (Q : A → Prop) r :
  (∀ w, R w w) → r ≠ OutOfFuel → (∀ a, r = Ok a → Q a) → frames R Q (liftResult r).
Proof. intros Hrefl Hr Hq w res w' [= <- <-]. by split. Qed.

Lemma frames_bind {A B} (R : World → World → Prop) (Q1 : A → Prop) (Q2 : B → Prop)
    (c : Op A) (k : A → Op B) :
  (∀ w1 w2 w3, R w1 w2 → R w2 w3 → R w1 w3) →
  frames R Q1 c → (∀ a, Q1 a → frames R Q2 (k a)) → frames R Q2 (bind c k).
Proof.
  intros Htrans Hc Hk w res w'. unfold bind.
  destruct (c w) as [ra w1] eqn:Hrun. destruct (Hc _ _ _ Hrun) as (HR & HQ & Hfuel).
  destruct ra as [a| |]; [|by intros [= <- <-]|done].
  intros Hrest. destruct (Hk a (HQ a eq_refl) _ _ _ Hrest) as (HR' & HQ' & Hfuel').
  split; [by eapply Htrans|done].
Qed.

Lemma frames_weaken {A} (R R' : World → World → Prop) (Q Q' : A → Prop) c :
  (∀ w w', R w w' → R' w w') → (∀ a, Q a → Q' a) → frames R Q c → frames R' Q' c.
Proof.
  intros HR HQ Hc w res w' Hrun. destruct (Hc _ _ _ Hrun) as (? & Hq & ?).
  split; [by apply HR|]. split; [|done]. intros a Ha. by apply HQ, Hq.
Qed.

Lemma frames_foldM {A B} (R : World → World → Prop) (I : B → Prop)
    (f : B → A → Op B) l b :
  (∀ w, R w w) → (∀ w1 w2 w3, R w1 w2 → R w2 w3 → R w1 w3) →
  (∀ b x, I b → frames R I (f b x)) → I b → frames R I (foldM f l b).
Proof.
  intros Hrefl Htrans Hf. revert b. induction l as [|x l IH]; intros b Hb; cbn [foldM].
  - by apply frames_ret.
  - eapply frames_bind; [done|by apply Hf|]. intros b' Hb'. by apply IH.
Qed.

Lemma flattensInto_refl p keep w : flattensInto p keep w w.
Proof. repeat split; try done. Qed.

Lemma flattensInto_trans p keep w1 w2 w3 :
  flattensInto p keep w1 w2 → flattensInto p keep w2 w3 → flattensInto p keep w1 w3.
Proof.
  intros (Hc1 & Hn1 & Hs1 & Ho1 & Hk1) (Hc2 & Hn2 & Hs2 & Ho2 & Hk2).
  split; [congruence|]. split; [congruence|]. split; [by eapply sameDocs_trans|].
  split.
  - intros r Hr. by rewrite Ho2, Ho1.
  - intros k Hk. by rewrite Hk2, Hk1.
Qed.

Lemma flattensInto_weaken p (keep keep' : string → Prop) w w' :
  (∀ k, keep' k → keep k) → flattensInto p keep w w' → flattensInto p keep' w w'.
Proof.
  intros Hsub (Hc & Hn & Hs & Ho & Hk). repeat split; try done; try apply Hs.
  intros k Hk'. by apply Hk, Hsub.
Qed.

Lemma frames_keep {A} p (keep keep' : string → Prop) (Q : A → Prop) c :
  (∀ k, keep' k → keep k) →
  frames (flattensInto p keep) Q c → frames (flattensInto p keep') Q c.
Proof.
  intros Hsub. apply frames_weaken; [|done].
  intros w w'. by apply flattensInto_weaken.
Qed.

Lemma flattensInto_withAttributes p q f w :
  (∀ k l, k ≠ q → Props.get k (f l) = Props.get k l) →
  flattensInto p (λ k, k ≠ q) w
    (mkWorld (withAttributes f p (heap w)) (console w) (network w)).
Proof.
  intros Hf. split; [done|]. split; [done|]. split; [apply withAttributes_sameDocs|].
  split.
  - intros r Hr. unfold withAttributes. cbn [heap]. by rewrite lookup_insert_ne.
  - intros k Hk. unfold attr. cbn [heap]. rewrite withAttributes_get. by apply Hf.
Qed.

Lemma flattensInto_set p q v w :
  flattensInto p (λ k, k ≠ q) w
    (mkWorld (withAttributes (Props.set q v) p (heap w)) (console w) (network w)).
Proof. apply flattensInto_withAttributes. intros k l Hk. by apply Props_get_set_ne. Qed.

Lemma frames_parseSet p q v :
  frames (flattensInto p (λ k, k ≠ q)) (λ _ : unit, True) (parseSet p q v).
Proof.
  intros w res w'. rewrite parseSet_run. intros [= <- <-].
  split; [apply flattensInto_set|done].
Qed.

Lemma frames_parseUnset p q :
  frames (flattensInto p (λ k, k ≠ q)) (λ _ : unit, True) (parseUnset p q).
Proof.
  intros w res w'. rewrite parseUnset_run. intros [= <- <-]. split; [|done].
  apply flattensInto_withAttributes. intros k l Hk. by apply Props_get_delete_ne.
Qed.

Lemma frames_parseAddUnique store p q x :
  frames (flattensInto p (λ k, k ≠ q)) (λ _ : bool, True) (parseAddUnique store p q x).
Proof.
  intros w res w'. unfold parseAddUnique.
  destruct (storeAccepts store w p q x); cbn [negb].
  - destruct (Props.get q (attributes (heap w !!! p))); intros [= <- <-];
      (split; [first [apply flattensInto_set | apply flattensInto_refl]|done]).
  - intros [= <- <-]. split; [apply flattensInto_refl|done].
Qed.

Lemma frames_parseRemove store p q x :
  frames (flattensInto p (λ k, k ≠ q)) (λ _ : bool, True) (parseRemove store p q x).
Proof.
  intros w res w'. unfold parseRemove.
  destruct (storeAccepts store w p q x); cbn [negb].
  - destruct (Props.get q (attributes (heap w !!! p))); intros [= <- <-];
      (split; [first [apply flattensInto_set | apply flattensInto_refl]|done]).
  - intros [= <- <-]. split; [apply flattensInto_refl|done].
Qed.

Lemma frames_parseAddAllUnique store p q xs :
  frames (flattensInto p (λ k, k ≠ q)) (λ _ : unit, True) (parseAddAllUnique store p q xs).
Proof.
  intros w res w'. unfold parseAddAllUnique.
  destruct (storeAccepts store w p q (VArr xs)); cbn [negb].
  - destruct (Props.get q (attributes (heap w !!! p))); intros [= <- <-];
      (split; [first [apply flattensInto_set | apply flattensInto_refl]|done]).
  - intros [= <- <-]. split; [apply flattensInto_refl|done].
Qed.

Lemma someR_sameId_fuel h x l : someR (λ y, sameId h x y) l ≠ OutOfFuel.
Proof.
  induction l as [|y l IH]; cbn [someR]; [done|].
  unfold sameId at 1. destruct (idOf h y) as [iy| |] eqn:Hy; [|done|by destruct y].
  destruct (idOf h x) as [ix| |] eqn:Hx; [|done|by destruct x].
  by destruct (looseEq iy ix).
Qed.

Lemma filterR_fuel {A} (p : A → Result bool) l :
  (∀ x, p x ≠ OutOfFuel) → filterR p l ≠ OutOfFuel.
Proof.
  intros Hp. induction l as [|x l IH]; cbn [filterR]; [done|].
  specialize (Hp x). destruct (p x) as [b| |]; [|done|done].
  by destruct (filterR p l).
Qed.

Lemma toRemove_fuel h current desired : toRemove h current desired ≠ OutOfFuel.
Proof.
  apply filterR_fuel. intros x. pose proof (someR_sameId_fuel h x desired) as H.
  by destruct (someR _ desired).
Qed.

Lemma toAdd_fuel h current desired : toAdd h current desired ≠ OutOfFuel.
Proof.
  apply filterR_fuel. intros x. pose proof (someR_sameId_fuel h x current) as H.
  by destruct (someR _ current).
Qed.

Lemma frames_applyToAdd store p q xs :
  frames (flattensInto p (λ k, k ≠ q)) (λ p', p' = p) (applyToAdd store q p xs).
Proof.
  unfold applyToAdd.
  apply (frames_foldM _ (λ p', p' = p));
    [apply flattensInto_refl|apply flattensInto_trans| |done].
  intros ? x ->. eapply frames_bind; [apply flattensInto_trans|apply frames_parseAddUnique|].
  intros [|] _; [by apply frames_ret; [apply flattensInto_refl|]|].
  apply frames_throw, flattensInto_refl.
Qed.

Lemma frames_applyToRemove store p q xs :
  frames (flattensInto p (λ k, k ≠ q)) (λ p', p' = p) (applyToRemove store q p xs).
Proof.
  unfold applyToRemove.
  apply (frames_foldM _ (λ p', p' = p));
    [apply flattensInto_refl|apply flattensInto_trans| |done].
  intros ? x ->. eapply frames_bind; [apply flattensInto_trans|apply frames_parseRemove|].
  intros [|] _; [by apply frames_ret; [apply flattensInto_refl|]|].
  apply frames_throw, flattensInto_refl.
Qed.

Lemma frames_mappingsArray store p q parseAttributes :
  frames (flattensInto p (λ k, k ≠ q)) (λ p', p' = p)
    (mappingsArray store q p parseAttributes).
Proof.
  unfold mappingsArray. destruct (isReferenceArray (VArr parseAttributes)).
  - intros w. unfold bind at 1. unfold getHeap.
    destruct (truthy (parseGet (heap w) (VParseObj p) q)).
    + revert w. change (frames (flattensInto p (λ k, k ≠ q)) (λ p', p' = p)
        (λ w, (do currentArray <- liftResult (asArray (parseGet (heap w) (VParseObj p) q));
               do removed <- liftResult (toRemove (heap w) currentArray parseAttributes);
               do added <- liftResult (toAdd (heap w) currentArray parseAttributes);
               do parseObject <- applyToAdd store q p added;
               applyToRemove store q parseObject removed) w)).
      intros w. 
      apply (frames_bind _ (λ _, True)); [apply flattensInto_trans| |].
      { apply frames_liftResult; [apply flattensInto_refl| |done].
        by destruct (parseGet (heap w) (VParseObj p) q). }
      intros currentArray _.
      apply (frames_bind _ (λ _, True)); [apply flattensInto_trans| |].
      { apply frames_liftResult; [apply flattensInto_refl|apply toRemove_fuel|done]. }
      intros removed _.
      apply (frames_bind _ (λ _, True)); [apply flattensInto_trans| |].
      { apply frames_liftResult; [apply flattensInto_refl|apply toAdd_fuel|done]. }
      intros added _.
      eapply frames_bind; [apply flattensInto_trans|apply frames_applyToAdd|].
      intros ? ->. apply frames_applyToRemove.
    + revert w. change (frames (flattensInto p (λ k, k ≠ q)) (λ p', p' = p)
        (parseAddAllUnique store p q parseAttributes;; ret p)).
      eapply frames_bind; [apply flattensInto_trans|apply frames_parseAddAllUnique|].
      intros _ _. by apply frames_ret; [apply flattensInto_refl|].
  - eapply frames_bind; [apply flattensInto_trans|apply frames_parseSet|].
    intros _ _. by apply frames_ret; [apply flattensInto_refl|].
Qed.

Lemma frames_mappingsProperty store o st q :
  frames (flattensInto (msParseObject st) (λ k, k ≠ q))
    (λ st', msParseObject st' = msParseObject st) (mappingsProperty store o st q).
Proof.
  unfold mappingsProperty. case_decide; [by apply frames_ret; [apply flattensInto_refl|]|].
  apply (frames_bind _ (λ st', msParseObject st' = msParseObject st));
    [apply flattensInto_trans| |].
  - destruct (isNullish (getProp o q)); cbn [negb];
      [by apply frames_ret; [apply flattensInto_refl|]|].
    destruct (getProp o q) as [| | | | | |elems| | |];
      try (eapply frames_bind; [apply flattensInto_trans|apply frames_parseSet|];
           intros _ _; by apply frames_ret; [apply flattensInto_refl|]).
    eapply frames_bind; [apply flattensInto_trans|apply frames_mappingsArray|].
    intros ? ->. by apply frames_ret; [apply flattensInto_refl|].
  - intros st1 Hst1. destruct (isNullish (getProp o q)).
    + rewrite Hst1. eapply frames_bind; [apply flattensInto_trans|apply frames_parseUnset|].
      intros _ _. by apply frames_ret; [apply flattensInto_refl|].
    + by apply frames_ret; [apply flattensInto_refl|].
Qed.

Lemma frames_mappings_loop store o ks st :
  frames (flattensInto (msParseObject st) (λ k, k ∉ ks))
    (λ st', msParseObject st' = msParseObject st)
    (foldM (mappingsProperty store o) ks st).
Proof.
  revert st. induction ks as [|q ks IH]; intros st; cbn [foldM].
  - by apply frames_ret; [apply flattensInto_refl|].
  - apply (frames_bind _ (λ st', msParseObject st' = msParseObject st));
      [apply flattensInto_trans| |].
    + eapply frames_keep; [|apply frames_mappingsProperty].
      intros k Hk ->. apply Hk. left.
    + intros st1 Hst1. rewrite <- Hst1.
      eapply frames_keep; [|apply IH].
      intros k Hk Hin. apply Hk. by right.
Qed.

(** The part of [mappings] that follows the choice of the document. *)
Lemma frames_mappings_from store o p :
  frames (flattensInto p (λ k, (k ∉ forIn o) ∧ notBookkeeping k)) (λ a, a = p)
    (do st <- foldM (mappingsProperty store o) (forIn o) (mkMappingState p [] []);
     parseSet (msParseObject st) "entityArrayProperties"
       (VArr (VStr <$> msEntityArrayProperties st));;
     parseSet (msParseObject st) "entityProperties"
       (VArr (VStr <$> msEntityProperties st));;
     ret (msParseObject st)).
Proof.
  apply (frames_bind _ (λ st', msParseObject st' = p)); [apply flattensInto_trans| |].
  - eapply frames_keep; [|apply (frames_mappings_loop store o (forIn o)
                                    (mkMappingState p [] []))].
    by intros k [? _].
  - intros st ->.
    apply (frames_bind _ (λ _, True)); [apply flattensInto_trans| |].
    { eapply frames_keep; [|apply frames_parseSet]. by intros k [_ [? _]]. }
    intros _ _.
    apply (frames_bind _ (λ _, True)); [apply flattensInto_trans| |].
    { eapply frames_keep; [|apply frames_parseSet]. by intros k [_ [_ ?]]. }
    intros _ _. by apply frames_ret; [apply flattensInto_refl|].
Qed.

Lemma mappings_create_unfold store classname o w :
  isNullish (getProp o "entity") = true →
  mappings store classname o w
  = (do st <- foldM (mappingsProperty store o) (forIn o)
                (mkMappingState (fresh (dom (heap w))) [] []);
     parseSet (msParseObject st) "entityArrayProperties"
       (VArr (VStr <$> msEntityArrayProperties st));;
     parseSet (msParseObject st) "entityProperties"
       (VArr (VStr <$> msEntityProperties st));;
     ret (msParseObject st))
      (mkWorld
         (withAttributes (Props.set "classname" (VStr classname)) (fresh (dom (heap w)))
            (<[fresh (dom (heap w)) := mkParseObject classname None []]> (heap w)))
         (console w) (network w)).
Proof. intros Hnew. unfold mappings. rewrite Hnew. reflexivity. Qed.

Lemma mappings_frame store classname o w res w' :
  mappings store classname o w = (res, w') →
  console w' = console w
  ∧ network w' = network w
  ∧ (∀ r, r ≠ mappingsTarget o w → heap w' !! r = heap w !! r)
  ∧ res ≠ OutOfFuel
  ∧ (∀ p, res = Ok p → p = mappingsTarget o w)
  ∧ (∀ r, getProp o "entity" = VParseObj r →
       className (heap w' !!! r) = className (heap w !!! r)
       ∧ objectId (heap w' !!! r) = objectId (heap w !!! r)
       ∧ ∀ k, k ∉ forIn o → notBookkeeping k → attr w' r k = attr w r k).
Proof.
  unfold mappingsTarget. intros Hrun.
  destruct (isNullish (getProp o "entity")) eqn:Hnew.
  - rewrite mappings_create_unfold in Hrun by done.
    apply frames_mappings_from in Hrun as ((Hc & Hn & _ & Ho & _) & Hq & Hfuel).
    cbn [heap console network] in *.
    assert (∀ r, getProp o "entity" ≠ VParseObj r) as Hnot by (intros r Hr; by rewrite Hr in Hnew).
    assert (mappingsTarget o w = fresh (dom (heap w))) as Htarget.
    { unfold mappingsTarget. by destruct (getProp o "entity"). }
    unfold mappingsTarget in Htarget. rewrite Htarget.
    split; [done|]. split; [done|]. split; [|split; [done|split; [done|]]].
    + intros r Hr. rewrite (Ho r Hr). unfold withAttributes. by rewrite !lookup_insert_ne.
    + intros r Hr. by destruct (Hnot r).
  - unfold mappings in Hrun. rewrite Hnew in Hrun. cbn [negb] in Hrun.
    destruct (getProp o "entity") as [| | | | | | | |r|] eqn:Hent; try done;
      try (injection Hrun as <- <-; by repeat split).
    apply frames_mappings_from in Hrun as ((Hc & Hn & Hs & Ho & Hk) & Hq & Hfuel).
    split; [done|]. split; [done|]. split; [done|]. split; [done|]. split; [done|].
    intros ? [= <-]. destruct (Hs r) as [-> ->]. split; [done|]. split; [done|].
    intros k Hk1 Hk2. by apply Hk.
Qed.

(** X16.  Whatever its outcome, [mappings] writes no line to the console,
    makes no network call and changes no document but its target: the
    handle of the object, or the document it creates.  It is never cut
    short, a document it returns is that target, and on an object with a
    handle the class, the identifier and every attribute that is neither
    a field of the object nor a bookkeeping name stay as they were. *)
Theorem mappings_touches_only_its_document store classname o w res w' :
  mappings store classname o w = (res, w') →
  console w' = console w
  ∧ network w' = network w
  ∧ (∀ r, r ≠ mappingsTarget o w → heap w' !! r = heap w !! r)
  ∧ res ≠ OutOfFuel
  ∧ (∀ p, res = Ok p → p = mappingsTarget o w)
  ∧ (∀ r, getProp o "entity" = VParseObj r →
       className (heap w' !!! r) = className (heap w !!! r)
       ∧ objectId (heap w' !!! r) = objectId (heap w !!! r)
       ∧ ∀ k, k ∉ forIn o → notBookkeeping k → attr w' r k = attr w r k).
Proof. apply mappings_frame. Qed.

Lemma mappingsProperty_written store o st q w st' w' :
  mappingsProperty store o st q w = (Ok st', w') →
  q ≠ "entity" →
  writtenDirectly (getProp o q) = true →
  attr w' (msParseObject st) q = flattened (getProp o q).
Proof.
  unfold mappingsProperty, flattened, writtenDirectly. intros Hrun Hq.
  rewrite decide_False in Hrun by done.
  destruct (getProp o q) as [| | | | | |elems| | |] eqn:Hv; cbn [isNullish negb] in *;
    intros Hdirect;
    try (injection Hrun as <- <-; first [apply attr_set |
           unfold attr; cbn [heap]; rewrite withAttributes_get; apply Props_get_delete_eq]).
  apply negb_true_iff in Hdirect.
  unfold mappingsArray in Hrun. rewrite Hdirect in Hrun.
  injection Hrun as <- <-. apply attr_set.
Qed.

Lemma mappings_loop_written store o ks st w st' w' :
  NoDup ks →
  foldM (mappingsProperty store o) ks st w = (Ok st', w') →
  msParseObject st' = msParseObject st
  ∧ ∀ k, k ∈ ks → k ≠ "entity" → writtenDirectly (getProp o k) = true →
         attr w' (msParseObject st) k = flattened (getProp o k).
Proof.
  intros Hnodup. revert st w. induction Hnodup as [|q ks Hq Hnodup IH]; intros st w; cbn [foldM].
  - intros [= <- <-]. split; [done|]. by intros k ?%elem_of_nil.
  - intros (st1 & w1 & Hstep & Hrest)%bind_Ok.
    destruct (frames_mappingsProperty store o st q _ _ _ Hstep) as (_ & Hst1 & _).
    specialize (Hst1 st1 eq_refl).
    destruct (frames_mappings_loop store o ks st1 _ _ _ Hrest) as ((_ & _ & _ & _ & Hkeep) & _ & _).
    destruct (IH _ _ Hrest) as [Hst' Hin]. rewrite Hst1 in *.
    split; [done|]. intros k Hk Hne Hdirect.
    destruct (decide (k ∈ ks)) as [Hks|Hks]; [by apply Hin|].
    apply elem_of_cons in Hk as [-> | ?]; [|done].
    rewrite (Hkeep q Hks). by eapply mappingsProperty_written.
Qed.

Lemma forIn_NoDup o : NoDup (forIn o).
Proof. destruct o; try apply NoDup_nil_2. apply NoDup_remove_dups. Qed.

Lemma mappings_from_written store o p w a w' :
  (do st <- foldM (mappingsProperty store o) (forIn o) (mkMappingState p [] []);
   parseSet (msParseObject st) "entityArrayProperties"
     (VArr (VStr <$> msEntityArrayProperties st));;
   parseSet (msParseObject st) "entityProperties"
     (VArr (VStr <$> msEntityProperties st));;
   ret (msParseObject st)) w = (Ok a, w') →
  a = p
  ∧ ∀ k, k ∈ forIn o → k ≠ "entity" → notBookkeeping k →
         writtenDirectly (getProp o k) = true → attr w' p k = flattened (getProp o k).
Proof.
  intros (st & w1 & Hloop & Htail)%bind_Ok.
  destruct (mappings_loop_written _ _ _ _ _ _ _ (forIn_NoDup o) Hloop) as [Hst Hin].
  cbn [msParseObject] in *. rewrite Hst in Htail.
  apply bind_Ok in Htail as ([] & w2 & H1 & Htail). rewrite parseSet_run in H1.
  injection H1 as <-.
  apply bind_Ok in Htail as ([] & w3 & H2 & Htail). rewrite parseSet_run in H2.
  injection H2 as <-. injection Htail as <- <-.
  split; [done|]. intros k Hk Hne [Hb1 Hb2] Hdirect. unfold attr. cbn [heap].
  rewrite withAttributes_get, Props_get_set_ne by done.
  rewrite withAttributes_get, Props_get_set_ne by done.
  by apply Hin.
Qed.

(** X17.  When [mappings] returns, the document holds, under the name of
    every field of the object that is neither the handle nor a
    bookkeeping name nor a reference array, the flattened value of the
    field: nothing for a nullish field, the pointer for a referenced
    object, the mapped elements for an array, the value otherwise. *)
Theorem mappings_writes_flattened_fields store classname o w p w' :
  mappings store classname o w = (Ok p, w') →
  ∀ k, k ∈ forIn o → k ≠ "entity" → notBookkeeping k →
       writtenDirectly (getProp o k) = true →
       attr w' p k = flattened (getProp o k).
Proof.
  unfold mappings. intros (p0 & w1 & _ & Hrest)%bind_Ok.
  apply mappings_from_written in Hrest as [-> Hin]. exact Hin.
Qed.

(** ** Flattening: concrete runs *)

Lemma mappings_touches_only_its_document_witness :
  let o := VObject (EntityObjectProto "Task")
             [("title", VStr "renamed"); ("child", VNull); ("entity", VParseObj 1)] in
  let w := mkWorld Example.chainHeap [] [] in
  let run := mappings Example.rejectingStore "Task" o w in
  console run.2 = console w
  ∧ network run.2 = network w
  ∧ (∀ r, r ≠ mappingsTarget o w → heap run.2 !! r = heap w !! r)
  ∧ run.1 ≠ OutOfFuel
  ∧ (∀ p, run.1 = Ok p → p = mappingsTarget o w)
  ∧ (∀ r, getProp o "entity" = VParseObj r →
       className (heap run.2 !!! r) = className (heap w !!! r)
       ∧ objectId (heap run.2 !!! r) = objectId (heap w !!! r)
       ∧ ∀ k, k ∉ forIn o → notBookkeeping k → attr run.2 r k = attr w r k).
Proof.
  intros o w run.
  apply (mappings_touches_only_its_document Example.rejectingStore "Task" o w run.1 run.2).
  vm_compute. reflexivity.
Defined.

Lemma mappings_writes_flattened_fields_witness :
  let o := VObject (EntityObjectProto "Task")
             [("title", VStr "renamed"); ("child", VNull); ("entity", VParseObj 1)] in
  let w := mkWorld Example.chainHeap [] [] in
  let run := mappings Example.rejectingStore "Task" o w in
  attr run.2 1 "title" = VStr "renamed" ∧ attr run.2 1 "child" = VUndefined.
Proof.
  intros o w run. split.
  - apply (mappings_writes_flattened_fields Example.rejectingStore "Task" o w 1%positive
             run.2); [vm_compute; reflexivity|vm_compute; left|intros [=]| |reflexivity].
    split; intros [=].
  - apply (mappings_writes_flattened_fields Example.rejectingStore "Task" o w 1%positive
             run.2); [vm_compute; reflexivity|vm_compute; right; left|intros [=]|
                      |reflexivity].
    split; intros [=].
Defined.

(** ** Facade: further facts *)

Lemma mapParseArrayOfAttributesToEntityObject_terminates appClassnames fuel h rows (d M : Z) :
  (0 ≤ d ≤ defaultMaxDeep)%Z → (defaultMaxDeep - d < Z.of_nat fuel)%Z →
  is_Some (mapParseArrayOfAttributesToEntityObject appClassnames fuel h rows d M).
Proof.
  intros Hd Hfuel. unfold mapParseArrayOfAttributesToEntityObject, mapArrayWith.
  case_decide; [|by eexists].
  apply mapM_is_Some, Forall_forall. intros v _.
  apply mapParseAttributesToEntityObject_terminates; lia.
Qed.

(** X18.  [save] raises nothing of its own: an exception it ends with was
    raised by the flattening, before any network call.  When it returns,
    it has made one network call, the save of the document flattening
    worked on, and gives back the object it was given, with at most the
    handle replaced. *)
Theorem save_raises_only_what_flattening_raises store classname o w res w' :
  save store classname o w = (res, w') →
  res ≠ OutOfFuel
  ∧ (∀ e, res = Throw e →
       mappings store classname o w = (Throw e, w') ∧ network w' = network w)
  ∧ (∀ m, res = Ok m →
       network w' = network w ++ [NetSave (mappingsTarget o w)]
       ∧ (m = o ∨ ∃ saved, m = setProp o "entity" (VParseObj saved))).
Proof.
  unfold save. unfold bind at 1.
  destruct (mappings store classname o w) as [[p| |] w1] eqn:Hm;
    destruct (mappings_frame _ _ _ _ _ _ Hm) as (Hc & Hn & _ & Hfuel & Hp & _); [| |done].
  - rewrite (Hp p eq_refl). unfold bind, objectSave, bind, recordCall.
    cbn [heap console network].
    destruct (storeSave store _ (mappingsTarget o w)) as [[saved h']|];
      intros [= <- <-]; cbn [network]; rewrite Hn;
      (split; [done|split; [done|]]); intros m [= <-]; (split; [done|]).
    + right. by exists saved.
    + by left.
  - intros [= <- <-]. split; [done|]. split; [|done]. by intros ? [= <-].
Qed.

(** X19.  [getAll] never raises.  It counts, then downloads with the
    count as limit, or with the limit of the service, 100000, when the
    count was rejected; a rejected download gives the empty list. *)
Theorem getAll_never_raises appClassnames store classname fuel w :
  (4 ≤ fuel)%nat →
  ∃ ms w' limit,
    getAll appClassnames store classname fuel w = (Ok ms, w')
    ∧ network w' = network w ++ [NetCount classname; NetFind classname limit]
    ∧ limit = default 100000%Z
                (storeCount store
                   (mkWorld (heap w) (console w) (network w ++ [NetCount classname]))
                   classname)
    ∧ ((∀ w1, storeFind store w1 classname limit = None) → ms = [] ∧ heap w' = heap w).
Proof.
  intros Hfuel. unfold getAll. unfold bind at 1. unfold queryCount, bind at 1, recordCall.
  cbn [heap console network].
  set (w1 := mkWorld (heap w) (console w) (network w ++ [NetCount classname])).
  assert (∀ limit w2, network w2 = network w ++ [NetCount classname] → heap w2 = heap w →
    ∃ ms w',
      (do entityObjects <- queryFind store classname limit;
       λ w, match mapParseArrayOfAttributesToEntityObject appClassnames fuel (heap w)
                    entityObjects 0 defaultArrayMaxDeep with
            | Some ms => (Ok ms, w)
            | None => (OutOfFuel, w)
            end) w2 = (Ok ms, w')
      ∧ network w' = network w ++ [NetCount classname; NetFind classname limit]
      ∧ ((∀ w1, storeFind store w1 classname limit = None) → ms = [] ∧ heap w' = heap w))
    as Hfind.
  { intros limit w2 Hn Hh. unfold bind, queryFind, bind, recordCall. cbn [heap console network].
    destruct (storeFind store _ classname limit) as [[rows h']|] eqn:Hrows.
    - cbn [heap].
      destruct (mapParseArrayOfAttributesToEntityObject_terminates appClassnames fuel h'
                  (VParseObj <$> rows) 0 defaultArrayMaxDeep) as [ms ->];
        [unfold defaultMaxDeep; lia..|].
      exists ms. eexists. split; [done|]. cbn [network]. rewrite Hn, <- app_assoc.
      split; [done|]. intros Hnone. by rewrite Hnone in Hrows.
    - cbn [heap]. exists []. eexists. split; [done|]. cbn [network heap].
      rewrite Hn, <- app_assoc. done. }
  destruct (storeCount store w1 classname) as [n|] eqn:Hcount; cbn [default].
  - destruct (Hfind n w1) as (ms & w' & Hrun & Hn & Hms); [done..|].
    exists ms, w', n. by rewrite Hrun.
  - destruct (Hfind queryLimit
                (mkWorld (heap w)
                   (console w ++ ["Canno count available objects";
                                  "Trying to download all the objects using the set default limit in the service"])
                   (network w ++ [NetCount classname])))
      as (ms & w' & Hrun & Hn & Hms); [done..|].
    exists ms, w', queryLimit. by rewrite Hrun.
Qed.

(** X20.  What [getFullObjectById] returns is a plain copy of the
    hydrated document: no instance of a domain class, so that
    [checkExistence] answers no for it without asking the store.  For a
    document of a registered class the copy still carries the handle;
    for a class the application does not register it is the empty
    object. *)
Theorem getFullObjectById_returns_detached_copy appClassnames store classname fuel id
    (objectExists : Val → Op bool) w m w' :
  getFullObjectById appClassnames store classname fuel id w = (Ok m, w') →
  ∃ r,
    storeGet store (mkWorld (heap w) (console w) (network w ++ [NetGet classname id]))
      classname id = Some (r, heap w')
    ∧ (∃ fs, m = VObject PlainProto fs)
    ∧ checkExistence objectExists m w' = (Ok false, w')
    ∧ (Classnames appClassnames (className (heap w' !!! r)) = None →
         m = VObject PlainProto [])
    ∧ (∀ def type,
         Classnames appClassnames (className (heap w' !!! r)) = Some (RefDefinition def) →
         defType def = Some type →
         getProp m "entity" = VParseObj r).
Proof.
  unfold getFullObjectById, bind, queryGet, bind, recordCall. cbn [heap console network].
  destruct (storeGet store _ classname id) as [[r h']|]; [|done].
  unfold hydrate. cbn [heap].
  destruct (mapParseAttributesToEntityObject appClassnames fuel h' (VParseObj r) 0 3)
    as [m0|] eqn:Hm0; [|done].
  intros [= <- <-]. cbn [heap]. exists r. split; [done|].
  split; [destruct m0; by eexists|]. split; [by destruct m0|]. split.
  - intros Hnone. destruct fuel as [|fuel]; [done|].
    rewrite hydration_of_unregistered in Hm0 by done. by injection Hm0 as <-.
  - intros def type Hreg Htype.
    destruct (mapParseAttributesToEntityObject_shape _ _ _ _ _ _ _ _ _ Hreg Htype Hm0)
      as (fs & -> & Hent).
    done.
Qed.

(** X21.  A duplicate of a domain object made without copying attributes
    has no handle and otherwise the fields of the original.  Flattening
    it works on a document that was not there before, and leaves every
    document that was there, the one of the original included, as it
    was. *)
Theorem duplicate_is_detached_from_the_original store classname proto fields w res w' :
  mappings store classname (duplicate (VObject proto fields)) w = (res, w') →
  getProp (duplicate (VObject proto fields)) "entity" = VUndefined
  ∧ (∀ k, k ≠ "entity" →
       getProp (duplicate (VObject proto fields)) k = getProp (VObject proto fields) k)
  ∧ (∀ p, res = Ok p → heap w !! p = None)
  ∧ (∀ r, is_Some (heap w !! r) → heap w' !! r = heap w !! r).
Proof.
  intros Hrun.
  assert (getProp (duplicate (VObject proto fields)) "entity" = VUndefined) as Hent.
  { cbn. apply Props_get_delete_eq. }
  assert (heap w !! fresh (dom (heap w)) = None) as Hfresh.
  { apply not_elem_of_dom. apply is_fresh. }
  destruct (mappings_frame _ _ _ _ _ _ Hrun) as (_ & _ & Ho & _ & Hp & _).
  unfold mappingsTarget in Ho, Hp. rewrite Hent in Ho, Hp.
  split; [done|]. split; [|split].
  - intros k Hk. cbn. by apply Props_get_delete_ne.
  - intros p Hres. by rewrite (Hp p Hres).
  - intros r [x Hr]. apply Ho. intros ->. by rewrite Hfresh in Hr.
Qed.

(** ** Facade: concrete runs *)

Lemma save_raises_only_what_flattening_raises_witness :
  let o := VObject (EntityObjectProto "Task") [("title", VStr "X")] in
  let run := save Example.acceptingStore "Task" o Example.emptyWorld in
  run.1 ≠ OutOfFuel
  ∧ (∀ e, run.1 = Throw e →
       mappings Example.acceptingStore "Task" o Example.emptyWorld = (Throw e, run.2)
       ∧ network run.2 = network Example.emptyWorld)
  ∧ (∀ m, run.1 = Ok m →
       network run.2
       = network Example.emptyWorld ++ [NetSave (mappingsTarget o Example.emptyWorld)]
       ∧ (m = o ∨ ∃ saved, m = setProp o "entity" (VParseObj saved))).
Proof.
  intros o run.
  apply (save_raises_only_what_flattening_raises Example.acceptingStore "Task" o
           Example.emptyWorld run.1 run.2).
  vm_compute. reflexivity.
Defined.

Lemma getAll_never_raises_witness :
  ∃ ms w' limit,
    getAll Example.appClassnames Example.rejectingStore "Task" 4 Example.emptyWorld
      = (Ok ms, w')
    ∧ network w' = network Example.emptyWorld ++ [NetCount "Task"; NetFind "Task" limit]
    ∧ limit = default 100000%Z
                (storeCount Example.rejectingStore
                   (mkWorld (heap Example.emptyWorld) (console Example.emptyWorld)
                      (network Example.emptyWorld ++ [NetCount "Task"]))
                   "Task")
    ∧ ((∀ w1, storeFind Example.rejectingStore w1 "Task" limit = None)
       → ms = [] ∧ heap w' = heap Example.emptyWorld).
Proof.
  apply (getAll_never_raises Example.appClassnames Example.rejectingStore "Task" 4
           Example.emptyWorld).
  lia.
Defined.

Lemma getFullObjectById_returns_detached_copy_witness :
  let w := mkWorld Cases.cyclicHeap [] [] in
  let run := getFullObjectById Example.appClassnames Cases.findingStore "Task" 4 "t0" w in
  ∃ r,
    storeGet Cases.findingStore (mkWorld (heap w) (console w) (network w ++ [NetGet "Task" "t0"]))
      "Task" "t0" = Some (r, heap run.2)
    ∧ (∃ fs, Cases.hydratedCopy = VObject PlainProto fs)
    ∧ checkExistence Cases.alwaysExists Cases.hydratedCopy run.2 = (Ok false, run.2)
    ∧ (Classnames Example.appClassnames (className (heap run.2 !!! r)) = None →
         Cases.hydratedCopy = VObject PlainProto [])
    ∧ (∀ def type,
         Classnames Example.appClassnames (className (heap run.2 !!! r))
           = Some (RefDefinition def) →
         defType def = Some type →
         getProp Cases.hydratedCopy "entity" = VParseObj r).
Proof.
  intros w run.
  apply (getFullObjectById_returns_detached_copy Example.appClassnames Cases.findingStore
           "Task" 4 "t0" Cases.alwaysExists w Cases.hydratedCopy run.2).
  vm_compute. reflexivity.
Defined.

Lemma duplicate_is_detached_from_the_original_witness :
  let o := VObject (EntityObjectProto "Task")
             [("title", VStr "one"); ("entity", VParseObj 1)] in
  let w := mkWorld Cases.twinsHeap [] [] in
  let run := mappings Example.rejectingStore "Task" (duplicate o) w in
  getProp (duplicate o) "entity" = VUndefined
  ∧ (∀ k, k ≠ "entity" → getProp (duplicate o) k = getProp o k)
  ∧ (∀ p, run.1 = Ok p → heap w !! p = None)
  ∧ (∀ r, is_Some (heap w !! r) → heap run.2 !! r = heap w !! r).
Proof.
  intros o w run.
  apply (duplicate_is_detached_from_the_original Example.rejectingStore "Task"
           (EntityObjectProto "Task") [("title", VStr "one"); ("entity", VParseObj 1)] w
           run.1 run.2).
  vm_compute. reflexivity.
Defined.

(** ** Facade: downloads *)

Lemma getFullObjectById_outcomes appClassnames store classname fuel id w :
  (4 ≤ fuel)%nat →
  ∃ w', network w' = network w ++ [NetGet classname id]
    ∧ (getFullObjectById appClassnames store classname fuel id w
         = (Throw (ThrownError "Error: Object not found."), w')
       ∨ ∃ m, getFullObjectById appClassnames store classname fuel id w = (Ok m, w')
              ∧ ¬ ∀ w1, storeGet store w1 classname id = None).
Proof.
  intros Hfuel. unfold getFullObjectById, bind, queryGet, bind, recordCall.
  cbn [heap console network].
  destruct (storeGet store _ classname id) as [[r h']|] eqn:Hget.
  - unfold hydrate. cbn [heap].
    destruct (mapParseAttributesToEntityObject_terminates appClassnames fuel h'
                (VParseObj r) 0 3) as [m ->]; [unfold defaultMaxDeep; lia..|].
    eexists. split;
      [|right; eexists; split; [reflexivity|]; intros Hnone; by rewrite Hnone in Hget].
    done.
  - eexists. split; [|by left]. done.
Qed.

(** X22.  With a cache that is not empty, [fetchObjectByIdIfNeeded] never
    raises: it returns the cached object after no download for a cached
    identifier, and after one or two downloads of that identifier
    otherwise; when the store rejects both, it returns [undefined]. *)
Theorem fetchObjectByIdIfNeeded_with_cache_never_raises appClassnames store classname
    fuel buffer id w :
  (4 ≤ fuel)%nat →
  size buffer ≠ 0%nat →
  ∃ v w' n,
    fetchObjectByIdIfNeeded appClassnames store classname fuel (Some buffer) id w
      = (Ok v, w')
    ∧ (n ≤ 2)%nat
    ∧ network w' = network w ++ replicate n (NetGet classname id)
    ∧ (truthy (default VUndefined (buffer !! id)) = true →
         n = 0%nat ∧ buffer !! id = Some v ∧ w' = w)
    ∧ (truthy (default VUndefined (buffer !! id)) = false →
       (∀ w1, storeGet store w1 classname id = None) →
         n = 2%nat ∧ v = VUndefined).
Proof.
  intros Hfuel Hsize. unfold fetchObjectByIdIfNeeded. rewrite decide_False by done.
  unfold tryCatch at 1.
  destruct (truthy (default VUndefined (buffer !! id))) eqn:Hcached; cbn [negb].
  { exists (default VUndefined (buffer !! id)), w, 0%nat. split; [done|]. split; [lia|].
    split; [by rewrite app_nil_r|]. split; [|done]. intros _. split; [done|]. split; [|done].
    by destruct (buffer !! id). }
  destruct (getFullObjectById_outcomes appClassnames store classname fuel id w Hfuel)
    as (w1 & Hn1 & [Hrun1 | (m & Hrun1 & Hsome1)]); rewrite Hrun1.
  2:{ exists m, w1, 1%nat. split; [done|]. split; [lia|]. split; [done|]. split; [done|].
      intros _ Hnone. by destruct Hsome1. }
  unfold tryCatch.
  destruct (getFullObjectById_outcomes appClassnames store classname fuel id w1 Hfuel)
    as (w2 & Hn2 & [Hrun2 | (m & Hrun2 & Hsome2)]); rewrite Hrun2.
  - exists VUndefined, w2, 2%nat. split; [done|]. split; [lia|].
    split; [|done]. rewrite Hn2, Hn1. by rewrite <- app_assoc.
  - exists m, w2, 2%nat. split; [done|]. split; [lia|].
    split; [rewrite Hn2, Hn1; by rewrite <- app_assoc|]. split; [done|].
    intros _ Hnone. by destruct Hsome2.
Qed.

(** X23.  When the store resolves the deletion, [destroy] makes that one
    network call and returns the hydrated form of the document the store
    answered with, on the heap the store left, not the object it was
    given. *)
Theorem destroy_returns_hydrated_answer appClassnames store fuel o w r r' h' :
  getProp o "entity" = VParseObj r →
  storeDestroy store (mkWorld (heap w) (console w) (network w ++ [NetDestroy r])) r
    = Some (r', h') →
  (4 ≤ fuel)%nat →
  ∃ m w',
    destroy appClassnames store fuel o w = (Ok m, w')
    ∧ heap w' = h'
    ∧ network w' = network w ++ [NetDestroy r]
    ∧ mapParseAttributesToEntityObject appClassnames fuel h' (VParseObj r') 0 defaultMaxDeep
      = Some m.
Proof.
  intros Hent Hdestroy Hfuel.
  destruct (mapParseAttributesToEntityObject_terminates appClassnames fuel h'
              (VParseObj r') 0 defaultMaxDeep) as [m Hm]; [unfold defaultMaxDeep; lia..|].
  exists m, (mkWorld h' (console w) (network w ++ [NetDestroy r])).
  split; [|done].
  unfold destroy. rewrite Hent. cbn [truthy negb asParseObject].
  unfold bind, objectDestroy, bind, recordCall, ret. cbn [heap console network].
  rewrite Hdestroy. unfold hydrate. cbn [heap]. by rewrite Hm.
Qed.

(** ** Downloads: concrete runs *)

Lemma fetchObjectByIdIfNeeded_with_cache_never_raises_witness :
  ∃ v w' n,
    fetchObjectByIdIfNeeded Example.appClassnames Cases.findingStore "Task" 4
      (Some {["t0" := Cases.hydratedRow]}) "t1" (mkWorld Cases.cyclicHeap [] [])
      = (Ok v, w')
    ∧ (n ≤ 2)%nat
    ∧ network w' = network (mkWorld Cases.cyclicHeap [] []) ++ replicate n (NetGet "Task" "t1")
    ∧ (truthy (default VUndefined (({["t0" := Cases.hydratedRow]} : gmap string Val) !! "t1"))
         = true →
         n = 0%nat ∧ ({["t0" := Cases.hydratedRow]} : gmap string Val) !! "t1" = Some v
         ∧ w' = mkWorld Cases.cyclicHeap [] [])
    ∧ (truthy (default VUndefined (({["t0" := Cases.hydratedRow]} : gmap string Val) !! "t1"))
         = false →
       (∀ w1, storeGet Cases.findingStore w1 "Task" "t1" = None) →
         n = 2%nat ∧ v = VUndefined).
Proof.
  apply (fetchObjectByIdIfNeeded_with_cache_never_raises Example.appClassnames
           Cases.findingStore "Task" 4 {["t0" := Cases.hydratedRow]} "t1"
           (mkWorld Cases.cyclicHeap [] [])).
  - lia.
  - vm_compute. intros [=].
Defined.

Lemma destroy_returns_hydrated_answer_witness :
  ∃ m w',
    destroy Example.appClassnames Example.acceptingStore 4 (Cases.taskObject "one" 1)
      (mkWorld Cases.cyclicHeap [] [])
      = (Ok m, w')
    ∧ heap w' = Cases.cyclicHeap
    ∧ network w' = [] ++ [NetDestroy 1]
    ∧ mapParseAttributesToEntityObject Example.appClassnames 4 Cases.cyclicHeap
        (VParseObj 1) 0 defaultMaxDeep
      = Some m.
Proof.
  apply (destroy_returns_hydrated_answer Example.appClassnames Example.acceptingStore 4
           (Cases.taskObject "one" 1) (mkWorld Cases.cyclicHeap [] []) 1%positive
           1%positive Cases.cyclicHeap); first [lia | reflexivity].
Defined.

(** ** The round trip of an object without handle *)

(** C6, as amended.  For a domain object without handle of a class the
    registry holds with its constructor, whose [classname] field is no
    reference array, [mappings] produces a document that was not there
    before, tagged with the class name, and hydrating it gives back, its
    value unchanged, every field that holds a boolean, a number, a string
    or a date, except the fields named ["entityArrayProperties"] and
    ["entityProperties"], which [mappings] overwrites with its two lists.
    A field that holds [null] is unset like one that holds [undefined]:
    the document has nothing under its name, and hydration gives
    [undefined] for it unless the constructor initialises the field. *)
Theorem flatten_then_hydrate_recovers_scalars
    (appClassnames : string → option EntityObjectDefinition) (store : RemoteStore)
    (classname : string) (def : EntityObjectDefinition) (type : Ctor)
    (o : Val) (w : World) :
  Classnames appClassnames classname = Some (RefDefinition def) →
  defType def = Some type →
  isNullish (getProp o "entity") = true →
  (∀ elems, getProp o "classname" = VArr elems →
     isReferenceArray (VArr (mapTypescriptAttributeToParseObjectAttribute <$> elems)) = false) →
  flattenThenHydrateRecovers appClassnames store classname isScalar notBookkeeping o w
  ∧ ∀ p w', mappings store classname o w = (Ok p, w') →
      ∀ k, k ∈ forIn o → k ≠ "entity" → notBookkeeping k →
           isNullish (getProp o k) = true →
           attr w' p k = VUndefined
           ∧ ∀ fuel m,
               mapParseAttributesToEntityObject appClassnames fuel (heap w')
                 (VParseObj p) 0 defaultMaxDeep = Some m →
               Props.get k (ctorInit type) = VUndefined →
               getProp m k = VUndefined.
Proof.
  intros Hreg Htype Hnew Hclass. split.
  2:{ intros p w' Hrun k Hk Hne Hkeep Hnull.
      assert (attr w' p k = VUndefined) as Hattr.
      { pose proof Hrun as Hrun'.
        rewrite mappings_create_unfold in Hrun' by done.
        apply mappings_from_written in Hrun' as [-> Hwritten].
        rewrite (Hwritten k Hk Hne Hkeep).
        - unfold flattened. by rewrite Hnull.
        - by destruct (getProp o k). }
      split; [done|]. intros fuel m Hm Hinit.
      destruct (mappings_create_runs store classname o w Hnew Hclass)
        as (p0 & w0 & Hrun0 & _ & Hcn & _).
      rewrite Hrun in Hrun0. injection Hrun0 as <- <-.
      assert (Classnames appClassnames (className (heap w' !!! p))
              = Some (RefDefinition def)) as Hreg' by (by rewrite Hcn).
      destruct fuel as [|fuel]; [done|].
      rewrite (mapParseAttributesToEntityObject_registered appClassnames fuel (heap w') p
                 0 defaultMaxDeep def type Hreg' Htype) in Hm.
      rewrite decide_True in Hm by done.
      destruct (foldlM _ _ _) as [m'|] eqn:Hfold; simpl in Hm; [|done].
      injection Hm as <-. rewrite getProp_setProp_ne by done.
      unfold construct in Hfold.
      apply foldlM_hydrate_lookup in Hfold as [_ Hlook].
      destruct (Hlook k) as [Hin Hout]. unfold attr in Hattr.
      destruct (decide (k ∈ Props.keys (attributes (heap w' !!! p)))) as [Hkey|Hkey].
      - specialize (Hin Hkey). rewrite Hattr in Hin. by injection Hin.
      - by rewrite (Hout Hkey). }
  destruct (mappings_create_runs store classname o w Hnew Hclass)
    as (p & w' & Hrun & Hfresh & Hcn & _ & Hattrs).
  assert (Classnames appClassnames (className (heap w' !!! p))
          = Some (RefDefinition def)) as Hreg' by (by rewrite Hcn).
  exists p, w'. split; [done|]. split; [done|]. split; [done|].
  intros fuel Hfuel.
  destruct (mapParseAttributesToEntityObject_terminates appClassnames fuel (heap w')
              (VParseObj p) 0 defaultMaxDeep) as [m Hm];
    [unfold defaultMaxDeep; lia..|].
  exists m. split; [done|].
  intros k Hk Hscalar.
  assert (k ≠ "entity") as Hne.
  { intros ->. destruct (getProp o "entity"); done. }
  pose proof (Hattrs k Hk Hne Hscalar) as Hattr.
  destruct fuel as [|fuel]; [lia|].
  rewrite (mapParseAttributesToEntityObject_registered appClassnames fuel (heap w') p
             0 defaultMaxDeep def type Hreg' Htype) in Hm.
  rewrite decide_True in Hm by done.
  destruct (foldlM _ _ _) as [m'|] eqn:Hfold; simpl in Hm; [|done].
  injection Hm as <-. rewrite getProp_setProp_ne by done.
  unfold construct in Hfold.
  apply foldlM_hydrate_lookup in Hfold as [_ Hlook].
  destruct (Hlook k) as [Hfound _].
  unfold attr in Hattr.
  assert (k ∈ Props.keys (attributes (heap w' !!! p))) as Hkey.
  { apply Props_get_is_key. rewrite Hattr. by destruct (getProp o k). }
  specialize (Hfound Hkey). rewrite Hattr in Hfound.
  rewrite hydrateAttribute_scalar in Hfound by done. by injection Hfound.
Qed.

Lemma flatten_then_hydrate_recovers_scalars_witness :
  flattenThenHydrateRecovers Example.appClassnames Example.rejectingStore "Task"
    isScalar notBookkeeping Cases.draft (mkWorld Example.diffHeap [] [])
  ∧ ∀ p w',
      mappings Example.rejectingStore "Task" Cases.draft (mkWorld Example.diffHeap [] [])
        = (Ok p, w') →
      ∀ k, k ∈ forIn Cases.draft → k ≠ "entity" → notBookkeeping k →
           isNullish (getProp Cases.draft k) = true →
           attr w' p k = VUndefined
           ∧ ∀ fuel m,
               mapParseAttributesToEntityObject Example.appClassnames fuel (heap w')
                 (VParseObj p) 0 defaultMaxDeep = Some m →
               Props.get k (ctorInit Example.Task) = VUndefined →
               getProp m k = VUndefined.
Proof.
  apply (flatten_then_hydrate_recovers_scalars
           Example.appClassnames Example.rejectingStore "Task"
           (mkDefinition "Task" (Some Example.Task)) Example.Task).
  - reflexivity.
  - reflexivity.
  - reflexivity.
  - intros elems Hv. discriminate Hv.
Defined.

(** C6, as stated, fails in three ways.  A string field named
    ["entityProperties"] comes back as the empty list [mappings] wrote
    last.  A field that holds [null] comes back [undefined]: [mappings]
    unset it.  And on an object whose [classname] field is an array of
    documents [mappings] raises, as it takes the class name it has just
    written for the current array, so no document is produced. *)
Lemma flatten_then_hydrate_loses_fields :
  ¬ flattenThenHydrateRecovers Example.appClassnames Example.rejectingStore "Task"
      isScalar (λ _, True)
      (VObject (EntityObjectProto "Task")
         [("title", VStr "X"); ("entityProperties", VStr "x")])
      Example.emptyWorld
  ∧ ¬ flattenThenHydrateRecovers Example.appClassnames Example.rejectingStore "Task"
        isScalarOrNull notBookkeeping
        (VObject (EntityObjectProto "Task") [("title", VStr "X"); ("note", VNull)])
        Example.emptyWorld
  ∧ fst (mappings Example.rejectingStore "Task"
           (VObject (EntityObjectProto "Task") [("classname", VArr [VParseObj 1])])
           (mkWorld Example.diffHeap [] [])) = Throw TypeError
  ∧ ¬ flattenThenHydrateRecovers Example.appClassnames Example.rejectingStore "Task"
        isScalar notBookkeeping
        (VObject (EntityObjectProto "Task") [("classname", VArr [VParseObj 1])])
        (mkWorld Example.diffHeap [] []).
Proof.
  split; [|split; [|split]].
  - intros (p & w' & Hrun & _ & _ & Hround).
    vm_compute in Hrun. injection Hrun as <- <-.
    destruct (Hround 4%nat (le_n 4)) as (m & Hm & Hk).
    vm_compute in Hm. injection Hm as <-.
    specialize (Hk "entityProperties" I eq_refl).
    vm_compute in Hk. discriminate Hk.
  - intros (p & w' & Hrun & _ & _ & Hround).
    vm_compute in Hrun. injection Hrun as <- <-.
    destruct (Hround 4%nat (le_n 4)) as (m & Hm & Hk).
    vm_compute in Hm. injection Hm as <-.
    assert (notBookkeeping "note") as Hkeep by (split; discriminate).
    specialize (Hk "note" Hkeep eq_refl).
    vm_compute in Hk. discriminate Hk.
  - vm_compute. reflexivity.
  - intros (p & w' & Hrun & _).
    vm_compute in Hrun. discriminate Hrun.
Qed.
